(** * web_music: the per-tick signal conditioning pipeline

    A shallow embedding of the JavaScript sources of the visualizer
    (the AudioVisualizer and ChannelMeters custom elements) together with
    the properties its specification states about them.

    Numbers.  JavaScript numbers are IEEE doubles.  The embedding computes
    with exact rationals [Q] instead: every constant of the source
    (0.3, 0.85, 0.98, ...) is the rational the literal denotes and no
    rounding is modelled.  The one non-finite value the operations of
    the pipeline could yield, NaN (from 0/0 in a bucket average over no
    samples), is modelled explicitly by [jsnum], so that its absence is
    proved and not assumed.  [Math.sqrt], [Math.pow] and [Math.exp] are functions of the
    host; the embedding takes them as the fields of [HostMath]. *)

From Stdlib Require Import ZArith QArith Qround Qabs Qminmax Qpower.
From Stdlib Require Import Lia Lqa Bool String.
From stdpp Require Import base list gmap strings.

Local Open Scope Q_scope.

(** ** Host functions and comparisons *)

Class HostMath := {
  Math_sqrt : Q -> Q;
  Math_pow : Q -> Q -> Q;
  Math_exp : Q -> Q;
  Math_exp_pos : forall x, 0 < Math_exp x
}.

(** [a > b] and [a < b] of the source, as booleans. *)
Definition Qgtb (a b : Q) : bool := negb (Qle_bool a b).
Definition Qltb (a b : Q) : bool := negb (Qle_bool b a).

(** [Math.floor] of a rational. *)
Definition Math_floor (q : Q) : Z := Qfloor q.

(** A rational stand-in for the host functions, used to run the model on
    concrete inputs.  Values are kept on a grid of 2^-40: the square root
    by the integer square root, [exp x] as the 1024th power of the
    second-order Taylor polynomial at [x/1024], and [pow b e] as
    [exp (e * ln b)] with the logarithm from the atanh series. *)
Definition grid : Q := inject_Z (2 ^ 40).

Definition roundUp (q : Q) : Q := inject_Z (Qceiling (q * grid)) / grid.

Definition approx_sqrt (q : Q) : Q :=
  inject_Z (Z.sqrt (Qfloor (q * grid * grid))) / grid.

Definition approx_exp (x : Q) : Q :=
  let y := x / 1024 in
  Nat.iter 10 (fun v => roundUp (v * v)) (roundUp (1 + y + y * y / 2)).

Definition approx_ln (b : Q) : Q :=
  let e := (Z.log2 (Qfloor (b * grid)) - 40)%Z in
  let m := b / Qpower 2 e in
  let z := roundUp ((m - 1) / (m + 1)) in
  let series :=
    fold_right (fun k acc => acc + Qpower z (2 * k + 1) / inject_Z (2 * k + 1))
               0 (seqZ 0 8) in
  inject_Z e * (6931471805599453 # 10000000000000000) + 2 * series.

Definition approx_pow (b e : Q) : Q :=
  if Qle_bool b 0 then 0 else approx_exp (e * approx_ln b).

Lemma roundUp_pos (q : Q) : 0 < q -> 0 < roundUp q.
Proof.
  intros Hq. unfold roundUp.
  assert (Hgrid : 0 < grid) by reflexivity.
  apply Qlt_shift_div_l; [exact Hgrid|]. rewrite Qmult_0_l.
  apply Qlt_le_trans with (q * grid).
  - apply Qmult_lt_0_compat; assumption.
  - apply Qle_ceiling.
Qed.

Lemma approx_exp_pos : forall x, 0 < approx_exp x.
Proof.
  intros x. unfold approx_exp.
  generalize 10%nat as n. induction n as [|n IH]; simpl.
  - apply roundUp_pos. generalize (x / 1024). intros y.
    unfold Qdiv. change (/ 2) with (1 # 2). nra.
  - apply roundUp_pos. apply Qmult_lt_0_compat; exact IH.
Qed.

Definition approxMath : HostMath :=
  {| Math_sqrt := approx_sqrt; Math_pow := approx_pow;
     Math_exp := approx_exp; Math_exp_pos := approx_exp_pos |}.

(** ** JavaScript numbers that may be NaN

    [NaN] also stands for [undefined] where the source reads an array past
    its end and uses the value in arithmetic. *)

Inductive jsnum := Num (q : Q) | NaN.

Definition jadd (a b : jsnum) : jsnum :=
  match a, b with Num x, Num y => Num (x + y) | _, _ => NaN end.
Definition jsub (a b : jsnum) : jsnum :=
  match a, b with Num x, Num y => Num (x - y) | _, _ => NaN end.
Definition jmul (a b : jsnum) : jsnum :=
  match a, b with Num x, Num y => Num (x * y) | _, _ => NaN end.
(** [Math.max] and [Math.min] return NaN as soon as an argument is NaN. *)
Definition jmax (a b : jsnum) : jsnum :=
  match a, b with Num x, Num y => Num (Qmax x y) | _, _ => NaN end.
Definition jmin (a b : jsnum) : jsnum :=
  match a, b with Num x, Num y => Num (Qmin x y) | _, _ => NaN end.
(** [a > b]: false as soon as an argument is NaN. *)
Definition jgt (a b : jsnum) : bool :=
  match a, b with Num x, Num y => Qgtb x y | _, _ => false end.

(** [x / n] for an integer [n].  Where the source divides a sum by a
    count, the count is zero only when the summing loop ran no iteration,
    so the numerator is 0 and JavaScript evaluates 0/0 to NaN; the
    constants 255 and 3 it also divides by are never zero. *)
Definition jdiv_count (sum : jsnum) (n : Z) : jsnum :=
  match sum with
  | NaN => NaN
  | Num s => if (n =? 0)%Z then NaN else Num (s / inject_Z n)
  end.

(** [arr[i]] used as a number, and [arr[i] = v] (an assignment past the end
    extends the array and leaves holes). *)
Definition js_get (l : list jsnum) (i : nat) : jsnum := default NaN (l !! i).

Definition js_set (i : nat) (v : jsnum) (l : list jsnum) : list jsnum :=
  if (i <? length l)%nat then <[i := v]> l
  else l ++ replicate (i - length l) NaN ++ [v].

(** [dataArray[j]] of the byte array the analyser fills. *)
Definition byteAt (dataArray : list Z) (j : Z) : jsnum :=
  if (j <? 0)%Z then NaN
  else match dataArray !! Z.to_nat j with
       | Some b => Num (inject_Z b)
       | None => NaN
       end.

(** [for (j = startIndex; j < endIndex; j++) sum += dataArray[j]]. *)
Definition sumBins (dataArray : list Z) (startIndex endIndex : Z) : jsnum :=
  fold_left (fun sum j => jadd sum (byteAt dataArray j))
            (seqZ startIndex (endIndex - startIndex)) (Num 0).

(** [arr.fill(0)]. *)
Definition fill0 (l : list jsnum) : list jsnum := replicate (length l) (Num 0).

(** [new Array(n).fill(0)]. *)
Definition zeros (n : nat) : list jsnum := replicate n (Num 0).

(** ** Vocabulary of the statements *)

(** A finite value between two bounds. *)
Definition within (lo hi : Q) (x : jsnum) : Prop :=
  match x with Num q => lo <= q <= hi | NaN => False end.

(** A finite value equal to [q]. *)
Definition isNum (x : jsnum) (q : Q) : Prop :=
  match x with Num y => y == q | NaN => False end.

(** What [getByteFrequencyData] delivers: [n] bytes. *)
Definition isByteArray (n : Z) (dataArray : list Z) : Prop :=
  Z.of_nat (length dataArray) = n
  /\ Forall (fun b => (0 <= b <= 255)%Z) dataArray.

(** The recurrence of one bar on finite values: the low-pass step, the
    peak update ([expired] tells whether the hold time has run out) and
    the displayed value. *)
Definition smoothStep (f a h : Q) : Q := a + (h - a) * f.

Definition peakStep (expired : bool) (p smooth : Q) : Q :=
  if Qgtb smooth p then smooth
  else Qmax (p * (if expired then 85 # 100 else 98 # 100)) smooth.

Definition displayStep (smooth p' : Q) : Q := Qmax smooth (p' * (5 # 10)).

(** One tick takes a bar from [(a, p)] to [(a', p')] under the level [h]. *)
Definition barAdvance (f h a p a' p' : Q) : Prop :=
  exists expired : bool,
    p' = peakStep expired p (smoothStep f a h)
    /\ a' = displayStep (smoothStep f a h) p'.

(** [r] to the power [n]. *)
Fixpoint geom (r : Q) (n : nat) : Q :=
  match n with
  | O => 1
  | S n => r * geom r n
  end.

(** The level the linear curve gives a bucket that holds the one byte [b]:
    the sum starts at 0, the count is 1. *)
Definition levelOfByte (b : Z) : Q :=
  Qmax 1 (Qmin 100 ((0 + inject_Z b) / inject_Z 1 / inject_Z 255 * 100)).

(** ** ChannelMeters (src/channel-meters.js) *)

Module ChannelMeters.

Record t := {
  isRunning : bool;
  leftBaseline : Q;
  rightBaseline : Q;
  calibrationSamples : Z;
  leftHistory : list Q;
  rightHistory : list Q;
  historySize : nat;
  noiseGate : Q
}.

(** The constructor. *)
Definition new : t :=
  {| isRunning := false; leftBaseline := 0; rightBaseline := 0;
     calibrationSamples := 0; leftHistory := []; rightHistory := [];
     historySize := 3; noiseGate := 25 |}.

Definition is_left (channel : string) : bool := String.eqb channel "left".

Definition baselineOf (m : t) (channel : string) : Q :=
  if is_left channel then leftBaseline m else rightBaseline m.

Definition historyOf (m : t) (channel : string) : list Q :=
  if is_left channel then leftHistory m else rightHistory m.

(** The history array is mutated in place through the alias [history]:
    the write lands in the field the alias was taken from. *)
Definition setHistory (m : t) (channel : string) (h : list Q) : t :=
  if is_left channel
  then {| isRunning := isRunning m; leftBaseline := leftBaseline m;
          rightBaseline := rightBaseline m;
          calibrationSamples := calibrationSamples m;
          leftHistory := h; rightHistory := rightHistory m;
          historySize := historySize m; noiseGate := noiseGate m |}
  else {| isRunning := isRunning m; leftBaseline := leftBaseline m;
          rightBaseline := rightBaseline m;
          calibrationSamples := calibrationSamples m;
          leftHistory := leftHistory m; rightHistory := h;
          historySize := historySize m; noiseGate := noiseGate m |}.

Definition stop (m : t) : t :=
  {| isRunning := false; leftBaseline := leftBaseline m;
     rightBaseline := rightBaseline m;
     calibrationSamples := calibrationSamples m;
     leftHistory := []; rightHistory := [];
     historySize := historySize m; noiseGate := noiseGate m |}.

(** Lines 111-120: the loop over the bins; the accumulator is
    [(sum, validSamples)]. *)
Definition gateStep (gate baseline : Q) (acc : Q * Z) (rawLevel : Z) : Q * Z :=
  let cleanLevel := Qmax 0 (inject_Z rawLevel - baseline) in
  if Qgtb cleanLevel gate
  then let normalized := cleanLevel / 255 in
       (fst acc + normalized * normalized, (snd acc + 1)%Z)
  else acc.

Definition gateLoop (gate baseline : Q) (dataArray : list Z) : Q * Z :=
  fold_left (gateStep gate baseline) dataArray (0, 0%Z).

(** Lines 128-136: from the RMS to the percentage that enters the
    history. *)
Definition percentageOf `{HostMath} (rms : Q) : Q :=
  let percentage := rms * 200 in
  let percentage :=
    if Qgtb percentage 80 then 80 + (percentage - 80) * (3 # 10)
    else percentage in
  let percentage := Qmin 95 percentage in
  Math_pow (percentage / 100) (6 # 10) * 100.

(** [history.slice(-2)]. *)
Definition slice_last2 (h : list Q) : list Q := skipn (length h - 2) h.

(** [reduce((a, b) => a + b)]: the first element seeds the sum.  On an
    empty array JavaScript throws; the caller only gets here with two
    elements. *)
Definition reduce_add (h : list Q) : Q :=
  match h with
  | [] => 0
  | a :: rest => fold_left Qplus rest a
  end.

(** Lines 139-142: [push], then one [shift] when the array got longer
    than [historySize]. *)
Definition pushHistory (size : nat) (history : list Q) (percentage : Q) : list Q :=
  let history := history ++ [percentage] in
  if (size <? length history)%nat then tail history else history.

(** Lines 138-157: push into the history, trim it, and blend. *)
Definition blendWithHistory (m : t) (channel : string) (percentage : Q) : Q * t :=
  let history := pushHistory (historySize m) (historyOf m channel) percentage in
  let m' := setHistory m channel history in
  if (length history <? 2)%nat then (percentage, m')
  else
    let recentAvg := reduce_add (slice_last2 history) / 2 in
    let '(currentWeight, historyWeight) :=
      if Qgtb percentage recentAvg then (4 # 10, 6 # 10) else (6 # 10, 4 # 10) in
    (Qmax 0 (percentage * currentWeight + recentAvg * historyWeight), m').

Definition calculateFilteredRMS `{HostMath} (m : t) (dataArray : list Z)
    (channel : string) : Q * t :=
  let '(sum, validSamples) :=
    gateLoop (noiseGate m) (baselineOf m channel) dataArray in
  if (validSamples <? 3)%Z then (0, m)
  else
    let rms := Math_sqrt (sum / inject_Z validSamples) in
    if Qltb rms (2 # 100) then (0, m)
    else blendWithHistory m channel (percentageOf rms).

(** What the two early exits test: the number of bins that cleared the
    gate, and the RMS over them. *)
Definition validSamplesOf (m : t) (dataArray : list Z) (channel : string) : Z :=
  snd (gateLoop (noiseGate m) (baselineOf m channel) dataArray).

Definition rmsOf `{HostMath} (m : t) (dataArray : list Z) (channel : string) : Q :=
  Math_sqrt (fst (gateLoop (noiseGate m) (baselineOf m channel) dataArray)
             / inject_Z (validSamplesOf m dataArray channel)).

Definition earlyExit `{HostMath} (m : t) (dataArray : list Z) (channel : string) : Prop :=
  (validSamplesOf m dataArray channel < 3)%Z
  \/ rmsOf m dataArray channel < 2 # 100.

(** The blend as the specification words it: the window is the last two
    entries recorded before the push, and the new value weighs 0.6 when
    it exceeds their mean, 0.4 otherwise. *)
Definition blend_spec (historyBefore : list Q) (percentage : Q) : Q :=
  let recentAvg := reduce_add (slice_last2 historyBefore) / 2 in
  if Qgtb percentage recentAvg
  then percentage * (6 # 10) + recentAvg * (4 # 10)
  else percentage * (4 # 10) + recentAvg * (6 # 10).

(** *** The rest of the element *)

Definition withRunning (m : t) (b : bool) : t :=
  {| isRunning := b; leftBaseline := leftBaseline m;
     rightBaseline := rightBaseline m;
     calibrationSamples := calibrationSamples m;
     leftHistory := leftHistory m; rightHistory := rightHistory m;
     historySize := historySize m; noiseGate := noiseGate m |}.

(** Lines 160-163: [calibrateBaseline] clears the baselines and the
    counter, then schedules [calibrate]. *)
Definition calibrateBaseline (m : t) : t :=
  {| isRunning := isRunning m; leftBaseline := 0; rightBaseline := 0;
     calibrationSamples := 0;
     leftHistory := leftHistory m; rightHistory := rightHistory m;
     historySize := historySize m; noiseGate := noiseGate m |}.

Definition sumBytes (dataArray : list Z) : Z := fold_left Z.add dataArray 0%Z.

(** Lines 165-185: the scheduled callback, on the bytes the two analysers
    hold when it fires.  The one loop runs over the left array and reads
    the right array at the same indices.  [None] stands for a baseline
    that would become NaN: an empty left array (0/0) or a right array
    shorter than the left one (a sum with [undefined]).  The product
    [leftAvg * 0.7] is the exact one; a run rounds it, so the statements
    about the baselines are bounds and orderings, not equalities. *)
Definition calibrate (m : t) (leftData rightData : list Z) : option t :=
  if (calibrationSamples m <? 20)%Z && isRunning m
  then
    if (length leftData =? 0)%nat || (length rightData <? length leftData)%nat
    then None
    else
      let leftSum := sumBytes leftData in
      let rightSum := sumBytes (take (length leftData) rightData) in
      let leftAvg := inject_Z leftSum / inject_Z (Z.of_nat (length leftData)) in
      let rightAvg := inject_Z rightSum / inject_Z (Z.of_nat (length rightData)) in
      Some {| isRunning := isRunning m;
              leftBaseline := Qmax (leftBaseline m) (leftAvg * (7 # 10));
              rightBaseline := Qmax (rightBaseline m) (rightAvg * (7 # 10));
              calibrationSamples := calibrationSamples m + 1;
              leftHistory := leftHistory m; rightHistory := rightHistory m;
              historySize := historySize m; noiseGate := noiseGate m |}
  else Some m.

(** Lines 190-207: what [updateBar] puts on a bar. *)
Inductive glow := Red | Amber | Green | Faint.

Record barView := {
  width : Q;
  valueLabel : Z;
  boxShadow : glow
}.

Definition updateBar (level : Q) : barView :=
  let clampedLevel := Qmin 100 (Qmax 0 level) in
  {| width := clampedLevel;
     valueLabel := Qfloor (clampedLevel + (1 # 2));
     boxShadow :=
       if Qgtb clampedLevel 80 then Red
       else if Qgtb clampedLevel 60 then Amber
       else if Qgtb clampedLevel 20 then Green
       else Faint |}.

(** Lines 91-104: one refresh tick; the answer is what the two bars show,
    [None] when the element is stopped. *)
Definition animate `{HostMath} (m : t) (leftData rightData : list Z)
    : option (barView * barView) * t :=
  if negb (isRunning m) then (None, m)
  else
    let '(leftLevel, m1) := calculateFilteredRMS m leftData "left" in
    let '(rightLevel, m2) := calculateFilteredRMS m1 rightData "right" in
    (Some (updateBar leftLevel, updateBar rightLevel), m2).

(** Lines 70-74. *)
Definition start `{HostMath} (m : t) (leftData rightData : list Z)
    : option (barView * barView) * t :=
  animate (calibrateBaseline (withRunning m true)) leftData rightData.

(** [analyser.frequencyBinCount] of the two analysers ([fftSize = 256]). *)
Definition frequencyBinCount : Z := 128.

(** The states of the element: construction, [start], the calibration
    callback, refresh ticks and [stop], on the bytes of the analysers. *)
Inductive reachable `{HostMath} : t -> Prop :=
| reach_new : reachable new
| reach_start m leftData rightData :
    reachable m ->
    isByteArray frequencyBinCount leftData -> isByteArray frequencyBinCount rightData ->
    reachable (snd (start m leftData rightData))
| reach_calibrate m leftData rightData m' :
    reachable m ->
    isByteArray frequencyBinCount leftData -> isByteArray frequencyBinCount rightData ->
    calibrate m leftData rightData = Some m' -> reachable m'
| reach_animate m leftData rightData :
    reachable m ->
    isByteArray frequencyBinCount leftData -> isByteArray frequencyBinCount rightData ->
    reachable (snd (animate m leftData rightData))
| reach_stop m : reachable m -> reachable (stop m).

(** The calibration steps on a sequence of frames, each the left and the
    right array of one step. *)
Fixpoint calibrateAll (m : t) (frames : list (list Z * list Z))
    : option t :=
  match frames with
  | [] => Some m
  | (leftData, rightData) :: rest =>
      match calibrate m leftData rightData with
      | Some m' => calibrateAll m' rest
      | None => None
      end
  end.

(** What every reachable state of the element satisfies. *)
Definition bounded (m : t) : Prop :=
  historySize m = 3%nat
  /\ (length (leftHistory m) <= 3)%nat /\ (length (rightHistory m) <= 3)%nat
  /\ 0 <= leftBaseline m <= 1785 # 10
  /\ 0 <= rightBaseline m <= 1785 # 10
  /\ (0 <= calibrationSamples m <= 20)%Z.

End ChannelMeters.


(** ** AudioVisualizer (src/audio-visualizer.js) *)

Module AudioVisualizer.

Record t := {
  initialised : bool;          (* audioContext and analyser are set *)
  bufferLength : Z;
  isRunning : bool;
  barCount : nat;
  peakHoldTime : Z;
  barPeaks : list jsnum;
  barPeakTimes : list jsnum;
  barSmoothValues : list jsnum;
  smoothingFactor : Q;
  spectrumHistory : list (list jsnum);
  maxHistoryLayers : nat
}.

Definition new : t :=
  {| initialised := false; bufferLength := 0; isRunning := false;
     barCount := 64; peakHoldTime := 200;
     barPeaks := zeros 64; barPeakTimes := zeros 64;
     barSmoothValues := zeros 64; smoothingFactor := 3 # 10;
     spectrumHistory := []; maxHistoryLayers := 10 |}.

(** The bar arrays and the history are the fields a tick writes. *)
Definition withBars (s : t) (smooth peaks times : list jsnum) : t :=
  {| initialised := initialised s; bufferLength := bufferLength s;
     isRunning := isRunning s; barCount := barCount s;
     peakHoldTime := peakHoldTime s;
     barPeaks := peaks; barPeakTimes := times; barSmoothValues := smooth;
     smoothingFactor := smoothingFactor s;
     spectrumHistory := spectrumHistory s;
     maxHistoryLayers := maxHistoryLayers s |}.

Definition withHistory (s : t) (h : list (list jsnum)) : t :=
  {| initialised := initialised s; bufferLength := bufferLength s;
     isRunning := isRunning s; barCount := barCount s;
     peakHoldTime := peakHoldTime s;
     barPeaks := barPeaks s; barPeakTimes := barPeakTimes s;
     barSmoothValues := barSmoothValues s;
     smoothingFactor := smoothingFactor s;
     spectrumHistory := h;
     maxHistoryLayers := maxHistoryLayers s |}.

Definition withRunning (s : t) (b : bool) : t :=
  {| initialised := initialised s; bufferLength := bufferLength s;
     isRunning := b; barCount := barCount s;
     peakHoldTime := peakHoldTime s;
     barPeaks := barPeaks s; barPeakTimes := barPeakTimes s;
     barSmoothValues := barSmoothValues s;
     smoothingFactor := smoothingFactor s;
     spectrumHistory := spectrumHistory s;
     maxHistoryLayers := maxHistoryLayers s |}.

(** [analyser.frequencyBinCount]: half of [fftSize = 256]. *)
Definition frequencyBinCount : Z := 128.

(** [initAudio], when the microphone is granted. *)
Definition initAudio (s : t) : t :=
  {| initialised := true; bufferLength := frequencyBinCount;
     isRunning := isRunning s; barCount := barCount s;
     peakHoldTime := peakHoldTime s;
     barPeaks := barPeaks s; barPeakTimes := barPeakTimes s;
     barSmoothValues := barSmoothValues s;
     smoothingFactor := smoothingFactor s;
     spectrumHistory := spectrumHistory s;
     maxHistoryLayers := maxHistoryLayers s |}.

(** Lines 90-100. *)
Definition stop (s : t) : t :=
  {| initialised := initialised s; bufferLength := bufferLength s;
     isRunning := false; barCount := barCount s;
     peakHoldTime := peakHoldTime s;
     barPeaks := barPeaks s; barPeakTimes := barPeakTimes s;
     barSmoothValues := fill0 (barSmoothValues s);
     smoothingFactor := smoothingFactor s;
     spectrumHistory := [];
     maxHistoryLayers := maxHistoryLayers s |}.

(** Lines 227-231. *)
Definition processAudioLevel (rawLevel : jsnum) : jsnum :=
  let barHeight := jmul (jdiv_count rawLevel 255) (Num 100) in
  jmax (Num 1) (jmin (Num 100) barHeight).

(** Lines 115-121: the bins of bar [i]. *)
Definition usableRangeOf (s : t) : Z :=
  Math_floor (inject_Z (bufferLength s) * (6 # 10)).

Definition barWidthOf (s : t) : Z :=
  Math_floor (inject_Z (usableRangeOf s) / inject_Z (Z.of_nat (barCount s))).

Definition startIndexOf (s : t) (i : nat) : Z := (Z.of_nat i * barWidthOf s)%Z.

Definition endIndexOf (s : t) (i : nat) : Z :=
  Z.min (startIndexOf s i + barWidthOf s) (usableRangeOf s).

(** Line 127: the bucket average of bar [i]. *)
Definition averageOf (s : t) (dataArray : list Z) (i : nat) : jsnum :=
  jdiv_count (sumBins dataArray (startIndexOf s i) (endIndexOf s i))
             (endIndexOf s i - startIndexOf s i).

(** Lines 130-142 for one bar: low-pass, peak hold and decay, and the
    displayed value written back into the smoothed value. *)
Definition trackBar (s : t) (currentTime : Z) (i : nat) (barHeight : jsnum) : t :=
  let old := js_get (barSmoothValues s) i in
  let smooth := jadd old (jmul (jsub barHeight old) (Num (smoothingFactor s))) in
  let peak := js_get (barPeaks s) i in
  let '(peaks, times) :=
    if jgt smooth peak
    then (js_set i smooth (barPeaks s),
          js_set i (Num (inject_Z currentTime)) (barPeakTimes s))
    else if jgt (jsub (Num (inject_Z currentTime)) (js_get (barPeakTimes s) i))
                (Num (inject_Z (peakHoldTime s)))
    then (js_set i (jmax (jmul peak (Num (85 # 100))) smooth) (barPeaks s),
          barPeakTimes s)
    else (js_set i (jmax (jmul peak (Num (98 # 100))) smooth) (barPeaks s),
          barPeakTimes s) in
  let displayHeight := jmax smooth (jmul (js_get peaks i) (Num (5 # 10))) in
  withBars s (js_set i displayHeight (barSmoothValues s)) peaks times.

(** The body of the loop over the bars (lines 118-143). *)
Definition barStep (dataArray : list Z) (currentTime : Z) (s : t) (i : nat) : t :=
  trackBar s currentTime i (processAudioLevel (averageOf s dataArray i)).

(** Lines 151-156: [unshift] a copy of the bars, then one [pop] when the
    history got longer than [maxHistoryLayers]. *)
Definition updateSpectrumHistory (s : t) : t :=
  let h := barSmoothValues s :: spectrumHistory s in
  withHistory s
    (if (maxHistoryLayers s <? length h)%nat then removelast h else h).

(** [for (let i = 0; i < this.barCount; i++)]. *)
Definition barLoop (s : t) (dataArray : list Z) (currentTime : Z) : t :=
  fold_left (barStep dataArray currentTime) (seq 0 (barCount s)) s.

(** One refresh tick (lines 106-149): [dataArray] is what the analyser
    delivers and [currentTime] is [Date.now()]. *)
Definition animate (s : t) (dataArray : list Z) (currentTime : Z) : t :=
  if negb (isRunning s) then s
  else updateSpectrumHistory (barLoop s dataArray currentTime).

(** [start] throws when the audio is not initialised; otherwise it runs
    the first tick at once. *)
Definition start (s : t) (dataArray : list Z) (currentTime : Z) : option t :=
  if initialised s
  then Some (animate (withRunning s true) dataArray currentTime)
  else None.

(** The states the element goes through: construction, [initAudio],
    [start], refresh ticks and [stop], each tick with the bytes of the
    analyser. *)
Inductive reachable : t -> Prop :=
| reach_new : reachable new
| reach_initAudio s : reachable s -> reachable (initAudio s)
| reach_start s dataArray currentTime s' :
    reachable s -> isByteArray frequencyBinCount dataArray ->
    start s dataArray currentTime = Some s' -> reachable s'
| reach_animate s dataArray currentTime :
    reachable s -> isByteArray frequencyBinCount dataArray ->
    reachable (animate s dataArray currentTime)
| reach_stop s : reachable s -> reachable (stop s).

(** The smoothed value and the peak of bar [i], when both are finite. *)
Definition barAt (s : t) (i : nat) (a p : Q) : Prop :=
  barSmoothValues s !! i = Some (Num a) /\ barPeaks s !! i = Some (Num p).

(** [n] ticks in a row, tick [k] with the bytes [dataArray k] at the time
    [currentTime k]. *)
Fixpoint run (s : t) (dataArray : nat -> list Z) (currentTime : nat -> Z)
    (n : nat) : t :=
  match n with
  | O => s
  | S n => animate (run s dataArray currentTime n) (dataArray n) (currentTime n)
  end.

(** The configuration the constructor and [initAudio] fix, with the shape
    of the bar arrays. *)
Definition configured (s : t) : Prop :=
  barCount s = 64%nat /\ smoothingFactor s = 3 # 10
  /\ length (barSmoothValues s) = 64%nat
  /\ length (barPeaks s) = 64%nat
  /\ length (barPeakTimes s) = 64%nat
  /\ (isRunning s = true -> initialised s = true)
  /\ (initialised s = true -> bufferLength s = frequencyBinCount).

(** Every bar is finite, with 0 <= smoothed <= peak <= 100. *)
Definition barsInRange (s : t) : Prop :=
  forall i, (i < 64)%nat ->
    exists a p, barAt s i a p /\ 0 <= a /\ a <= p /\ p <= 100.

(** The state [start] hands to its first tick on a fresh element, and an
    analyser that delivers silence. *)
Definition started : t := withRunning (initAudio new) true.

Definition silence : list Z := replicate 128 0%Z.

(** *** Drawing (lines 32-46 and 158-205) *)

Record canvas := { canvasWidth : Q; canvasHeight : Q }.

(** [rect.width || 800], [rect.height || 200]: an element without extent
    gets the default size. *)
Definition setupCanvas (rectWidth rectHeight : Q) : canvas :=
  {| canvasWidth := if Qeq_bool rectWidth 0 then 800 else rectWidth;
     canvasHeight := if Qeq_bool rectHeight 0 then 200 else rectHeight |}.

Definition baseBarSpacing : Q := 1.

Definition baseBarWidth (s : t) (c : canvas) : Q :=
  let availableWidth := canvasWidth c in
  let totalSpacing := (inject_Z (Z.of_nat (barCount s)) - 1) * baseBarSpacing in
  let widthForBarsAndMargins := availableWidth - totalSpacing in
  widthForBarsAndMargins / (inject_Z (Z.of_nat (barCount s)) + 2).

Definition marginWidth (s : t) (c : canvas) : Q := baseBarWidth s c.

Definition depthSpacing (c : canvas) : Q := canvasHeight c * (5 # 100).

(** One [fillRect]: the rectangle, the alpha of the fill style and the
    shadow blur in force (0 outside the glow pass, which resets it). *)
Record fill := {
  fx : Q; fy : jsnum; fwidth : Q; fheight : jsnum; falpha : Q; fblur : Q
}.

(** Lines 179-203: the one or two fills of bar [i] of a layer. *)
Definition drawBar (c : canvas) (startX barWidth barSpacing baseY opacity scale : Q)
    (isFrontLayer : bool) (i : nat) (heightPercent : jsnum) : list fill :=
  let x := startX + inject_Z (Z.of_nat i) * (barWidth + barSpacing) in
  let barHeight :=
    jmul (jmul (jmul (jdiv_count heightPercent 100) (Num (canvasHeight c)))
               (Num (7 # 10))) (Num scale) in
  let y := jsub (Num baseY) barHeight in
  let alpha := if isFrontLayer then Qmin 1 (opacity + (3 # 10))
               else opacity * (8 # 10) in
  let rect blur :=
    {| fx := x; fy := y; fwidth := barWidth; fheight := barHeight;
       falpha := alpha; fblur := blur |} in
  if isFrontLayer && jgt heightPercent (Num 70) then [rect 0; rect (12 * opacity)]
  else if isFrontLayer && jgt heightPercent (Num 40) then [rect 0; rect (6 * opacity)]
  else [rect 0].

(** Lines 171-205. *)
Definition drawSpectrumLayer (s : t) (c : canvas) (spectrum : list jsnum)
    (depth opacity scale : Q) (isFrontLayer : bool) : list fill :=
  let barWidth := baseBarWidth s c * scale in
  let barSpacing := baseBarSpacing * scale in
  let marginWidth := marginWidth s c * scale in
  let count := inject_Z (Z.of_nat (barCount s)) in
  let totalWidth := count * barWidth + (count - 1) * barSpacing + 2 * marginWidth in
  let startX := (canvasWidth c - totalWidth) / 2 + marginWidth in
  let baseY := canvasHeight c * (9 # 10) - depth in
  concat (imap (drawBar c startX barWidth barSpacing baseY opacity scale isFrontLayer)
               spectrum).

(** Lines 158-169: the layers from the oldest to the newest.  The layer
    count [maxHistoryLayers] the opacity divides by is the constant 10 of
    the constructor. *)
Definition drawLayer (s : t) (c : canvas) (layer : nat) : list fill :=
  match spectrumHistory s !! layer with
  | None => []
  | Some spectrum =>
      let opacity :=
        1 - inject_Z (Z.of_nat layer) / inject_Z (Z.of_nat (maxHistoryLayers s)) in
      let depth := inject_Z (Z.of_nat layer) * depthSpacing c in
      let scale := 1 - inject_Z (Z.of_nat layer) * (5 # 100) in
      drawSpectrumLayer s c spectrum depth opacity scale (layer =? 0)%nat
  end.

Definition draw3DSpectrum (s : t) (c : canvas) : list fill :=
  flat_map (drawLayer s c) (rev (seq 0 (length (spectrumHistory s)))).

(** A snapshot of the bars: 64 finite values in [0, 100]. *)
Definition snapshotInRange (spectrum : list jsnum) : Prop :=
  length spectrum = 64%nat /\ Forall (within 0 100) spectrum.

Definition historyInRange (s : t) : Prop :=
  maxHistoryLayers s = 10%nat
  /\ (length (spectrumHistory s) <= 10)%nat
  /\ Forall snapshotInRange (spectrumHistory s).

(** A fill that lies on the canvas, with a proper alpha. *)
Definition insideCanvas (c : canvas) (f : fill) : Prop :=
  exists y h,
    fy f = Num y /\ fheight f = Num h
    /\ 0 <= fx f /\ 0 <= fwidth f /\ fx f + fwidth f <= canvasWidth c
    /\ 0 <= y /\ 0 <= h /\ y + h <= canvasHeight c
    /\ 0 < falpha f <= 1 /\ 0 <= fblur f <= 12.


End AudioVisualizer.

(** ** AudioVisualizer of the published build (src/docs/app.js)

    The later variant: 48 bars over 55 percent of the bins, the sigmoid
    level curve, rolling averages, particles, band energies and a history
    whose capacity follows the fullscreen mode. *)

Module DocsVisualizer.

Record particle := {
  x : Q; y : Q; vx : Q; vy : Q;
  life : Q; decay : Q; size : Q;
  frequency : nat;
  color : Z * Z * Z
}.

Record t := {
  initialised : bool;
  bufferLength : Z;
  isRunning : bool;
  barCount : nat;
  peakHoldTime : Z;
  barPeaks : list jsnum;
  barPeakTimes : list jsnum;
  barSmoothValues : list jsnum;
  smoothingFactor : Q;
  spectrumHistory : list (list jsnum);
  maxHistoryLayers : nat;
  fullscreenHistoryLayers : nat;
  particles : list particle;
  particlePool : list particle;
  maxParticles : nat;
  peakThreshold : Q;
  rollingAverages : list jsnum;
  musicEnergy : jsnum;
  bassEnergy : jsnum;
  midEnergy : jsnum;
  trebleEnergy : jsnum;
  (* set by setupCanvas *)
  canvasWidth : Q;
  canvasHeight : Q;
  baseBarSpacing : Q;
  baseBarWidth : Q;
  marginWidth : Q
}.

Definition new : t :=
  {| initialised := false; bufferLength := 0; isRunning := false;
     barCount := 48; peakHoldTime := 200;
     barPeaks := zeros 48; barPeakTimes := zeros 48;
     barSmoothValues := zeros 48; smoothingFactor := 3 # 10;
     spectrumHistory := []; maxHistoryLayers := 10;
     fullscreenHistoryLayers := 15;
     particles := []; particlePool := []; maxParticles := 200;
     peakThreshold := 15; rollingAverages := zeros 48;
     musicEnergy := Num 0; bassEnergy := Num 0; midEnergy := Num 0;
     trebleEnergy := Num 0;
     canvasWidth := 0; canvasHeight := 0; baseBarSpacing := 0;
     baseBarWidth := 0; marginWidth := 0 |}.

Definition withBars (s : t) (smooth peaks times : list jsnum) : t :=
  {| initialised := initialised s; bufferLength := bufferLength s;
     isRunning := isRunning s; barCount := barCount s;
     peakHoldTime := peakHoldTime s;
     barPeaks := peaks; barPeakTimes := times; barSmoothValues := smooth;
     smoothingFactor := smoothingFactor s;
     spectrumHistory := spectrumHistory s;
     maxHistoryLayers := maxHistoryLayers s;
     fullscreenHistoryLayers := fullscreenHistoryLayers s;
     particles := particles s; particlePool := particlePool s;
     maxParticles := maxParticles s; peakThreshold := peakThreshold s;
     rollingAverages := rollingAverages s;
     musicEnergy := musicEnergy s; bassEnergy := bassEnergy s;
     midEnergy := midEnergy s; trebleEnergy := trebleEnergy s;
     canvasWidth := canvasWidth s; canvasHeight := canvasHeight s;
     baseBarSpacing := baseBarSpacing s; baseBarWidth := baseBarWidth s;
     marginWidth := marginWidth s |}.

Definition withHistory (s : t) (h : list (list jsnum)) : t :=
  {| initialised := initialised s; bufferLength := bufferLength s;
     isRunning := isRunning s; barCount := barCount s;
     peakHoldTime := peakHoldTime s;
     barPeaks := barPeaks s; barPeakTimes := barPeakTimes s;
     barSmoothValues := barSmoothValues s;
     smoothingFactor := smoothingFactor s;
     spectrumHistory := h;
     maxHistoryLayers := maxHistoryLayers s;
     fullscreenHistoryLayers := fullscreenHistoryLayers s;
     particles := particles s; particlePool := particlePool s;
     maxParticles := maxParticles s; peakThreshold := peakThreshold s;
     rollingAverages := rollingAverages s;
     musicEnergy := musicEnergy s; bassEnergy := bassEnergy s;
     midEnergy := midEnergy s; trebleEnergy := trebleEnergy s;
     canvasWidth := canvasWidth s; canvasHeight := canvasHeight s;
     baseBarSpacing := baseBarSpacing s; baseBarWidth := baseBarWidth s;
     marginWidth := marginWidth s |}.

Definition withRunning (s : t) (b : bool) : t :=
  {| initialised := initialised s; bufferLength := bufferLength s;
     isRunning := b; barCount := barCount s;
     peakHoldTime := peakHoldTime s;
     barPeaks := barPeaks s; barPeakTimes := barPeakTimes s;
     barSmoothValues := barSmoothValues s;
     smoothingFactor := smoothingFactor s;
     spectrumHistory := spectrumHistory s;
     maxHistoryLayers := maxHistoryLayers s;
     fullscreenHistoryLayers := fullscreenHistoryLayers s;
     particles := particles s; particlePool := particlePool s;
     maxParticles := maxParticles s; peakThreshold := peakThreshold s;
     rollingAverages := rollingAverages s;
     musicEnergy := musicEnergy s; bassEnergy := bassEnergy s;
     midEnergy := midEnergy s; trebleEnergy := trebleEnergy s;
     canvasWidth := canvasWidth s; canvasHeight := canvasHeight s;
     baseBarSpacing := baseBarSpacing s; baseBarWidth := baseBarWidth s;
     marginWidth := marginWidth s |}.

Definition withParticles (s : t) (ps pool : list particle) : t :=
  {| initialised := initialised s; bufferLength := bufferLength s;
     isRunning := isRunning s; barCount := barCount s;
     peakHoldTime := peakHoldTime s;
     barPeaks := barPeaks s; barPeakTimes := barPeakTimes s;
     barSmoothValues := barSmoothValues s;
     smoothingFactor := smoothingFactor s;
     spectrumHistory := spectrumHistory s;
     maxHistoryLayers := maxHistoryLayers s;
     fullscreenHistoryLayers := fullscreenHistoryLayers s;
     particles := ps; particlePool := pool;
     maxParticles := maxParticles s; peakThreshold := peakThreshold s;
     rollingAverages := rollingAverages s;
     musicEnergy := musicEnergy s; bassEnergy := bassEnergy s;
     midEnergy := midEnergy s; trebleEnergy := trebleEnergy s;
     canvasWidth := canvasWidth s; canvasHeight := canvasHeight s;
     baseBarSpacing := baseBarSpacing s; baseBarWidth := baseBarWidth s;
     marginWidth := marginWidth s |}.

Definition withRolling (s : t) (r : list jsnum) : t :=
  {| initialised := initialised s; bufferLength := bufferLength s;
     isRunning := isRunning s; barCount := barCount s;
     peakHoldTime := peakHoldTime s;
     barPeaks := barPeaks s; barPeakTimes := barPeakTimes s;
     barSmoothValues := barSmoothValues s;
     smoothingFactor := smoothingFactor s;
     spectrumHistory := spectrumHistory s;
     maxHistoryLayers := maxHistoryLayers s;
     fullscreenHistoryLayers := fullscreenHistoryLayers s;
     particles := particles s; particlePool := particlePool s;
     maxParticles := maxParticles s; peakThreshold := peakThreshold s;
     rollingAverages := r;
     musicEnergy := musicEnergy s; bassEnergy := bassEnergy s;
     midEnergy := midEnergy s; trebleEnergy := trebleEnergy s;
     canvasWidth := canvasWidth s; canvasHeight := canvasHeight s;
     baseBarSpacing := baseBarSpacing s; baseBarWidth := baseBarWidth s;
     marginWidth := marginWidth s |}.

Definition withEnergies (s : t) (music bass mid treble : jsnum) : t :=
  {| initialised := initialised s; bufferLength := bufferLength s;
     isRunning := isRunning s; barCount := barCount s;
     peakHoldTime := peakHoldTime s;
     barPeaks := barPeaks s; barPeakTimes := barPeakTimes s;
     barSmoothValues := barSmoothValues s;
     smoothingFactor := smoothingFactor s;
     spectrumHistory := spectrumHistory s;
     maxHistoryLayers := maxHistoryLayers s;
     fullscreenHistoryLayers := fullscreenHistoryLayers s;
     particles := particles s; particlePool := particlePool s;
     maxParticles := maxParticles s; peakThreshold := peakThreshold s;
     rollingAverages := rollingAverages s;
     musicEnergy := music; bassEnergy := bass;
     midEnergy := mid; trebleEnergy := treble;
     canvasWidth := canvasWidth s; canvasHeight := canvasHeight s;
     baseBarSpacing := baseBarSpacing s; baseBarWidth := baseBarWidth s;
     marginWidth := marginWidth s |}.

(** [setupCanvas]: [rectWidth] and [rectHeight] come from
    [getBoundingClientRect]; a zero falls back to 800 by 200. *)
Definition setupCanvas (s : t) (rectWidth rectHeight : Q) : t :=
  let width := if Qeq_bool rectWidth 0 then 800 else rectWidth in
  let height := if Qeq_bool rectHeight 0 then 200 else rectHeight in
  let spacing := 1 in
  let totalSpacing := (inject_Z (Z.of_nat (barCount s)) - 1) * spacing in
  let widthForBarsAndMargins := width - totalSpacing in
  let barW := widthForBarsAndMargins / (inject_Z (Z.of_nat (barCount s)) + 2) in
  {| initialised := initialised s; bufferLength := bufferLength s;
     isRunning := isRunning s; barCount := barCount s;
     peakHoldTime := peakHoldTime s;
     barPeaks := barPeaks s; barPeakTimes := barPeakTimes s;
     barSmoothValues := barSmoothValues s;
     smoothingFactor := smoothingFactor s;
     spectrumHistory := spectrumHistory s;
     maxHistoryLayers := maxHistoryLayers s;
     fullscreenHistoryLayers := fullscreenHistoryLayers s;
     particles := particles s; particlePool := particlePool s;
     maxParticles := maxParticles s; peakThreshold := peakThreshold s;
     rollingAverages := rollingAverages s;
     musicEnergy := musicEnergy s; bassEnergy := bassEnergy s;
     midEnergy := midEnergy s; trebleEnergy := trebleEnergy s;
     canvasWidth := width; canvasHeight := height;
     baseBarSpacing := spacing; baseBarWidth := barW;
     marginWidth := barW |}.

(** [analyser.frequencyBinCount]: half of [fftSize = 256]. *)
Definition frequencyBinCount : Z := 128.

Definition initAudio (s : t) : t :=
  {| initialised := true; bufferLength := frequencyBinCount;
     isRunning := isRunning s; barCount := barCount s;
     peakHoldTime := peakHoldTime s;
     barPeaks := barPeaks s; barPeakTimes := barPeakTimes s;
     barSmoothValues := barSmoothValues s;
     smoothingFactor := smoothingFactor s;
     spectrumHistory := spectrumHistory s;
     maxHistoryLayers := maxHistoryLayers s;
     fullscreenHistoryLayers := fullscreenHistoryLayers s;
     particles := particles s; particlePool := particlePool s;
     maxParticles := maxParticles s; peakThreshold := peakThreshold s;
     rollingAverages := rollingAverages s;
     musicEnergy := musicEnergy s; bassEnergy := bassEnergy s;
     midEnergy := midEnergy s; trebleEnergy := trebleEnergy s;
     canvasWidth := canvasWidth s; canvasHeight := canvasHeight s;
     baseBarSpacing := baseBarSpacing s; baseBarWidth := baseBarWidth s;
     marginWidth := marginWidth s |}.

(** Lines 440-456. *)
Definition stop (s : t) : t :=
  {| initialised := initialised s; bufferLength := bufferLength s;
     isRunning := false; barCount := barCount s;
     peakHoldTime := peakHoldTime s;
     barPeaks := barPeaks s; barPeakTimes := barPeakTimes s;
     barSmoothValues := fill0 (barSmoothValues s);
     smoothingFactor := smoothingFactor s;
     spectrumHistory := [];
     maxHistoryLayers := maxHistoryLayers s;
     fullscreenHistoryLayers := fullscreenHistoryLayers s;
     particles := []; particlePool := particlePool s;
     maxParticles := maxParticles s; peakThreshold := peakThreshold s;
     rollingAverages := fill0 (rollingAverages s);
     musicEnergy := Num 0; bassEnergy := Num 0;
     midEnergy := Num 0; trebleEnergy := Num 0;
     canvasWidth := canvasWidth s; canvasHeight := canvasHeight s;
     baseBarSpacing := baseBarSpacing s; baseBarWidth := baseBarWidth s;
     marginWidth := marginWidth s |}.

(** Lines 615-634. *)
Definition applySigmoidScaling `{HostMath} (rawLevel : jsnum) : jsnum :=
  match rawLevel with
  | NaN => NaN
  | Num raw =>
      let noiseFloor := 40 in
      let midpoint := 55 in
      let steepness := 3 # 100 in
      let maxHeight := 100 in
      let noiseAdjustedInput := Qmax 0 ((raw - noiseFloor) / (255 - noiseFloor)) in
      let sigmoidInput := (noiseAdjustedInput * 255 - midpoint) * steepness in
      let sigmoidOutput := 1 / (1 + Math_exp (- sigmoidInput)) in
      let scaledHeight := sigmoidOutput * maxHeight in
      let finalHeight :=
        if Qgtb raw noiseFloor then scaledHeight else (raw / noiseFloor) * 5 in
      Num (Qmax 1 (Qmin 100 finalHeight))
  end.

Definition processAudioLevel `{HostMath} (rawLevel : jsnum) : jsnum :=
  applySigmoidScaling rawLevel.

Definition usableRangeOf (s : t) : Z :=
  Math_floor (inject_Z (bufferLength s) * (55 # 100)).

Definition barWidthOf (s : t) : Z :=
  Z.max 1 (Math_floor (inject_Z (usableRangeOf s) / inject_Z (Z.of_nat (barCount s)))).

Definition startIndexOf (s : t) (i : nat) : Z := (Z.of_nat i * barWidthOf s)%Z.

Definition endIndexOf (s : t) (i : nat) : Z :=
  Z.min (startIndexOf s i + barWidthOf s) (usableRangeOf s).

(** Line 483. *)
Definition averageOf (s : t) (dataArray : list Z) (i : nat) : jsnum :=
  jdiv_count (sumBins dataArray (startIndexOf s i) (endIndexOf s i))
             (endIndexOf s i - startIndexOf s i).

(** Lines 486-498; returns the displayed height as well. *)
Definition trackBar (s : t) (currentTime : Z) (i : nat) (barHeight : jsnum)
    : t * jsnum :=
  let old := js_get (barSmoothValues s) i in
  let smooth := jadd old (jmul (jsub barHeight old) (Num (smoothingFactor s))) in
  let peak := js_get (barPeaks s) i in
  let '(peaks, times) :=
    if jgt smooth peak
    then (js_set i smooth (barPeaks s),
          js_set i (Num (inject_Z currentTime)) (barPeakTimes s))
    else if jgt (jsub (Num (inject_Z currentTime)) (js_get (barPeakTimes s) i))
                (Num (inject_Z (peakHoldTime s)))
    then (js_set i (jmax (jmul peak (Num (85 # 100))) smooth) (barPeaks s),
          barPeakTimes s)
    else (js_set i (jmax (jmul peak (Num (98 # 100))) smooth) (barPeaks s),
          barPeakTimes s) in
  let displayHeight := jmax smooth (jmul (js_get peaks i) (Num (5 # 10))) in
  (withBars s (js_set i displayHeight (barSmoothValues s)) peaks times,
   displayHeight).

Definition updateRollingAverage (s : t) (barIndex : nat) (currentValue : jsnum) : t :=
  withRolling s
    (js_set barIndex
       (jadd (jmul (js_get (rollingAverages s) barIndex) (Num (95 # 100)))
             (jmul currentValue (Num (5 # 100))))
       (rollingAverages s)).

(** [Math.round]. *)
Definition Math_round (q : Q) : Z := Qfloor (q + (1 # 2)).

(** Lines 694-733; the string [rgb(r, g, b)] is kept as the triple. *)
Definition getFrequencyColor (s : t) (barIndex : nat) (intensity : Q) : Z * Z * Z :=
  let frequencyRatio :=
    inject_Z (Z.of_nat barIndex) / (inject_Z (Z.of_nat (barCount s)) - 1) in
  let brightness := Qmax (6 # 10) (Qmin (intensity / 80) 1) in
  let '(r, g, b) :=
    if Qltb frequencyRatio (2 # 10) then (255, 20, 147)
    else if Qltb frequencyRatio (4 # 10) then (255, 140, 0)
    else if Qltb frequencyRatio (6 # 10) then (255, 255, 0)
    else if Qltb frequencyRatio (8 # 10) then (50, 255, 50)
    else (0, 255, 255) in
  (Math_round (r * brightness), Math_round (g * brightness),
   Math_round (b * brightness)).

(** Lines 665-692.  [rnd] holds the three values [Math.random] returns,
    in the order the source draws them. *)
Definition spawnParticle (s : t) (rnd : Q * Q * Q) (barIndex : nat)
    (height intensity : Q) : t :=
  if (maxParticles s <=? length (particles s))%nat then s
  else
    (* particlePool.pop(): the object taken is overwritten field by field *)
    let pool := removelast (particlePool s) in
    let barWidth := baseBarWidth s * 1 in
    let barSpacing := baseBarSpacing s * 1 in
    let margin := marginWidth s * 1 in
    let n := inject_Z (Z.of_nat (barCount s)) in
    let totalWidth := n * barWidth + (n - 1) * barSpacing + 2 * margin in
    let startX := (canvasWidth s - totalWidth) / 2 + margin in
    let p :=
      {| x := startX + inject_Z (Z.of_nat barIndex) * (barWidth + barSpacing)
              + barWidth / 2;
         y := canvasHeight s * (9 # 10)
              - (height / 100) * canvasHeight s * (7 # 10);
         vx := (rnd.1.1 - (1 # 2)) * 2;
         vy := - rnd.1.2 * 3 - 1;
         life := 1;
         decay := (1 # 100) + rnd.2 * (1 # 100);
         size := 2 + (intensity / 100) * 3;
         frequency := barIndex;
         color := getFrequencyColor s barIndex intensity |} in
    withParticles s (particles s ++ [p]) pool.

(** Lines 657-663. *)
Definition detectFrequencyPeaks (s : t) (rnd : Q * Q * Q) (barIndex : nat)
    (rawValue displayHeight : jsnum) : t :=
  let threshold := jadd (js_get (rollingAverages s) barIndex) (Num (peakThreshold s)) in
  if jgt rawValue threshold && jgt displayHeight (Num 20)
  then match displayHeight, rawValue with
       | Num h, Num r => spawnParticle s rnd barIndex h r
       | _, _ => s
       end
  else s.

(** The body of the loop over the bars (lines 474-502); [rnd i] are the
    random draws of the spawn for bar [i], if it spawns. *)
Definition barStep `{HostMath} (dataArray : list Z) (currentTime : Z)
    (rnd : nat -> Q * Q * Q) (s : t) (i : nat) : t :=
  let barHeight := processAudioLevel (averageOf s dataArray i) in
  let '(s1, displayHeight) := trackBar s currentTime i barHeight in
  let s2 := updateRollingAverage s1 i barHeight in
  detectFrequencyPeaks s2 (rnd i) i barHeight displayHeight.

(** [for (i = from; i < to; i++) acc += barSmoothValues[i]]. *)
Definition sumBars (s : t) (from to : nat) : jsnum :=
  fold_left (fun acc i => jadd acc (js_get (barSmoothValues s) i))
            (seq from (to - from)) (Num 0).

(** Lines 772-794. *)
Definition calculateMusicEnergy (s : t) : t :=
  let bassRange := Z.to_nat (Math_floor (inject_Z (Z.of_nat (barCount s)) * (2 # 10))) in
  let midRange := Z.to_nat (Math_floor (inject_Z (Z.of_nat (barCount s)) * (6 # 10))) in
  let bass := jdiv_count (sumBars s 0 bassRange) (Z.of_nat bassRange) in
  let mid := jdiv_count (sumBars s bassRange midRange)
                        (Z.of_nat midRange - Z.of_nat bassRange) in
  let treble := jdiv_count (sumBars s midRange (barCount s))
                           (Z.of_nat (barCount s) - Z.of_nat midRange) in
  let music := jdiv_count (jadd (jadd bass mid) treble) 3 in
  withEnergies s music bass mid treble.

(** Lines 513-522; [fullscreen] is whether the body carries the class
    [fullscreen-mode] at this tick. *)
Definition updateSpectrumHistory (s : t) (fullscreen : bool) : t :=
  let h := barSmoothValues s :: spectrumHistory s in
  let maxLayers :=
    if fullscreen then fullscreenHistoryLayers s else maxHistoryLayers s in
  withHistory s (if (maxLayers <? length h)%nat then removelast h else h).

(** Lines 739-743: one update of a particle.  [life - decay] is the exact
    difference; a run rounds each subtraction, so the statements about
    lifetimes keep a decay step of margin. *)
Definition moveParticle (p : particle) : particle :=
  {| x := x p + vx p; y := y p + vy p;
     vx := vx p * (99 # 100); vy := vy p + (1 # 10);
     life := life p - decay p; decay := decay p; size := size p;
     frequency := frequency p; color := color p |}.

(** Lines 735-750.  The loop runs from the last particle to the first,
    which is the order in which [fold_right] visits the list; a dead
    particle is spliced out and pushed onto the pool. *)
Definition updateParticles (s : t) : t :=
  let '(alive, pool) :=
    fold_right
      (fun p '(alive, pool) =>
         let p' := moveParticle p in
         if Qle_bool (life p') 0 then (alive, pool ++ [p'])
         else (p' :: alive, pool))
      ([], particlePool s) (particles s) in
  withParticles s alive pool.

(** [for (let i = 0; i < this.barCount; i++)]. *)
Definition barLoop `{HostMath} (s : t) (dataArray : list Z) (currentTime : Z)
    (rnd : nat -> Q * Q * Q) : t :=
  fold_left (barStep dataArray currentTime rnd) (seq 0 (barCount s)) s.

(** One refresh tick (lines 462-511). *)
Definition animate `{HostMath} (s : t) (dataArray : list Z) (currentTime : Z)
    (fullscreen : bool) (rnd : nat -> Q * Q * Q) : t :=
  if negb (isRunning s) then s
  else
    let s := barLoop s dataArray currentTime rnd in
    let s := calculateMusicEnergy s in
    let s := updateSpectrumHistory s fullscreen in
    updateParticles s.

Definition start `{HostMath} (s : t) (dataArray : list Z) (currentTime : Z)
    (fullscreen : bool) (rnd : nat -> Q * Q * Q) : option t :=
  if initialised s
  then Some (animate (withRunning s true) dataArray currentTime fullscreen rnd)
  else None.

(** The state [start] hands to its first tick on a fresh element that has
    been attached to the page (an 800 by 200 canvas). *)
Definition started : t := withRunning (setupCanvas (initAudio new) 800 200) true.

(** The states the element goes through; a tick takes the bytes of the
    analyser, the time, whether the page is in fullscreen mode, and the
    random draws. *)
Inductive reachable `{HostMath} : t -> Prop :=
| reach_new : reachable new
| reach_setupCanvas s rectWidth rectHeight :
    reachable s -> reachable (setupCanvas s rectWidth rectHeight)
| reach_initAudio s : reachable s -> reachable (initAudio s)
| reach_start s dataArray currentTime fullscreen rnd s' :
    reachable s -> isByteArray frequencyBinCount dataArray ->
    start s dataArray currentTime fullscreen rnd = Some s' -> reachable s'
| reach_animate s dataArray currentTime fullscreen rnd :
    reachable s -> isByteArray frequencyBinCount dataArray ->
    reachable (animate s dataArray currentTime fullscreen rnd)
| reach_stop s : reachable s -> reachable (stop s).

(** What a tick needs from the page and the host. *)
Record tickInput := {
  dataArray : list Z;
  currentTime : Z;
  fullscreen : bool;
  random : nat -> Q * Q * Q
}.

Definition tick `{HostMath} (s : t) (input : tickInput) : t :=
  animate s (dataArray input) (currentTime input) (fullscreen input) (random input).

(** [n] ticks in a row, tick [k] on [inputs k]. *)
Fixpoint run `{HostMath} (s : t) (inputs : nat -> tickInput) (n : nat) : t :=
  match n with
  | O => s
  | S n => tick (run s inputs n) (inputs n)
  end.

(** The capacity of the history in a display mode. *)
Definition capacity (s : t) (fullscreen : bool) : nat :=
  if fullscreen then fullscreenHistoryLayers s else maxHistoryLayers s.

(** The fields no tick writes. *)
Definition sameSettings (s s' : t) : Prop :=
  initialised s' = initialised s /\ bufferLength s' = bufferLength s
  /\ isRunning s' = isRunning s /\ barCount s' = barCount s
  /\ maxHistoryLayers s' = maxHistoryLayers s
  /\ fullscreenHistoryLayers s' = fullscreenHistoryLayers s
  /\ maxParticles s' = maxParticles s.

(** What [draw3DSpectrum] and [drawSpectrumLayer] derive from the index of
    a history entry (lines 532 and 563); the source notes for the second:
    "0 = front, 1 = back". *)
Definition layerOpacity (s : t) (fullscreen : bool) (layer : nat) : Q :=
  1 - inject_Z (Z.of_nat layer) / inject_Z (Z.of_nat (capacity s fullscreen)).

Definition layerProgress (s : t) (fullscreen : bool) (layer : nat) : Q :=
  inject_Z (Z.of_nat layer) / (inject_Z (Z.of_nat (capacity s fullscreen)) - 1).


(** The snapshots of the first [n] ticks of a run, newest first. *)
Fixpoint snapshots `{HostMath} (s : t) (inputs : nat -> tickInput) (n : nat)
    : list (list jsnum) :=
  match n with
  | O => []
  | S n => barSmoothValues (run s inputs (S n)) :: snapshots s inputs n
  end.

(** The particles may grow by one spawn, and only below the cap. *)
Definition particlesStep (s s' : t) : Prop :=
  (particles s' = particles s /\ particlePool s' = particlePool s)
  \/ ((length (particles s) < maxParticles s)%nat
      /\ exists p, particles s' = particles s ++ [p]).

(** A page that is in fullscreen mode for its first 15 ticks and in the
    normal mode from then on, with a silent analyser. *)
Definition fullscreenThenNormal (k : nat) : tickInput :=
  {| dataArray := replicate 128 0%Z;
     currentTime := 16 * Z.of_nat k;
     fullscreen := (k <? 15)%nat;
     random := fun _ => (1 # 2, 1 # 2, 1 # 2) |}.

(** A page that stays in the normal mode, with a silent analyser. *)
Definition normalMode (k : nat) : tickInput :=
  {| dataArray := replicate 128 0%Z;
     currentTime := 16 * Z.of_nat k;
     fullscreen := false;
     random := fun _ => (1 # 2, 1 # 2, 1 # 2) |}.

(** A started element whose particle list is full. *)
Definition crowded : t :=
  withParticles started
    (replicate 200
       {| x := 400; y := 100; vx := 0; vy := -1; life := 1; decay := 1 # 100;
          size := 3; frequency := 0%nat; color := (255, 20, 147)%Z |})
    [].

(** The smoothed value, the peak and the rolling average of bar [i], when
    all three are finite. *)
Definition levelAt (s : t) (i : nat) (a p r : Q) : Prop :=
  barSmoothValues s !! i = Some (Num a)
  /\ barPeaks s !! i = Some (Num p)
  /\ rollingAverages s !! i = Some (Num r).

(** The configuration the constructor and [initAudio] fix, with the shape
    of the bar arrays. *)
Definition configured (s : t) : Prop :=
  barCount s = 48%nat /\ smoothingFactor s = 3 # 10
  /\ length (barSmoothValues s) = 48%nat
  /\ length (barPeaks s) = 48%nat
  /\ length (barPeakTimes s) = 48%nat
  /\ length (rollingAverages s) = 48%nat
  /\ (isRunning s = true -> initialised s = true)
  /\ (initialised s = true -> bufferLength s = frequencyBinCount).

(** Every bar is finite, with 0 <= smoothed <= peak <= 100 and a rolling
    average in [0, 100]. *)
Definition levelsInRange (s : t) : Prop :=
  forall i, (i < 48)%nat ->
    exists a p r, levelAt s i a p r
      /\ 0 <= a /\ a <= p /\ p <= 100 /\ 0 <= r <= 100.

Definition energiesInRange (s : t) : Prop :=
  within 0 100 (musicEnergy s) /\ within 0 100 (bassEnergy s)
  /\ within 0 100 (midEnergy s) /\ within 0 100 (trebleEnergy s).


(** A snapshot of the bars: 48 finite values in [0, 100]; the history
    holds at most as many as the larger of the two capacities. *)
Definition snapshotInRange (spectrum : list jsnum) : Prop :=
  length spectrum = 48%nat /\ Forall (within 0 100) spectrum.

Definition historyInRange (s : t) : Prop :=
  maxHistoryLayers s = 10%nat /\ fullscreenHistoryLayers s = 15%nat
  /\ (length (spectrumHistory s) <= 15)%nat
  /\ Forall snapshotInRange (spectrumHistory s).

Definition invariant (s : t) : Prop :=
  configured s /\ levelsInRange s /\ energiesInRange s /\ historyInRange s.


(** *** Drawing the particles (lines 752-770) *)

(** One [arc] with the alpha and the shadow blur in force. *)
Record arc := {
  centerX : Q; centerY : Q; radius : Q;
  globalAlpha : Q; shadowBlur : Q; fillStyle : Z * Z * Z
}.

Definition drawParticles (s : t) : list arc :=
  map (fun particle =>
         let alpha := life particle in
         let size := size particle * life particle in
         {| centerX := x particle; centerY := y particle; radius := size;
            globalAlpha := alpha; shadowBlur := size * 2;
            fillStyle := color particle |})
      (particles s).

(** An [rgb(r, g, b)] colour with its components in 0..255. *)
Definition colorInRange (c : Z * Z * Z) : Prop :=
  (0 <= c.1.1 <= 255)%Z /\ (0 <= c.1.2 <= 255)%Z /\ (0 <= c.2 <= 255)%Z.

(** A particle that can be drawn: alive, with a size a spawn gives. *)
Definition properParticle (p : particle) : Prop :=
  0 < life p /\ 2 <= size p <= 5 /\ colorInRange (color p).

(** An arc the canvas accepts: a positive radius (a negative one makes
    [arc] throw), a positive alpha and blur, a proper colour. *)
Definition properArc (a : arc) : Prop :=
  0 < radius a /\ 0 < globalAlpha a /\ 0 < shadowBlur a
  /\ colorInRange (fillStyle a).

(** The particle objects the element holds on to: alive or pooled. *)
Definition retained (s : t) : nat :=
  (length (particles s) + length (particlePool s))%nat.

(** The geometry [setupCanvas] leaves in the element. *)
Definition canvasOf (s : t) : Q * Q * Q * Q * Q :=
  (canvasWidth s, canvasHeight s, baseBarSpacing s, baseBarWidth s, marginWidth s).

(** [k] updates of one particle. *)
Definition age (k : nat) (p : particle) : particle := Nat.iter k moveParticle p.

(** The loop of [updateParticles] as it is written (lines 736-749): the
    index runs from the last particle down to the first over the array
    being spliced.  [i] is the number of indices still to visit.  An index
    outside the array would make [particle.x] throw; a splice removes the
    index just visited, so the indices below it stay inside. *)
Fixpoint updateParticlesFrom (i : nat) (ps pool : list particle)
    : list particle * list particle :=
  match i with
  | O => (ps, pool)
  | S i =>
      match ps !! i with
      | None => updateParticlesFrom i ps pool
      | Some particle =>
          let particle := moveParticle particle in
          if Qle_bool (life particle) 0
          then (* splice(i, 1) and push onto the pool *)
               updateParticlesFrom i (delete i ps) (pool ++ [particle])
          else updateParticlesFrom i (<[i := particle]> ps) pool
      end
  end.

Definition updateParticlesLoop (s : t) : t :=
  let '(ps, pool) :=
    updateParticlesFrom (length (particles s)) (particles s) (particlePool s) in
  withParticles s ps pool.


(** The loop invariant of the bars. *)
Definition tracking (s0 s : t) : Prop :=
  configured s /\ initialised s = true
  /\ (maxHistoryLayers s = maxHistoryLayers s0
      /\ fullscreenHistoryLayers s = fullscreenHistoryLayers s0
      /\ spectrumHistory s = spectrumHistory s0)
  /\ levelsInRange s.

(** The body of the loop, as [updateParticles] folds it. *)
Definition sweep (p : particle) (acc : list particle * list particle)
    : list particle * list particle :=
  let '(alive, pool) := acc in
  let p' := moveParticle p in
  if Qle_bool (life p') 0 then (alive, pool ++ [p']) else (p' :: alive, pool).

Definition stillAlive (p : particle) : bool := negb (Qle_bool (life p) 0).

Definition hasDied (p : particle) : bool := Qle_bool (life p) 0.

End DocsVisualizer.

(** ** AudioVisualizer with the noise profile (src/unnamed/part_000)

    Of this variant the level curve and the persistence of the noise
    profile are modelled, with the two fields they read and write. *)

(** [JSON.stringify] and [JSON.parse] of the host, on the objects
    [saveNoiseProfile] writes.  [Json] is the stored text; [JSON_parse]
    gives [None] where the host throws or the text is no profile. *)
Record noiseProfileRecord := {
  timestamp : Z;
  noiseProfile : list Q
}.

Class HostJSON := {
  Json : Type;
  JSON_stringify : noiseProfileRecord -> Json;
  JSON_parse : Json -> option noiseProfileRecord;
  JSON_roundtrip : forall p, JSON_parse (JSON_stringify p) = Some p
}.

(** The plainest host: the stored text is the object itself. *)
Definition plainJSON : HostJSON :=
  {| Json := noiseProfileRecord; JSON_stringify := fun p => p;
     JSON_parse := Some; JSON_roundtrip := fun p => eq_refl |}.

Module NoiseVisualizer.

Record t := {
  backgroundNoise : option (list Q);     (* [None] is null *)
  noiseMargin : Q
}.

Definition storageKey : string := "neonVisualizerNoiseProfile".

(** Seven days in milliseconds. *)
Definition maxAge : Z := 7 * 24 * 60 * 60 * 1000.

(** Lines 220-225; [noiseLevel] defaults to 0 at the call. *)
Definition processAudioLevel (s : t) (rawLevel noiseLevel : jsnum) : jsnum :=
  let cleanedLevel :=
    jmax (Num 0) (jsub (jsub rawLevel noiseLevel) (Num (noiseMargin s))) in
  let barHeight := jmul (jdiv_count cleanedLevel 255) (Num 100) in
  jmax (Num 1) (jmin (Num 100) barHeight).

(** [localStorage]: a map from keys to stored texts. *)
Abbreviation localStorage := (gmap string Json).

Section Persistence.
Context `{HostJSON}.


(** Lines 323-333.  [now] is [Date.now()]; [writable] is false when
    [setItem] throws.  [Array.from(null)] throws as well; both are
    caught and leave the storage as it was. *)
Definition saveNoiseProfile (s : t) (now : Z) (writable : bool)
    (store : localStorage) : localStorage :=
  match backgroundNoise s with
  | None => store
  | Some noise =>
      let profile := {| timestamp := now; noiseProfile := noise |} in
      if writable then <[storageKey := JSON_stringify profile]> store
      else store
  end.

(** Lines 335-352.  [readable] is false when [getItem] throws. *)
Definition loadStoredNoiseProfile (s : t) (now : Z) (readable : bool)
    (store : localStorage) : t * bool :=
  let discard := ({| backgroundNoise := None; noiseMargin := noiseMargin s |}, false) in
  if readable then
    match store !! storageKey with
    | None => discard
    | Some stored =>
        match JSON_parse stored with
        | None => discard
        | Some profile =>
            let age := (now - timestamp profile)%Z in
            if (age <? maxAge)%Z
            then ({| backgroundNoise := Some (noiseProfile profile);
                     noiseMargin := noiseMargin s |}, true)
            else discard
        end
    end
  else discard.

(** Lines 354-361. *)
Definition clearStoredNoiseProfile (s : t) (writable : bool)
    (store : localStorage) : t * localStorage :=
  if writable
  then ({| backgroundNoise := None; noiseMargin := noiseMargin s |},
        delete storageKey store)
  else (s, store).

End Persistence.

End NoiseVisualizer.

(** ** The noise calibration (src/unnamed/part_000, lines 227-321) *)

Module Calibration.

(** The calibration state of the element; its bar arrays are those of
    [AudioVisualizer] and no function below reads or writes them. *)
Record t := {
  initialised : bool;                      (* audioContext and analyser are set *)
  bufferLength : Z;
  isRunning : bool;
  backgroundNoise : option (list jsnum);   (* [None] is null *)
  noiseCalibrationCount : Z;
  noiseMargin : Q;
  manualCalibrationActive : bool;
  calibrationSamples : list (list Z)
}.

Definition withNoise (s : t) (noise : option (list jsnum)) : t :=
  {| initialised := initialised s; bufferLength := bufferLength s;
     isRunning := isRunning s; backgroundNoise := noise;
     noiseCalibrationCount := noiseCalibrationCount s;
     noiseMargin := noiseMargin s;
     manualCalibrationActive := manualCalibrationActive s;
     calibrationSamples := calibrationSamples s |}.

(** Lines 229-233 and 299-303: a fresh array of zeros when there is no
    profile, [fill(0)] on the array there is otherwise. *)
Definition clearedNoise (s : t) : list jsnum :=
  match backgroundNoise s with
  | None => zeros (Z.to_nat (bufferLength s))
  | Some noise => fill0 noise
  end.

(** [arr[Math.min(i, arr.length - 1)]]. *)
Definition sampleAt (dataArray : list Z) (i : nat) : jsnum :=
  byteAt dataArray (Z.min (Z.of_nat i) (Z.of_nat (length dataArray) - 1)).

(** [Math.floor(n * 0.6)] as a loop bound. *)
Definition usableRangeOf (n : Z) : nat := Z.to_nat (Math_floor (inject_Z n * (6 # 10))).

(** [for (i = usableRange; i < noise.length; i++) noise[i] = 0]. *)
Definition zeroFrom (usableRange : nat) (noise : list jsnum) : list jsnum :=
  fold_left (fun noise i => js_set i (Num 0) noise)
            (seq usableRange (length noise - usableRange)) noise.

(** Lines 227-234; the first step is scheduled half a second later. *)
Definition calibrateNoise (s : t) : t :=
  {| initialised := initialised s; bufferLength := bufferLength s;
     isRunning := isRunning s; backgroundNoise := Some (clearedNoise s);
     noiseCalibrationCount := 0;
     noiseMargin := noiseMargin s;
     manualCalibrationActive := manualCalibrationActive s;
     calibrationSamples := calibrationSamples s |}.

(** Lines 235-253: one scheduled step on the bytes of the analyser.  With
    the profile cleared to null in between, [this.backgroundNoise.length]
    throws and the callback ends before it writes anything. *)
Definition calibrateStep (s : t) (dataArray : list Z) : t :=
  if (noiseCalibrationCount s <? 30)%Z && isRunning s
  then
    match backgroundNoise s with
    | None => s
    | Some noise =>
        let usableRange := usableRangeOf (Z.of_nat (length noise)) in
        let noise :=
          fold_left
            (fun noise i =>
               js_set i (jmax (js_get noise i)
                              (jmul (sampleAt dataArray i) (Num (8 # 10)))) noise)
            (seq 0 usableRange) noise in
        let noise := zeroFrom usableRange noise in
        {| initialised := initialised s; bufferLength := bufferLength s;
           isRunning := isRunning s; backgroundNoise := Some noise;
           noiseCalibrationCount := noiseCalibrationCount s + 1;
           noiseMargin := noiseMargin s;
           manualCalibrationActive := manualCalibrationActive s;
           calibrationSamples := calibrationSamples s |}
    end
  else s.

(** Lines 308-313: the largest value of a bin over the samples. *)
Definition maxValueOf (samples : list (list Z)) (freqBin : nat) : jsnum :=
  fold_left (fun maxValue sample => jmax maxValue (sampleAt sample freqBin))
            samples (Num 0).

(** Lines 298-321. *)
Definition processCalibrationSamples (s : t) : t :=
  let noise := clearedNoise s in
  let usableRange := usableRangeOf (bufferLength s) in
  let noise :=
    fold_left
      (fun noise freqBin =>
         js_set freqBin
           (jmul (maxValueOf (calibrationSamples s) freqBin) (Num (9 # 10))) noise)
      (seq 0 usableRange) noise in
  withNoise s (Some (zeroFrom usableRange noise)).

(** [initAudio] when the microphone is granted (lines 47-73). *)
Definition initAudio (s : t) : t :=
  let s' :=
    {| initialised := true; bufferLength := 128;
       isRunning := isRunning s; backgroundNoise := backgroundNoise s;
       noiseCalibrationCount := noiseCalibrationCount s;
       noiseMargin := noiseMargin s;
       manualCalibrationActive := manualCalibrationActive s;
       calibrationSamples := calibrationSamples s |} in
  match backgroundNoise s with
  | None => withNoise s' (Some (zeros 128))
  | Some _ => s'
  end.

(** Lines 96-105, on the calibration state. *)
Definition stop (s : t) : t :=
  {| initialised := initialised s; bufferLength := bufferLength s;
     isRunning := false; backgroundNoise := backgroundNoise s;
     noiseCalibrationCount := noiseCalibrationCount s;
     noiseMargin := noiseMargin s;
     manualCalibrationActive := manualCalibrationActive s;
     calibrationSamples := calibrationSamples s |}.

(** [val === 0] on every entry. *)
Definition isZero (x : jsnum) : bool :=
  match x with Num q => Qeq_bool q 0 | NaN => false end.

(** The numbers of a profile without NaN. *)
Fixpoint finiteProfile (noise : list jsnum) : option (list Q) :=
  match noise with
  | [] => Some []
  | Num q :: rest => option_map (cons q) (finiteProfile rest)
  | NaN :: _ => None
  end.

(** The profile as [saveNoiseProfile] hands it to the storage.  [None]
    when an entry is NaN: JSON writes it as null, and the storage model
    holds numbers only. *)
Definition persisted (s : t) : option NoiseVisualizer.t :=
  match backgroundNoise s with
  | None => Some {| NoiseVisualizer.backgroundNoise := None;
                    NoiseVisualizer.noiseMargin := noiseMargin s |}
  | Some noise =>
      option_map
        (fun numbers => {| NoiseVisualizer.backgroundNoise := Some numbers;
                           NoiseVisualizer.noiseMargin := noiseMargin s |})
        (finiteProfile noise)
  end.

Section Storage.
Context `{HostJSON}.

Definition saveNoiseProfile (s : t) (now : Z) (writable : bool)
    (store : NoiseVisualizer.localStorage) : option NoiseVisualizer.localStorage :=
  option_map (fun p => NoiseVisualizer.saveNoiseProfile p now writable store)
             (persisted s).

(** The constructor (lines 2-24): it ends with [loadStoredNoiseProfile]. *)
Definition new (now : Z) (readable : bool) (store : NoiseVisualizer.localStorage) : t :=
  let loaded :=
    fst (NoiseVisualizer.loadStoredNoiseProfile
           {| NoiseVisualizer.backgroundNoise := None;
              NoiseVisualizer.noiseMargin := 5 |} now readable store) in
  {| initialised := false; bufferLength := 0; isRunning := false;
     backgroundNoise := option_map (map Num) (NoiseVisualizer.backgroundNoise loaded);
     noiseCalibrationCount := 0; noiseMargin := 5;
     manualCalibrationActive := false; calibrationSamples := [] |}.

(** Lines 276-287.  The closing [if (!this.isRunning) this.stop()] finds
    [isRunning] false already and touches the bars only. *)
Definition stopManualCalibration (s : t) (now : Z) (writable : bool)
    (store : NoiseVisualizer.localStorage)
    : option (t * NoiseVisualizer.localStorage) :=
  let s :=
    {| initialised := initialised s; bufferLength := bufferLength s;
       isRunning := isRunning s; backgroundNoise := backgroundNoise s;
       noiseCalibrationCount := noiseCalibrationCount s;
       noiseMargin := noiseMargin s;
       manualCalibrationActive := false;
       calibrationSamples := calibrationSamples s |} in
  if (0 <? length (calibrationSamples s))%nat
  then
    let s := processCalibrationSamples s in
    option_map (fun store => (s, store)) (saveNoiseProfile s now writable store)
  else Some (s, store).

(** Lines 289-296; [dataArray] is what the analyser delivered. *)
Definition recordCalibrationSample (s : t) (dataArray : list Z) (now : Z)
    (writable : bool) (store : NoiseVisualizer.localStorage)
    : option (t * NoiseVisualizer.localStorage) :=
  let s :=
    {| initialised := initialised s; bufferLength := bufferLength s;
       isRunning := isRunning s; backgroundNoise := backgroundNoise s;
       noiseCalibrationCount := noiseCalibrationCount s;
       noiseMargin := noiseMargin s;
       manualCalibrationActive := manualCalibrationActive s;
       calibrationSamples := calibrationSamples s ++ [dataArray] |} in
  if (100 <=? length (calibrationSamples s))%nat
  then stopManualCalibration s now writable store
  else Some (s, store).

(** Lines 111-120: what a refresh tick does to the calibration state; the
    bar loop that follows writes the bar arrays only. *)
Definition animate (s : t) (dataArray : list Z) (now : Z) (writable : bool)
    (store : NoiseVisualizer.localStorage)
    : option (t * NoiseVisualizer.localStorage) :=
  if negb (isRunning s) then Some (s, store)
  else if manualCalibrationActive s
       then recordCalibrationSample s dataArray now writable store
       else Some (s, store).

(** Lines 258-274, when the microphone is granted: the session starts
    empty and the first tick records at once. *)
Definition startManualCalibration (s : t) (dataArray : list Z) (now : Z)
    (writable : bool) (store : NoiseVisualizer.localStorage)
    : option (t * NoiseVisualizer.localStorage) :=
  let s := if initialised s then s else initAudio s in
  let s :=
    {| initialised := initialised s; bufferLength := bufferLength s;
       isRunning := true; backgroundNoise := backgroundNoise s;
       noiseCalibrationCount := noiseCalibrationCount s;
       noiseMargin := noiseMargin s;
       manualCalibrationActive := true;
       calibrationSamples := [] |} in
  animate s dataArray now writable store.

(** Lines 80-94: [start] throws when the audio is not initialised; it
    calibrates when there is no profile or the profile is all zeros, and
    runs the first tick. *)
Definition start (s : t) (dataArray : list Z) (now : Z) (writable : bool)
    (store : NoiseVisualizer.localStorage)
    : option (t * NoiseVisualizer.localStorage) :=
  if initialised s
  then
    let s :=
      {| initialised := initialised s; bufferLength := bufferLength s;
         isRunning := true; backgroundNoise := backgroundNoise s;
         noiseCalibrationCount := noiseCalibrationCount s;
         noiseMargin := noiseMargin s;
         manualCalibrationActive := manualCalibrationActive s;
         calibrationSamples := calibrationSamples s |} in
    let s :=
      match backgroundNoise s with
      | None => calibrateNoise s
      | Some noise => if forallb isZero noise then calibrateNoise s else s
      end in
    animate s dataArray now writable store
  else None.

(** Lines 354-361, on the profile in memory, when [removeItem] does not
    throw. *)
Definition clearStoredNoiseProfile (s : t) : t := withNoise s None.

(** The states the element goes through. *)
Inductive reachable : t -> Prop :=
| reach_new now readable store : reachable (new now readable store)
| reach_initAudio s : reachable s -> reachable (initAudio s)
| reach_start s dataArray now writable store s' store' :
    reachable s ->
    start s dataArray now writable store = Some (s', store') -> reachable s'
| reach_animate s dataArray now writable store s' store' :
    reachable s ->
    animate s dataArray now writable store = Some (s', store') -> reachable s'
| reach_calibrateStep s dataArray :
    reachable s -> reachable (calibrateStep s dataArray)
| reach_startManualCalibration s dataArray now writable store s' store' :
    reachable s ->
    startManualCalibration s dataArray now writable store = Some (s', store') ->
    reachable s'
| reach_stopManualCalibration s now writable store s' store' :
    reachable s ->
    stopManualCalibration s now writable store = Some (s', store') -> reachable s'
| reach_clearStoredNoiseProfile s :
    reachable s -> reachable (clearStoredNoiseProfile s)
| reach_stop s : reachable s -> reachable (stop s).

End Storage.

(** The profile a calibration computes from its frames: [factor] times
    the largest byte of the bin over the frames, inside the usable range
    of 76 bins, and 0 beyond it. *)
Definition maxByteOf (frames : list (list Z)) (i : nat) : Z :=
  fold_left (fun m frame => Z.max m (default 0%Z (frame !! i))) frames 0%Z.

Definition scaledMaximum (factor : Q) (frames : list (list Z)) (i : nat) : Q :=
  if (i <? 76)%nat then inject_Z (maxByteOf frames i) * factor else 0.

Definition profileIs (factor : Q) (frames : list (list Z)) (noise : list jsnum)
    : Prop :=
  length noise = 128%nat
  /\ forall i, (i < 128)%nat ->
       exists x, noise !! i = Some x /\ isNum x (scaledMaximum factor frames i).

(** The profile has the size of the analyser's arrays, or is absent. *)
Definition fitsAnalyser (s : t) : Prop :=
  bufferLength s = 128%Z
  /\ match backgroundNoise s with
     | None => True
     | Some noise => length noise = 128%nat
     end.

(** The bounds of the two recordings. *)
Definition recordingBounded (s : t) : Prop :=
  (length (calibrationSamples s) <= 100)%nat
  /\ (manualCalibrationActive s = true -> (length (calibrationSamples s) < 100)%nat)
  /\ (0 <= noiseCalibrationCount s <= 30)%Z.

End Calibration.


(** ** The page with the start button (src/app.js) *)

Module StartStopApp.

(** The page: its own flag, the two elements and the look of the button
    (active with the label STOP AUDIO, or not with START AUDIO).  The
    status line and the permission flag kept in the storage are left out:
    no function below reads them back into the run state. *)
Record t := {
  isRunning : bool;
  visualizer : AudioVisualizer.t;
  channelMeters : ChannelMeters.t;
  startBtnActive : bool
}.

Definition new : t :=
  {| isRunning := false; visualizer := AudioVisualizer.new;
     channelMeters := ChannelMeters.new; startBtnActive := false |}.

(** How a request for the microphone ends: granted, with what the
    analysers deliver to the first tick of each element, or refused. *)
Inductive microphone :=
| Granted (dataArray : list Z) (currentTime : Z) (leftData rightData : list Z)
| Refused.

Section Events.
Context `{HostMath}.

(** Lines 37-73; a refusal ends in [handleError], which resets the
    button and leaves [isRunning] as it was. *)
Definition startVisualizer (p : t) (answer : microphone) : t :=
  match answer with
  | Refused =>
      {| isRunning := isRunning p; visualizer := visualizer p;
         channelMeters := channelMeters p; startBtnActive := false |}
  | Granted dataArray currentTime leftData rightData =>
      let v := AudioVisualizer.initAudio (visualizer p) in
      match AudioVisualizer.start v dataArray currentTime with
      | Some v' =>
          {| isRunning := true; visualizer := v';
             channelMeters :=
               snd (ChannelMeters.start (channelMeters p) leftData rightData);
             startBtnActive := true |}
      | None =>
          {| isRunning := isRunning p; visualizer := v;
             channelMeters := channelMeters p; startBtnActive := false |}
      end
  end.

(** Lines 75-84. *)
Definition stopVisualizer (p : t) : t :=
  {| isRunning := false; visualizer := AudioVisualizer.stop (visualizer p);
     channelMeters := ChannelMeters.stop (channelMeters p);
     startBtnActive := false |}.

(** Lines 87-93. *)
Definition pauseVisualizer (p : t) : t :=
  if isRunning p
  then {| isRunning := isRunning p;
          visualizer := AudioVisualizer.stop (visualizer p);
          channelMeters := ChannelMeters.stop (channelMeters p);
          startBtnActive := startBtnActive p |}
  else p.

(** Lines 29-35: a click on the button. *)
Definition toggleVisualizer (p : t) (answer : microphone) : t :=
  if negb (isRunning p) then startVisualizer p answer else stopVisualizer p.

(** Lines 16-20: the tab is hidden or shown. *)
Definition visibilitychange (p : t) (hidden : bool) : t :=
  if hidden && isRunning p then pauseVisualizer p else p.

(** Lines 22-26, and the revoked permission of lines 125-133. *)
Definition beforeunload (p : t) : t :=
  if isRunning p then stopVisualizer p else p.

(** The refresh ticks of the two elements and the calibration steps of
    the meters, which the browser schedules. *)
Definition tickVisualizer (p : t) (dataArray : list Z) (currentTime : Z) : t :=
  {| isRunning := isRunning p;
     visualizer := AudioVisualizer.animate (visualizer p) dataArray currentTime;
     channelMeters := channelMeters p; startBtnActive := startBtnActive p |}.

Definition tickMeters (p : t) (leftData rightData : list Z) : t :=
  {| isRunning := isRunning p; visualizer := visualizer p;
     channelMeters := snd (ChannelMeters.animate (channelMeters p) leftData rightData);
     startBtnActive := startBtnActive p |}.

Definition calibrateMeters (p : t) (leftData rightData : list Z) : t :=
  match ChannelMeters.calibrate (channelMeters p) leftData rightData with
  | Some m => {| isRunning := isRunning p; visualizer := visualizer p;
                 channelMeters := m; startBtnActive := startBtnActive p |}
  | None => p
  end.

(** What the analysers deliver. *)
Definition bytes (answer : microphone) : Prop :=
  match answer with
  | Refused => True
  | Granted dataArray _ leftData rightData =>
      isByteArray 128 dataArray /\ isByteArray 128 leftData
      /\ isByteArray 128 rightData
  end.

(** The states of the page. *)
Inductive reachable : t -> Prop :=
| reach_new : reachable new
| reach_toggleVisualizer p answer :
    reachable p -> bytes answer -> reachable (toggleVisualizer p answer)
| reach_startVisualizer p answer :
    reachable p -> bytes answer -> reachable (startVisualizer p answer)
| reach_visibilitychange p hidden :
    reachable p -> reachable (visibilitychange p hidden)
| reach_beforeunload p : reachable p -> reachable (beforeunload p)
| reach_tickVisualizer p dataArray currentTime :
    reachable p -> isByteArray 128 dataArray ->
    reachable (tickVisualizer p dataArray currentTime)
| reach_tickMeters p leftData rightData :
    reachable p -> isByteArray 128 leftData -> isByteArray 128 rightData ->
    reachable (tickMeters p leftData rightData)
| reach_calibrateMeters p leftData rightData :
    reachable p -> isByteArray 128 leftData -> isByteArray 128 rightData ->
    reachable (calibrateMeters p leftData rightData).

(** The two elements run together, only while the page says so, and each
    is in a state its own element can reach. *)
Definition inStep (p : t) : Prop :=
  AudioVisualizer.isRunning (visualizer p) = ChannelMeters.isRunning (channelMeters p)
  /\ (AudioVisualizer.isRunning (visualizer p) = true -> isRunning p = true)
  /\ AudioVisualizer.reachable (visualizer p)
  /\ ChannelMeters.reachable (channelMeters p).

(** Nothing is being drawn. *)
Definition idle (p : t) : Prop :=
  AudioVisualizer.isRunning (visualizer p) = false
  /\ ChannelMeters.isRunning (channelMeters p) = false.

End Events.

End StartStopApp.


(** ** The page and its background (src/docs/app.js, lines 1-337) *)

Module MusicVisualizerApp.

Record musicData := {
  musicEnergy : Q; bassEnergy : Q; midEnergy : Q; trebleEnergy : Q
}.

(** [x || 0] on a number: NaN and 0 both give 0. *)
Definition orZero (x : jsnum) : Q :=
  match x with Num q => q | NaN => 0 end.

(** Lines 174-184; the visualizer element is always there. *)
Definition getVisualizerData (visualizer : DocsVisualizer.t) : musicData :=
  if DocsVisualizer.isRunning visualizer
  then {| musicEnergy := orZero (DocsVisualizer.musicEnergy visualizer);
          bassEnergy := orZero (DocsVisualizer.bassEnergy visualizer);
          midEnergy := orZero (DocsVisualizer.midEnergy visualizer);
          trebleEnergy := orZero (DocsVisualizer.trebleEnergy visualizer) |}
  else {| musicEnergy := 0; bassEnergy := 0; midEnergy := 0; trebleEnergy := 0 |}.

End MusicVisualizerApp.

Module PsychedelicBackground.
Import MusicVisualizerApp.

(** What [render], [drawSymmetricLayer] and [drawMandalaPattern] derive
    from the energies before any trigonometry (lines 207, 210, 227-234,
    268-272). *)
Record settings := {
  timeStep : Q;
  globalAlpha : Q;
  symmetryPoints : Z;
  layerLineWidth : Q;
  petals : Z;
  mandalaLineWidth : Q
}.

Definition render (musicData : musicData) : settings :=
  {| timeStep := (1 # 100) + musicEnergy musicData / 5000;
     globalAlpha := (5 # 100) + musicEnergy musicData / 2000;
     symmetryPoints := 8 + Math_floor (bassEnergy musicData / 10);
     layerLineWidth := (5 # 10) + musicEnergy musicData / 100;
     petals := 6 + Math_floor (bassEnergy musicData / 15);
     mandalaLineWidth := (3 # 10) + musicEnergy musicData / 200 |}.

(** What a well-formed frame of the background needs. *)
Definition wellFormed (r : settings) : Prop :=
  1 # 100 <= timeStep r <= 3 # 100
  /\ 5 # 100 <= globalAlpha r <= 1 # 10
  /\ (8 <= symmetryPoints r <= 18)%Z
  /\ 5 # 10 <= layerLineWidth r <= 15 # 10
  /\ (6 <= petals r <= 12)%Z
  /\ 3 # 10 <= mandalaLineWidth r <= 8 # 10.

End PsychedelicBackground.


(** ** The remembered permission (src/app.js, lines 111-154) *)

Module Permission.

(** [localStorage] as the page uses it here: texts under keys. *)
Abbreviation localStorage := (gmap string string).

Definition storageKey : string := "microphonePermissionGranted".

(** [granted.toString()]. *)
Definition toString (granted : bool) : string :=
  if granted then "true" else "false".

(** Lines 139-145; [writable] is false when [setItem] throws. *)
Definition setPermissionGranted (granted writable : bool) (store : localStorage)
    : localStorage :=
  if writable then <[storageKey := toString granted]> store else store.

(** Lines 147-154; [readable] is false when [getItem] throws. *)
Definition getPermissionGranted (readable : bool) (store : localStorage) : bool :=
  if readable
  then match store !! storageKey with
       | Some stored => String.eqb stored "true"
       | None => false
       end
  else false.

(** What [navigator.permissions.query] answers; [None] when it throws. *)
Inductive permissionState := granted | denied | prompt.

(** Lines 111-123: whether the page schedules [startVisualizer] by itself
    when it loads, and the storage it leaves. *)
Definition checkAutoStart (readable writable : bool) (state : option permissionState)
    (store : localStorage) : bool * localStorage :=
  let hasPermission := getPermissionGranted readable store in
  if negb hasPermission then (false, store)
  else match state with
       | None => (false, store)
       | Some granted => (true, store)
       | Some _ => (false, setPermissionGranted false writable store)
       end.

(** Lines 37-73: what a start leaves in the storage. *)
Definition afterStart (succeeded writable : bool) (store : localStorage)
    : localStorage :=
  setPermissionGranted succeeded writable store.

End Permission.


(** ** The published page (src/docs/app.js, lines 1-116) *)

Module PublishedApp.

(** The page: its own flag and the visualizer.  The channel meters of
    the published build are another file; the page only starts and stops
    them, and [metersRunning] is the flag those calls set. *)
Record t := {
  isRunning : bool;
  visualizer : DocsVisualizer.t;
  metersRunning : bool
}.

Definition new : t :=
  {| isRunning := false; visualizer := DocsVisualizer.new; metersRunning := false |}.

(** What the first tick of a started visualizer takes. *)
Definition firstTick := DocsVisualizer.tickInput.

(** How a start ends: the microphone is granted and the meters are
    wired, the meters fail after the microphone was granted, or the
    microphone is refused. *)
Inductive outcome :=
| Granted (input : firstTick)
| MetersFailed
| Refused.

Section Events.
Context `{HostMath}.

(** [visualizer.start()], which throws when the audio is not there. *)
Definition startElement (v : DocsVisualizer.t) (input : firstTick)
    : option DocsVisualizer.t :=
  DocsVisualizer.start v (DocsVisualizer.dataArray input)
    (DocsVisualizer.currentTime input) (DocsVisualizer.fullscreen input)
    (DocsVisualizer.random input).

(** Lines 53-82; every failure ends in [handleError], which writes the
    status line only. *)
Definition startVisualizer (p : t) (answer : outcome) : t :=
  match answer with
  | Refused => p
  | MetersFailed =>
      {| isRunning := isRunning p;
         visualizer := DocsVisualizer.initAudio (visualizer p);
         metersRunning := metersRunning p |}
  | Granted input =>
      let v := DocsVisualizer.initAudio (visualizer p) in
      match startElement v input with
      | Some v' => {| isRunning := true; visualizer := v'; metersRunning := true |}
      | None => {| isRunning := isRunning p; visualizer := v;
                   metersRunning := metersRunning p |}
      end
  end.

(** Lines 84-90. *)
Definition stopVisualizer (p : t) : t :=
  {| isRunning := false; visualizer := DocsVisualizer.stop (visualizer p);
     metersRunning := false |}.

(** Lines 102-108. *)
Definition pauseVisualizer (p : t) : t :=
  if isRunning p
  then {| isRunning := isRunning p;
          visualizer := DocsVisualizer.stop (visualizer p);
          metersRunning := false |}
  else p.

(** Lines 110-116; when [visualizer.start()] throws, the meters are not
    started. *)
Definition resumeVisualizer (p : t) (input : firstTick) : t :=
  if isRunning p
  then match startElement (visualizer p) input with
       | Some v' => {| isRunning := isRunning p; visualizer := v';
                       metersRunning := true |}
       | None => p
       end
  else p.

(** Lines 15-19: the first click. *)
Definition click (p : t) (answer : outcome) : t :=
  if negb (isRunning p) then startVisualizer p answer else p.

(** Lines 29-35: the tab is hidden or shown; [input] is what the first
    tick of a resumed visualizer takes. *)
Definition visibilitychange (p : t) (hidden : bool) (input : firstTick) : t :=
  if hidden && isRunning p then pauseVisualizer p
  else if negb hidden && isRunning p then resumeVisualizer p input
  else p.

(** Lines 37-41. *)
Definition beforeunload (p : t) : t :=
  if isRunning p then stopVisualizer p else p.

Definition tick (p : t) (input : firstTick) : t :=
  {| isRunning := isRunning p;
     visualizer := DocsVisualizer.tick (visualizer p) input;
     metersRunning := metersRunning p |}.

Definition bytes (input : firstTick) : Prop :=
  isByteArray 128 (DocsVisualizer.dataArray input).

Definition answered (answer : outcome) : Prop :=
  match answer with Granted input => bytes input | _ => True end.

(** The states of the page. *)
Inductive reachable : t -> Prop :=
| reach_new : reachable new
| reach_setupCanvas p rectWidth rectHeight :
    reachable p ->
    reachable {| isRunning := isRunning p;
                 visualizer :=
                   DocsVisualizer.setupCanvas (visualizer p) rectWidth rectHeight;
                 metersRunning := metersRunning p |}
| reach_startVisualizer p answer :
    reachable p -> answered answer -> reachable (startVisualizer p answer)
| reach_click p answer :
    reachable p -> answered answer -> reachable (click p answer)
| reach_visibilitychange p hidden input :
    reachable p -> bytes input -> reachable (visibilitychange p hidden input)
| reach_beforeunload p : reachable p -> reachable (beforeunload p)
| reach_tick p input : reachable p -> bytes input -> reachable (tick p input).

(** The visualizer and the meters run together, only while the page says
    so; a running page has its audio; the visualizer is in a state the
    element reaches by itself. *)
Definition inStep (p : t) : Prop :=
  DocsVisualizer.isRunning (visualizer p) = metersRunning p
  /\ (metersRunning p = true -> isRunning p = true)
  /\ (isRunning p = true -> DocsVisualizer.initialised (visualizer p) = true)
  /\ DocsVisualizer.reachable (visualizer p).

End Events.

End PublishedApp.


(** * Properties *)

(** ** Comparisons *)

Lemma Qgtb_true (a b : Q) : Qgtb a b = true <-> b < a.
Proof.
  unfold Qgtb. rewrite negb_true_iff, <- not_true_iff_false, Qle_bool_iff.
  split; [apply Qnot_le_lt | apply Qlt_not_le].
Qed.

Lemma Qgtb_false (a b : Q) : Qgtb a b = false <-> a <= b.
Proof.
  unfold Qgtb. rewrite negb_false_iff. apply Qle_bool_iff.
Qed.

Lemma Qltb_true (a b : Q) : Qltb a b = true <-> a < b.
Proof. apply (Qgtb_true b a). Qed.

Lemma Qltb_false (a b : Q) : Qltb a b = false <-> b <= a.
Proof. apply (Qgtb_false b a). Qed.

(** ** The stereo meter *)

Section StereoMeter.
Context `{HostMath}.
Import ChannelMeters.

Lemma calculateFilteredRMS_unfold m dataArray channel :
  calculateFilteredRMS m dataArray channel =
    if (validSamplesOf m dataArray channel <? 3)%Z then (0, m)
    else if Qltb (rmsOf m dataArray channel) (2 # 100) then (0, m)
    else blendWithHistory m channel (percentageOf (rmsOf m dataArray channel)).
Proof.
  unfold calculateFilteredRMS, rmsOf, validSamplesOf.
  destruct (gateLoop _ _ _) as [sum valid]. reflexivity.
Qed.

Lemma calculateFilteredRMS_early m dataArray channel :
  earlyExit m dataArray channel ->
  calculateFilteredRMS m dataArray channel = (0, m).
Proof.
  intros Hexit. rewrite calculateFilteredRMS_unfold.
  destruct (Z.ltb_spec (validSamplesOf m dataArray channel) 3) as [|Hvalid];
    [reflexivity|].
  destruct Hexit as [Hlt | Hrms]; [lia|].
  apply Qltb_true in Hrms. rewrite Hrms. reflexivity.
Qed.

Lemma calculateFilteredRMS_reached m dataArray channel :
  ~ earlyExit m dataArray channel ->
  calculateFilteredRMS m dataArray channel =
    blendWithHistory m channel (percentageOf (rmsOf m dataArray channel)).
Proof.
  intros Hreach. rewrite calculateFilteredRMS_unfold.
  destruct (Z.ltb_spec (validSamplesOf m dataArray channel) 3) as [Hlt|Hvalid].
  - exfalso. apply Hreach. left. exact Hlt.
  - destruct (Qltb _ _) eqn:Hrms; [|reflexivity].
    exfalso. apply Hreach. right. apply Qltb_true. exact Hrms.
Qed.

Lemma snd_blendWithHistory m channel percentage :
  snd (blendWithHistory m channel percentage) =
    setHistory m channel
      (pushHistory (historySize m) (historyOf m channel) percentage).
Proof.
  unfold blendWithHistory.
  destruct (_ <? 2)%nat; [reflexivity|].
  destruct (Qgtb _ _); reflexivity.
Qed.

Lemma pushHistory_snoc size older prev percentage :
  (2 <= size)%nat ->
  exists front,
    pushHistory size (older ++ [prev]) percentage = front ++ [prev; percentage].
Proof.
  intros Hsize. unfold pushHistory.
  destruct (Nat.ltb_spec size (length ((older ++ [prev]) ++ [percentage]))) as [Hlong|Hshort].
  - destruct older as [|o older'].
    + simpl in Hlong. lia.
    + exists older'. simpl. rewrite <- app_assoc. reflexivity.
  - exists older. rewrite <- app_assoc. reflexivity.
Qed.

Lemma slice_last2_snoc front (a b : Q) : slice_last2 (front ++ [a; b]) = [a; b].
Proof.
  unfold slice_last2. rewrite length_app. simpl.
  replace (length front + 2 - 2)%nat with (length front) by lia.
  rewrite drop_app_length. reflexivity.
Qed.

(** The blend the code computes once a previous entry exists. *)
Lemma blendWithHistory_value m channel older prev percentage :
  historyOf m channel = older ++ [prev] ->
  (2 <= historySize m)%nat ->
  let recentAvg := (prev + percentage) / 2 in
  fst (blendWithHistory m channel percentage) =
    Qmax 0 (if Qgtb percentage recentAvg
            then percentage * (4 # 10) + recentAvg * (6 # 10)
            else percentage * (6 # 10) + recentAvg * (4 # 10)).
Proof.
  intros Hhist Hsize recentAvg. unfold blendWithHistory.
  rewrite Hhist.
  destruct (pushHistory_snoc (historySize m) older prev percentage Hsize)
    as [front Hpush].
  rewrite Hpush, slice_last2_snoc.
  replace (length (front ++ [prev; percentage]) <? 2)%nat with false.
  2:{ symmetry. apply Nat.ltb_ge. rewrite length_app. simpl. lia. }
  simpl reduce_add. fold recentAvg.
  destruct (Qgtb percentage recentAvg); reflexivity.
Qed.

Lemma historyOf_setHistory m channel h :
  historyOf (setHistory m channel h) channel = h.
Proof.
  unfold historyOf, setHistory. destruct (is_left channel) eqn:E; simpl; reflexivity.
Qed.

Lemma baselines_setHistory m channel h :
  leftBaseline (setHistory m channel h) = leftBaseline m
  /\ rightBaseline (setHistory m channel h) = rightBaseline m.
Proof.
  unfold setHistory. destruct (is_left channel); simpl; split; reflexivity.
Qed.

(** The blending step of lines 138-157, in general: on a tick that
    reaches it (an earlier entry [prev] is in the channel's history, so
    two entries after the push), [recentAvg] is the mean of [prev] and the new
    percentage itself, since the window is cut after the push; the new
    value weighs 0.4 and [recentAvg] 0.6 when the new value exceeds
    [recentAvg], and 0.6 against 0.4 otherwise. *)
Theorem blend_window_holds_new_value m dataArray channel older prev :
  ~ earlyExit m dataArray channel ->
  historyOf m channel = older ++ [prev] ->
  (2 <= historySize m)%nat ->
  let percentage := percentageOf (rmsOf m dataArray channel) in
  let recentAvg := (prev + percentage) / 2 in
  let result := fst (calculateFilteredRMS m dataArray channel) in
  (recentAvg < percentage ->
     result = Qmax 0 (percentage * (4 # 10) + recentAvg * (6 # 10)))
  /\ (percentage <= recentAvg ->
     result = Qmax 0 (percentage * (6 # 10) + recentAvg * (4 # 10))).
Proof.
  intros Hreach Hhist Hsize percentage recentAvg result.
  assert (Hval : result =
    Qmax 0 (if Qgtb percentage recentAvg
            then percentage * (4 # 10) + recentAvg * (6 # 10)
            else percentage * (6 # 10) + recentAvg * (4 # 10))).
  { unfold result. rewrite calculateFilteredRMS_reached by exact Hreach.
    apply (blendWithHistory_value m channel older prev percentage Hhist Hsize). }
  split; intros Hcmp.
  - apply Qgtb_true in Hcmp. rewrite Hcmp in Hval. exact Hval.
  - apply Qgtb_false in Hcmp. rewrite Hcmp in Hval. exact Hval.
Qed.

(** C10: an early exit (fewer than 3 bins above the gate, or an RMS below
    0.02) returns 0 and leaves the whole meter state as it was; a call
    that gets past both exits stores exactly the pushed-and-trimmed
    history of its channel; and no call changes a baseline. *)
Theorem early_exit_leaves_meter_unchanged m dataArray channel :
  (earlyExit m dataArray channel ->
     calculateFilteredRMS m dataArray channel = (0, m))
  /\ (~ earlyExit m dataArray channel ->
     historyOf (snd (calculateFilteredRMS m dataArray channel)) channel =
       pushHistory (historySize m) (historyOf m channel)
                   (percentageOf (rmsOf m dataArray channel)))
  /\ leftBaseline (snd (calculateFilteredRMS m dataArray channel)) = leftBaseline m
  /\ rightBaseline (snd (calculateFilteredRMS m dataArray channel)) = rightBaseline m.
Proof.
  split; [apply calculateFilteredRMS_early|].
  split.
  - intros Hreach. rewrite calculateFilteredRMS_reached by exact Hreach.
    rewrite snd_blendWithHistory. apply historyOf_setHistory.
  - rewrite calculateFilteredRMS_unfold.
    destruct (_ <? 3)%Z; [split; reflexivity|].
    destruct (Qltb _ _); [split; reflexivity|].
    rewrite snd_blendWithHistory. apply baselines_setHistory.
Qed.

End StereoMeter.

(** C1: the blend of the code against the blend of the specification, at
    the history 50, 50.  A rising 80 is answered with 71 (the window is cut
    after the push and holds 50 and 80; the rising value weighs 0.4) where
    the specification's blend is 68 (window 50, 50; weight 0.6); a falling
    20 is answered with 26 where the specification's blend is 38.  The
    code slows the rise and hastens the fall, the reverse of the meter of
    the published build (src/docs/channel-meters.js, lines 18-19 and
    102-106: factor 0.8 on a rise, 0.1 on a fall). *)
Lemma blend_differs_from_spec :
  let m := ChannelMeters.setHistory ChannelMeters.new "left" [50; 50] in
  fst (ChannelMeters.blendWithHistory m "left" 80) == 71
  /\ ChannelMeters.blend_spec [50; 50] 80 == 68
  /\ ~ fst (ChannelMeters.blendWithHistory m "left" 80)
       == ChannelMeters.blend_spec [50; 50] 80
  /\ fst (ChannelMeters.blendWithHistory m "left" 20) == 26
  /\ ChannelMeters.blend_spec [50; 50] 20 == 38
  /\ ~ fst (ChannelMeters.blendWithHistory m "left" 20)
       == ChannelMeters.blend_spec [50; 50] 20.
Proof.
  intros m.
  split; [reflexivity|]. split; [reflexivity|].
  split; [intros Heq; discriminate Heq|].
  split; [reflexivity|]. split; [reflexivity|].
  intros Heq. discriminate Heq.
Qed.

Lemma blend_window_holds_new_value_witness :
  let m := ChannelMeters.setHistory ChannelMeters.new "left" [50] in
  let data := [120; 90; 70]%Z in
  ~ @ChannelMeters.earlyExit approxMath m data "left"
  /\ ChannelMeters.historyOf m "left" = [] ++ [50]
  /\ (2 <= ChannelMeters.historySize m)%nat
  /\ let percentage :=
       @ChannelMeters.percentageOf approxMath
         (@ChannelMeters.rmsOf approxMath m data "left") in
     let recentAvg := (50 + percentage) / 2 in
     recentAvg < percentage
     /\ fst (@ChannelMeters.calculateFilteredRMS approxMath m data "left")
        = Qmax 0 (percentage * (4 # 10) + recentAvg * (6 # 10)).
Proof.
  intros m data.
  assert (Hreach : ~ @ChannelMeters.earlyExit approxMath m data "left").
  { intros [Hv | Hr]; vm_compute in Hv || vm_compute in Hr; discriminate. }
  assert (Hsize : (2 <= ChannelMeters.historySize m)%nat) by (simpl; lia).
  split; [exact Hreach|]. split; [reflexivity|]. split; [exact Hsize|].
  intros percentage recentAvg.
  assert (Hcmp : recentAvg < percentage) by (vm_compute; reflexivity).
  split; [exact Hcmp|].
  exact (proj1 (@blend_window_holds_new_value approxMath m data "left" [] 50
                  Hreach eq_refl Hsize) Hcmp).
Defined.

Lemma early_exit_leaves_meter_unchanged_witness :
  let m := ChannelMeters.setHistory ChannelMeters.new "right" [40; 60] in
  @ChannelMeters.earlyExit approxMath m [200; 10; 200; 0]%Z "right"
  /\ @ChannelMeters.calculateFilteredRMS approxMath m [200; 10; 200; 0]%Z "right" = (0, m).
Proof.
  intros m.
  assert (Hexit : @ChannelMeters.earlyExit approxMath m [200; 10; 200; 0]%Z "right").
  { left. vm_compute. reflexivity. }
  split; [exact Hexit|].
  exact (proj1 (@early_exit_leaves_meter_unchanged approxMath m [200; 10; 200; 0]%Z "right") Hexit).
Defined.

(** ** Arrays and levels *)

Lemma js_get_Some (l : list jsnum) (i : nat) (x : jsnum) :
  l !! i = Some x -> js_get l i = x.
Proof. unfold js_get. intros ->. reflexivity. Qed.

Lemma js_set_inside (i : nat) (v : jsnum) (l : list jsnum) :
  (i < length l)%nat -> js_set i v l = <[i := v]> l.
Proof.
  unfold js_set. intros Hi. apply Nat.ltb_lt in Hi. rewrite Hi. reflexivity.
Qed.

Lemma byteAt_Some (dataArray : list Z) (i : nat) (b : Z) :
  dataArray !! i = Some b -> byteAt dataArray (Z.of_nat i) = Num (inject_Z b).
Proof.
  unfold byteAt. intros Hb.
  destruct (Z.ltb_spec (Z.of_nat i) 0) as [Hneg|_]; [lia|].
  rewrite Nat2Z.id, Hb. reflexivity.
Qed.

Lemma sumBins_single (dataArray : list Z) (i : nat) (b : Z) :
  dataArray !! i = Some b ->
  sumBins dataArray (Z.of_nat i) (Z.of_nat i + 1) = Num (0 + inject_Z b).
Proof.
  intros Hb. unfold sumBins.
  replace (Z.of_nat i + 1 - Z.of_nat i)%Z with 1%Z by lia.
  rewrite seqZ_cons by lia. rewrite seqZ_nil by lia.
  simpl. rewrite (byteAt_Some _ _ _ Hb). reflexivity.
Qed.

Lemma levelOfByte_range (b : Z) : 1 <= levelOfByte b <= 100.
Proof.
  unfold levelOfByte. split.
  - apply Q.le_max_l.
  - apply Q.max_lub; [discriminate|]. apply Q.le_min_l.
Qed.

Lemma levelOfByte_zero : levelOfByte 0 = 1.
Proof. reflexivity. Qed.

(** ** The bar recurrence *)

Lemma smoothStep_range (a h : Q) :
  0 <= a <= 100 -> 1 <= h <= 100 ->
  0 <= smoothStep (3 # 10) a h <= 100.
Proof. unfold smoothStep. intros Ha Hh. lra. Qed.

Lemma peakStep_bounds (expired : bool) (p smooth : Q) :
  0 <= p ->
  smooth <= peakStep expired p smooth
  /\ peakStep expired p smooth <= Qmax p smooth.
Proof.
  intros Hp. unfold peakStep.
  destruct (Qgtb smooth p) eqn:Hgt.
  - apply Qgtb_true in Hgt.
    destruct (Q.max_spec p smooth) as [[_ E]|[Hle _]]; [rewrite E|]; lra.
  - apply Qgtb_false in Hgt.
    set (c := if expired then 85 # 100 else 98 # 100).
    assert (Hc : p * c <= p) by (unfold c; destruct expired; lra).
    destruct (Q.max_spec (p * c) smooth) as [[H1 E1]|[H1 E1]];
      destruct (Q.max_spec p smooth) as [[H2 E2]|[H2 E2]];
      rewrite E1, E2; lra.
Qed.

(** One tick keeps a bar between 0 and 100 with the smoothed value at most
    the peak. *)
Lemma barAdvance_range (h a p a' p' : Q) :
  barAdvance (3 # 10) h a p a' p' ->
  1 <= h <= 100 -> 0 <= a -> a <= p -> p <= 100 ->
  0 <= a' /\ a' <= p' /\ p' <= 100.
Proof.
  intros [expired [Hp' Ha']] Hh Ha Hap Hp.
  pose proof (smoothStep_range a h ltac:(lra) Hh) as Hs.
  pose proof (peakStep_bounds expired p (smoothStep (3 # 10) a h) ltac:(lra)) as [Hlo Hhi].
  rewrite <- Hp' in Hlo, Hhi.
  assert (Hp100 : p' <= 100).
  { destruct (Q.max_spec p (smoothStep (3 # 10) a h)) as [[_ E]|[_ E]];
      rewrite E in Hhi; lra. }
  subst a'. unfold displayStep.
  destruct (Q.max_spec (smoothStep (3 # 10) a h) (p' * (5 # 10))) as [[H1 E]|[H1 E]];
    rewrite E; lra.
Qed.

(** ** Geometric decay *)

Lemma geom_nonneg (r : Q) (n : nat) : 0 <= r -> 0 <= geom r n.
Proof.
  intros Hr. induction n as [|n IH]; simpl; [discriminate|].
  apply Qmult_le_0_compat; assumption.
Qed.

Lemma geom_le_1 (r : Q) (n : nat) : 0 <= r <= 1 -> geom r n <= 1.
Proof.
  intros Hr. induction n as [|n IH]; simpl; [apply Qle_refl|].
  pose proof (geom_nonneg r n (proj1 Hr)) as H0. nra.
Qed.

Lemma geom_le_base (r : Q) (n : nat) : 0 <= r <= 1 -> (1 <= n)%nat -> geom r n <= r.
Proof.
  intros Hr Hn. destruct n as [|n]; [lia|]. simpl.
  pose proof (geom_nonneg r n (proj1 Hr)) as H0.
  pose proof (geom_le_1 r n Hr) as H1. nra.
Qed.

(** Bernoulli's inequality, read downwards. *)
Lemma geom_bernoulli (r : Q) (n : nat) :
  0 <= r <= 1 ->
  geom r n * (1 + inject_Z (Z.of_nat n) * (1 - r)) <= 1.
Proof.
  intros Hr. induction n as [|n IH].
  - cbn [geom]. change (inject_Z (Z.of_nat 0)) with 0. lra.
  - rewrite Nat2Z.inj_succ. unfold Z.succ. rewrite inject_Z_plus. simpl geom.
    pose proof (geom_nonneg r n (proj1 Hr)) as H0.
    set (g := geom r n) in *. set (k := inject_Z (Z.of_nat n)) in *.
    assert (Hk : 0 <= k).
    { unfold k. change 0 with (inject_Z 0). rewrite <- Zle_Qle. lia. }
    change (inject_Z 1) with 1.
    assert (Hsq : 0 <= (k + 1) * ((1 - r) * (1 - r))).
    { apply Qmult_le_0_compat; [lra|]. apply Qmult_le_0_compat; lra. }
    assert (Hstep : r * (1 + (k + 1) * (1 - r)) <= 1 + k * (1 - r)) by lra.
    assert (Hmul : g * (r * (1 + (k + 1) * (1 - r))) <= g * (1 + k * (1 - r))).
    { rewrite !(Qmult_comm g). apply Qmult_le_compat_r; assumption. }
    lra.
Qed.

(** A geometric sequence with ratio below 1 gets under every bound. *)
Lemma geom_vanishes (c r eps : Q) :
  0 <= c -> 0 <= r -> r < 1 -> 0 < eps ->
  exists N : nat, forall n, (N <= n)%nat -> c * geom r n < eps.
Proof.
  intros Hc Hr Hr1 Heps.
  set (d := 1 - r). assert (Hd : 0 < d) by (unfold d; lra).
  exists (Z.to_nat (Qceiling (c / (eps * d))) + 1)%nat.
  intros n Hn.
  pose proof (geom_bernoulli r n ltac:(lra)) as Hb. fold d in Hb.
  pose proof (geom_nonneg r n Hr) as Hg.
  set (g := geom r n) in *. set (k := inject_Z (Z.of_nat n)) in *.
  assert (Hk : c / (eps * d) < k).
  { apply Qle_lt_trans with (inject_Z (Qceiling (c / (eps * d)))); [apply Qle_ceiling|].
    unfold k. rewrite <- Zlt_Qlt. lia. }
  assert (Hed : 0 < eps * d) by nra.
  assert (Hck : c < k * (eps * d)).
  { apply (proj2 (Qmult_lt_r _ _ (eps * d) Hed)) in Hk.
    assert (Hne : ~ eps * d == 0) by lra.
    rewrite (Qmult_comm (c / (eps * d))), Qmult_div_r in Hk by exact Hne.
    exact Hk. }
  assert (Hk0 : 0 <= k).
  { unfold k. change 0 with (inject_Z 0). rewrite <- Zle_Qle. lia. }
  assert (H1 : c * g * (1 + k * d) <= c) by nra.
  assert (H2 : c < eps * (1 + k * d)) by nra.
  assert (H3 : 0 < 1 + k * d) by nra.
  apply Qnot_le_lt. intros Hle.
  assert (H4 : eps * (1 + k * d) <= c * g * (1 + k * d)) by nra.
  lra.
Qed.

(** ** Buckets *)

Lemma bucket_generic (U w : Z) (B i : nat) :
  (1 <= w)%Z -> (Z.of_nat B * w <= U)%Z -> (i < B)%nat ->
  (Z.min (Z.of_nat i * w + w) U - Z.of_nat i * w = w)%Z.
Proof. intros Hw HB Hi. nia. Qed.

Lemma floor_quotient (U : Z) (B : nat) :
  (0 < B)%nat -> (Z.of_nat B <= U)%Z ->
  let w := Math_floor (inject_Z U / inject_Z (Z.of_nat B)) in
  (1 <= w)%Z /\ (Z.of_nat B * w <= U)%Z.
Proof.
  intros HB HU w. unfold w, Math_floor. rewrite <- Zdiv_Qdiv. split.
  - apply Z.div_le_lower_bound; lia.
  - apply Z.mul_div_le. lia.
Qed.

Lemma floor_fraction_le (n : Z) (f : Q) :
  (0 <= n)%Z -> 0 <= f <= 1 -> (0 <= Math_floor (inject_Z n * f) <= n)%Z.
Proof.
  intros Hn Hf. unfold Math_floor.
  assert (H0 : 0 <= inject_Z n) by (change 0 with (inject_Z 0); rewrite <- Zle_Qle; lia).
  split.
  - rewrite <- (Qfloor_Z 0). apply Qfloor_resp_le. change (inject_Z 0) with 0. nra.
  - rewrite <- (Qfloor_Z n) at 2. apply Qfloor_resp_le. nra.
Qed.

Lemma fold_bins_finite (dataArray : list Z) (js : list Z) (q0 : Q) :
  Forall (fun j => (0 <= j < Z.of_nat (length dataArray))%Z) js ->
  exists q,
    fold_left (fun sum j => jadd sum (byteAt dataArray j)) js (Num q0) = Num q.
Proof.
  intros Hjs. revert q0. induction Hjs as [|j js Hj _ IH]; intros q0.
  - exists q0. reflexivity.
  - destruct (lookup_lt_is_Some_2 dataArray (Z.to_nat j)) as [b Hb]; [lia|].
    simpl. unfold byteAt at 2.
    destruct (Z.ltb_spec j 0) as [Hneg|_]; [lia|].
    rewrite Hb. simpl. apply IH.
Qed.

(** A bucket that lies inside the byte array has a finite sum. *)
Lemma sumBins_finite (dataArray : list Z) (startIndex endIndex : Z) :
  (0 <= startIndex)%Z -> (endIndex <= Z.of_nat (length dataArray))%Z ->
  exists q, sumBins dataArray startIndex endIndex = Num q.
Proof.
  intros Hstart Hend. unfold sumBins. apply fold_bins_finite.
  apply Forall_seqZ. intros j Hj. lia.
Qed.

(** ** The bars of src/audio-visualizer.js *)

Section Bars.
Import AudioVisualizer.

Lemma usableRangeOf_128 (s : t) :
  bufferLength s = frequencyBinCount -> usableRangeOf s = 76%Z.
Proof. unfold usableRangeOf. intros ->. reflexivity. Qed.

Lemma barWidthOf_64 (s : t) :
  bufferLength s = frequencyBinCount -> barCount s = 64%nat -> barWidthOf s = 1%Z.
Proof.
  intros Hbuf Hbars. unfold barWidthOf.
  rewrite (usableRangeOf_128 s Hbuf), Hbars. reflexivity.
Qed.

Lemma bucket_64 (s : t) (i : nat) :
  bufferLength s = frequencyBinCount -> barCount s = 64%nat -> (i < 64)%nat ->
  startIndexOf s i = Z.of_nat i /\ endIndexOf s i = (Z.of_nat i + 1)%Z.
Proof.
  intros Hbuf Hbars Hi. unfold endIndexOf, startIndexOf.
  rewrite (barWidthOf_64 s Hbuf Hbars), (usableRangeOf_128 s Hbuf). lia.
Qed.

Lemma processAudioLevel_single (s : t) (dataArray : list Z) (i : nat) (b : Z) :
  bufferLength s = frequencyBinCount -> barCount s = 64%nat -> (i < 64)%nat ->
  dataArray !! i = Some b ->
  processAudioLevel (averageOf s dataArray i) = Num (levelOfByte b).
Proof.
  intros Hbuf Hbars Hi Hb. unfold averageOf.
  destruct (bucket_64 s i Hbuf Hbars Hi) as [-> ->].
  rewrite (sumBins_single _ _ _ Hb).
  replace (Z.of_nat i + 1 - Z.of_nat i)%Z with 1%Z by lia.
  reflexivity.
Qed.

(** What [trackBar] does to a bar whose two values are finite. *)
Lemma trackBar_finite (s : t) (currentTime : Z) (i : nat) (h a p : Q) :
  (i < length (barSmoothValues s))%nat ->
  (i < length (barPeaks s))%nat ->
  (i < length (barPeakTimes s))%nat ->
  barAt s i a p ->
  exists a' p' times,
    trackBar s currentTime i (Num h) =
      withBars s (<[i := Num a']> (barSmoothValues s))
                 (<[i := Num p']> (barPeaks s)) times
    /\ length times = length (barPeakTimes s)
    /\ barAdvance (smoothingFactor s) h a p a' p'.
Proof.
  intros Hls Hlp Hlt [Ha Hp]. unfold trackBar.
  rewrite (js_get_Some _ _ _ Ha), (js_get_Some _ _ _ Hp).
  set (expired := jgt (jsub (Num (inject_Z currentTime)) (js_get (barPeakTimes s) i))
                      (Num (inject_Z (peakHoldTime s)))).
  cbn [jsub jmul jadd jgt jmax].
  fold (smoothStep (smoothingFactor s) a h).
  set (smooth := smoothStep (smoothingFactor s) a h).
  exists (displayStep smooth (peakStep expired p smooth)),
         (peakStep expired p smooth).
  unfold peakStep.
  destruct (Qgtb smooth p) eqn:Hgt.
  - exists (js_set i (Num (inject_Z currentTime)) (barPeakTimes s)).
    rewrite !js_set_inside by assumption.
    rewrite (js_get_Some (<[i := Num smooth]> (barPeaks s)) i (Num smooth))
      by (apply list_lookup_insert_eq; assumption).
    split; [reflexivity|]. split; [apply length_insert|].
    exists expired. fold smooth. unfold peakStep. rewrite Hgt. split; reflexivity.
  - exists (barPeakTimes s).
    destruct expired eqn:Hexp.
    + rewrite !js_set_inside by assumption.
      rewrite (js_get_Some (<[i := Num (Qmax (p * (85 # 100)) smooth)]> (barPeaks s)) i
                           (Num (Qmax (p * (85 # 100)) smooth)))
        by (apply list_lookup_insert_eq; assumption).
      split; [reflexivity|]. split; [reflexivity|].
      exists true. fold smooth. unfold peakStep. rewrite Hgt. split; reflexivity.
    + rewrite !js_set_inside by assumption.
      rewrite (js_get_Some (<[i := Num (Qmax (p * (98 # 100)) smooth)]> (barPeaks s)) i
                           (Num (Qmax (p * (98 # 100)) smooth)))
        by (apply list_lookup_insert_eq; assumption).
      split; [reflexivity|]. split; [reflexivity|].
      exists false. fold smooth. unfold peakStep. rewrite Hgt. split; reflexivity.
Qed.

Lemma withBars_same (s : t) :
  withBars s (barSmoothValues s) (barPeaks s) (barPeakTimes s) = s.
Proof. destruct s. reflexivity. Qed.

Lemma isByteArray_lookup (dataArray : list Z) (i : nat) :
  isByteArray frequencyBinCount dataArray -> (i < 64)%nat ->
  exists b, dataArray !! i = Some b /\ (0 <= b <= 255)%Z.
Proof.
  intros [Hlen Hbytes] Hi.
  destruct (lookup_lt_is_Some_2 dataArray i) as [b Hb].
  { unfold frequencyBinCount in Hlen. lia. }
  exists b. split; [exact Hb|].
  exact (Forall_lookup_1 _ _ _ _ Hbytes Hb).
Qed.

(** The loop over the bars, after its first [k] rounds: the bars below [k]
    have advanced by one tick, the others are untouched. *)
Lemma barLoop_prefix (s : t) (dataArray : list Z) (currentTime : Z) (k : nat) :
  configured s -> initialised s = true ->
  isByteArray frequencyBinCount dataArray ->
  (forall i, (i < 64)%nat -> exists a p, barAt s i a p) ->
  (k <= 64)%nat ->
  exists smooth peaks times,
    fold_left (barStep dataArray currentTime) (seq 0 k) s =
      withBars s smooth peaks times
    /\ length smooth = 64%nat /\ length peaks = 64%nat /\ length times = 64%nat
    /\ (forall i, (k <= i)%nat ->
          smooth !! i = barSmoothValues s !! i /\ peaks !! i = barPeaks s !! i)
    /\ (forall i a p, (i < k)%nat -> barAt s i a p ->
          exists b a' p',
            dataArray !! i = Some b
            /\ smooth !! i = Some (Num a') /\ peaks !! i = Some (Num p')
            /\ barAdvance (3 # 10) (levelOfByte b) a p a' p').
Proof.
  intros Hcfg Hinit Hdata Hfin.
  destruct Hcfg as (Hbars & Hfactor & Hls & Hlp & Hlt & _ & Hbuf).
  specialize (Hbuf Hinit).
  induction k as [|k IH]; intros Hk.
  - exists (barSmoothValues s), (barPeaks s), (barPeakTimes s).
    simpl. rewrite withBars_same.
    repeat split; try assumption. intros i a p Hi. lia.
  - destruct (IH ltac:(lia)) as (sm & pk & tm & Hfold & Hsm & Hpk & Htm & Hrest & Hdone).
    rewrite seq_S, fold_left_app, Hfold. simpl.
    destruct (Hfin k ltac:(lia)) as (a & p & Ha & Hp).
    destruct (isByteArray_lookup dataArray k Hdata ltac:(lia)) as (b & Hb & _).
    destruct (Hrest k ltac:(lia)) as [Hsk Hpk'].
    unfold barStep.
    rewrite (processAudioLevel_single (withBars s sm pk tm) dataArray k b)
      by (simpl; assumption || lia).
    destruct (trackBar_finite (withBars s sm pk tm) currentTime k (levelOfByte b) a p)
      as (a' & p' & tm' & Htrack & Htm' & Hadv).
    { simpl. lia. } { simpl. lia. } { simpl. lia. }
    { split; simpl; congruence. }
    simpl in Htrack, Htm', Hadv. rewrite Hfactor in Hadv.
    exists (<[k := Num a']> sm), (<[k := Num p']> pk), tm'.
    split; [exact Htrack|].
    rewrite !length_insert.
    split; [exact Hsm|]. split; [exact Hpk|]. split; [lia|].
    split.
    + intros i Hi. rewrite !list_lookup_insert_ne by lia. apply Hrest. lia.
    + intros i a0 p0 Hi Hat.
      destruct (decide (i = k)) as [->|Hne].
      * exists b, a', p'.
        rewrite !list_lookup_insert_eq by lia.
        destruct Hat as [Ha0 Hp0].
        assert (a0 = a) by congruence. assert (p0 = p) by congruence. subst a0 p0.
        repeat split; assumption.
      * destruct (Hdone i a0 p0 ltac:(lia) Hat) as (b0 & a0' & p0' & H1 & H2 & H3 & H4).
        exists b0, a0', p0'.
        rewrite !list_lookup_insert_ne by lia.
        repeat split; assumption.
Qed.

Lemma barAt_functional (s : t) (i : nat) (a p a0 p0 : Q) :
  barAt s i a p -> barAt s i a0 p0 -> a0 = a /\ p0 = p.
Proof. intros [H1 H2] [H3 H4]. split; congruence. Qed.

(** One tick of a running, configured element: the configuration stays,
    and every finite bar advances by [barAdvance] under the level of its
    byte. *)
Lemma animate_tick (s : t) (dataArray : list Z) (currentTime : Z) :
  configured s -> isRunning s = true ->
  isByteArray frequencyBinCount dataArray ->
  (forall i, (i < 64)%nat -> exists a p, barAt s i a p) ->
  configured (animate s dataArray currentTime)
  /\ isRunning (animate s dataArray currentTime) = true
  /\ forall i a p, (i < 64)%nat -> barAt s i a p ->
       exists b a' p',
         dataArray !! i = Some b
         /\ barAt (animate s dataArray currentTime) i a' p'
         /\ barAdvance (3 # 10) (levelOfByte b) a p a' p'.
Proof.
  intros Hcfg Hrun Hdata Hfin.
  pose proof Hcfg as (Hbars & Hfactor & Hls & Hlp & Hlt & Hri & Hbuf).
  destruct (barLoop_prefix s dataArray currentTime 64 Hcfg (Hri Hrun) Hdata Hfin
              ltac:(lia))
    as (sm & pk & tm & Hfold & Hsm & Hpk & Htm & _ & Hdone).
  unfold animate, barLoop. rewrite Hrun, Hbars, Hfold. simpl.
  split; [|split; [exact Hrun|]].
  - unfold configured. simpl. repeat split; assumption.
  - intros i a p Hi Hat.
    destruct (Hdone i a p Hi Hat) as (b & a' & p' & H1 & H2 & H3 & H4).
    exists b, a', p'. repeat split; assumption.
Qed.

Lemma barsInRange_finite (s : t) :
  barsInRange s -> forall i, (i < 64)%nat -> exists a p, barAt s i a p.
Proof.
  intros Hin i Hi. destruct (Hin i Hi) as (a & p & Hat & _).
  exists a, p. exact Hat.
Qed.

Lemma animate_inRange (s : t) (dataArray : list Z) (currentTime : Z) :
  configured s -> isByteArray frequencyBinCount dataArray -> barsInRange s ->
  configured (animate s dataArray currentTime)
  /\ barsInRange (animate s dataArray currentTime).
Proof.
  intros Hcfg Hdata Hin.
  destruct (isRunning s) eqn:Hrun.
  - destruct (animate_tick s dataArray currentTime Hcfg Hrun Hdata
                (barsInRange_finite s Hin)) as (Hcfg' & _ & Hstep).
    split; [exact Hcfg'|].
    intros i Hi. destruct (Hin i Hi) as (a & p & Hat & Ha & Hap & Hp).
    destruct (Hstep i a p Hi Hat) as (b & a' & p' & Hb & Hat' & Hadv).
    exists a', p'. split; [exact Hat'|].
    exact (barAdvance_range _ a p a' p' Hadv (levelOfByte_range b) Ha Hap Hp).
  - unfold animate. rewrite Hrun. simpl. split; assumption.
Qed.

Lemma new_invariant : configured new /\ barsInRange new.
Proof.
  split.
  - unfold configured. simpl. repeat split; try reflexivity; discriminate.
  - intros i Hi. exists 0, 0. split.
    + split; simpl; apply lookup_replicate_2; exact Hi.
    + repeat split; discriminate.
Qed.

Lemma stop_invariant (s : t) :
  configured s /\ barsInRange s -> configured (stop s) /\ barsInRange (stop s).
Proof.
  intros [Hcfg Hin].
  destruct Hcfg as (Hbars & Hfactor & Hls & Hlp & Hlt & Hri & Hbuf).
  split.
  - unfold configured, stop, fill0. simpl. rewrite length_replicate.
    repeat split; try assumption. discriminate.
  - intros i Hi. destruct (Hin i Hi) as (a & p & [Ha Hp] & H0 & Hap & H100).
    exists 0, p. split.
    + split; simpl; [|exact Hp].
      unfold fill0. apply lookup_replicate_2. lia.
    + repeat split; [discriminate|lra|exact H100].
Qed.

Lemma reachable_invariant (s : t) :
  reachable s -> configured s /\ barsInRange s.
Proof.
  induction 1 as [|s _ [Hcfg Hin]|s dataArray currentTime s' _ [Hcfg Hin] Hdata Hstart
                 |s dataArray currentTime _ [Hcfg Hin] Hdata|s _ IH].
  - exact new_invariant.
  - destruct Hcfg as (Hbars & Hfactor & Hls & Hlp & Hlt & Hri & Hbuf).
    split; [|exact Hin].
    unfold configured. simpl. repeat split; assumption || reflexivity.
  - unfold start in Hstart. destruct (initialised s) eqn:Hinit; [|discriminate].
    injection Hstart as <-.
    apply animate_inRange; [|exact Hdata|exact Hin].
    destruct Hcfg as (Hbars & Hfactor & Hls & Hlp & Hlt & Hri & Hbuf).
    unfold configured. simpl. repeat split; try assumption. intros _. exact Hinit.
  - apply animate_inRange; assumption.
  - apply stop_invariant. exact IH.
Qed.

(** C5: in every state the element reaches from its construction, through
    any sequence of starts, stops and ticks on byte arrays, every bar's
    smoothed value and peak are finite and lie in [0, 100]; the smoothed
    value is the displayed value written back by the tick. *)
Theorem bars_stay_in_range (s : t) (i : nat) :
  reachable s -> (i < barCount s)%nat ->
  within 0 100 (js_get (barSmoothValues s) i)
  /\ within 0 100 (js_get (barPeaks s) i).
Proof.
  intros Hreach Hi.
  destruct (reachable_invariant s Hreach) as [Hcfg Hin].
  destruct Hcfg as (Hbars & _). rewrite Hbars in Hi.
  destruct (Hin i Hi) as (a & p & [Ha Hp] & H0 & Hap & H100).
  rewrite (js_get_Some _ _ _ Ha), (js_get_Some _ _ _ Hp).
  simpl. split; split; lra.
Qed.

(** *** Silence *)

(** Under the level 1 the smoothed value rises towards 1 at the rate 0.7
    and the peak falls towards 1 at the rate 0.98 or faster. *)
Lemma barAdvance_silence (a p a' p' L G : Q) :
  barAdvance (3 # 10) 1 a p a' p' ->
  0 <= a -> a <= p -> 0 <= G ->
  1 - L <= a -> p <= 1 + 99 * G ->
  1 - (7 # 10) * L <= a' /\ p' <= 1 + 99 * ((98 # 100) * G).
Proof.
  intros [expired [Hp' Ha']] Ha Hap HG Hlo Hhi.
  set (smooth := smoothStep (3 # 10) a 1) in *.
  assert (Hs : smooth == (7 # 10) * a + (3 # 10)) by (unfold smooth, smoothStep; ring).
  split.
  - subst a'. unfold displayStep.
    apply Qle_trans with smooth; [lra|apply Q.le_max_l].
  - subst p'. unfold peakStep.
    destruct (Qgtb smooth p); [lra|].
    apply Q.max_lub; [|lra].
    destruct expired; lra.
Qed.

Lemma run_S (s : t) (dataArray : nat -> list Z) (currentTime : nat -> Z) (n : nat) :
  run s dataArray currentTime (S n) =
    animate (run s dataArray currentTime n) (dataArray n) (currentTime n).
Proof. reflexivity. Qed.

(** A run of ticks keeps a running, configured element so. *)
Lemma run_invariant (s : t) (dataArray : nat -> list Z) (currentTime : nat -> Z)
    (n : nat) :
  configured s -> isRunning s = true -> barsInRange s ->
  (forall k, isByteArray frequencyBinCount (dataArray k)) ->
  configured (run s dataArray currentTime n)
  /\ isRunning (run s dataArray currentTime n) = true
  /\ barsInRange (run s dataArray currentTime n).
Proof.
  intros Hcfg Hrun Hin Hdata. induction n as [|n (Hc & Hr & Hi)].
  - simpl. split; [|split]; assumption.
  - rewrite run_S.
    destruct (animate_tick _ (dataArray n) (currentTime n) Hc Hr (Hdata n)
                (barsInRange_finite _ Hi)) as (Hc' & Hr' & _).
    split; [exact Hc'|]. split; [exact Hr'|].
    apply animate_inRange; auto.
Qed.

(** The envelope of a bar whose byte is 0 on every tick. *)
Lemma silence_envelope (s : t) (dataArray : nat -> list Z) (currentTime : nat -> Z)
    (i : nat) :
  configured s -> isRunning s = true -> barsInRange s -> (i < 64)%nat ->
  (forall k, isByteArray frequencyBinCount (dataArray k)) ->
  (forall k, dataArray k !! i = Some 0%Z) ->
  forall n, exists a p,
    barAt (run s dataArray currentTime n) i a p
    /\ 1 - geom (7 # 10) n <= a /\ a <= p
    /\ p <= 1 + 99 * geom (98 # 100) n.
Proof.
  intros Hcfg Hrun Hin Hi Hdata Hzero n.
  induction n as [|n (a & p & Hat & Hlo & Hap & Hhi)].
  - destruct (Hin i Hi) as (a & p & Hat & H0 & Hap & H100).
    exists a, p. simpl. split; [exact Hat|]. split; [lra|]. split; [exact Hap|lra].
  - destruct (run_invariant s dataArray currentTime n Hcfg Hrun Hin Hdata)
      as (Hc & Hr & Hir).
    destruct (animate_tick _ (dataArray n) (currentTime n) Hc Hr (Hdata n)
                (barsInRange_finite _ Hir)) as (_ & _ & Hstep).
    destruct (Hstep i a p Hi Hat) as (b & a' & p' & Hb & Hat' & Hadv).
    assert (b = 0%Z) by (specialize (Hzero n); congruence). subst b.
    rewrite levelOfByte_zero in Hadv.
    destruct (Hir i Hi) as (a0 & p0 & Hat0 & H0 & _ & H100).
    destruct (barAt_functional _ _ _ _ _ _ Hat Hat0) as [-> ->].
    pose proof (geom_nonneg (98 # 100) n ltac:(discriminate)) as HG.
    destruct (barAdvance_silence a p a' p' (geom (7 # 10) n) (geom (98 # 100) n)
                Hadv H0 Hap HG Hlo Hhi) as [Hlo' Hhi'].
    destruct (barAdvance_range 1 a p a' p' Hadv ltac:(lra) H0 Hap H100)
      as (_ & Hap' & _).
    exists a', p'. rewrite run_S. simpl geom.
    split; [exact Hat'|]. split; [exact Hlo'|]. split; [exact Hap'|exact Hhi'].
Qed.

Lemma started_invariant :
  configured started /\ isRunning started = true /\ barsInRange started.
Proof.
  split; [|split; [reflexivity|]].
  - unfold configured. simpl. repeat split; reflexivity.
  - intros i Hi. exists 0, 0. split.
    + split; simpl; apply lookup_replicate_2; exact Hi.
    + repeat split; discriminate.
Qed.

Lemma silence_isByteArray : isByteArray frequencyBinCount silence.
Proof.
  split; [reflexivity|]. apply Forall_replicate. lia.
Qed.

Lemma silence_lookup (i : nat) : (i < 64)%nat -> silence !! i = Some 0%Z.
Proof. intros Hi. apply lookup_replicate_2. lia. Qed.

(** C2, as the code has it: when the byte of a bar is 0 on every tick from
    some reachable running state on, the level curve still answers its
    floor 1, so the smoothed value and the peak both converge to 1, not to
    0: after [n] ticks [1 - 0.7^n <= smoothed <= peak <= 1 + 99 * 0.98^n].
    Neither value goes below 0. *)
Theorem silent_bar_settles_at_floor (s : t) (dataArray : nat -> list Z)
    (currentTime : nat -> Z) (i : nat) :
  reachable s -> isRunning s = true -> (i < barCount s)%nat ->
  (forall k, isByteArray frequencyBinCount (dataArray k)) ->
  (forall k, dataArray k !! i = Some 0%Z) ->
  (forall n, exists a p,
      barAt (run s dataArray currentTime n) i a p
      /\ 0 <= a /\ 1 - geom (7 # 10) n <= a /\ a <= p
      /\ p <= 1 + 99 * geom (98 # 100) n)
  /\ (forall eps, 0 < eps ->
      exists N, forall n, (N <= n)%nat ->
        exists a p,
          barAt (run s dataArray currentTime n) i a p
          /\ Qabs (a - 1) < eps /\ Qabs (p - 1) < eps).
Proof.
  intros Hreach Hrun Hi Hdata Hzero.
  destruct (reachable_invariant s Hreach) as [Hcfg Hin].
  assert (Hi64 : (i < 64)%nat) by (destruct Hcfg as (Hbars & _); lia).
  pose proof (silence_envelope s dataArray currentTime i Hcfg Hrun Hin Hi64 Hdata Hzero)
    as Henv.
  split.
  - intros n. destruct (Henv n) as (a & p & Hat & Hlo & Hap & Hhi).
    exists a, p. split; [exact Hat|].
    pose proof (geom_le_1 (7 # 10) n ltac:(split; discriminate)) as H1.
    split; [lra|]. split; [exact Hlo|]. split; [exact Hap|exact Hhi].
  - intros eps Heps.
    destruct (geom_vanishes 1 (7 # 10) eps) as [N1 HN1]; try reflexivity;
      try discriminate; [exact Heps|].
    destruct (geom_vanishes 99 (98 # 100) eps) as [N2 HN2]; try reflexivity;
      try discriminate; [exact Heps|].
    exists (Nat.max N1 N2). intros n Hn.
    destruct (Henv n) as (a & p & Hat & Hlo & Hap & Hhi).
    specialize (HN1 n ltac:(lia)). specialize (HN2 n ltac:(lia)).
    exists a, p. split; [exact Hat|].
    split; apply Qabs_Qlt_condition; split; lra.
Qed.

End Bars.

(** The claim C2 as the specification words it fails: on a fresh element
    fed with silence, bar 0 shows 0.3 after the first tick and its smoothed
    value and peak stay at or above 0.3 on every later tick, so neither
    converges to 0. *)
Lemma silent_bar_does_not_reach_zero :
  (exists a p,
     AudioVisualizer.barAt
       (AudioVisualizer.run AudioVisualizer.started
          (fun _ => AudioVisualizer.silence) (fun k => (16 * Z.of_nat k)%Z) 1) 0 a p
     /\ a == 3 # 10 /\ p == 3 # 10)
  /\ exists eps, 0 < eps
    /\ forall n, (1 <= n)%nat ->
         exists a p,
           AudioVisualizer.barAt
             (AudioVisualizer.run AudioVisualizer.started
                (fun _ => AudioVisualizer.silence)
                (fun k => (16 * Z.of_nat k)%Z) n) 0 a p
           /\ eps <= a /\ eps <= p.
Proof.
  split.
  { eexists. eexists. split; [split; vm_compute; reflexivity|].
    split; reflexivity. }
  exists (3 # 10). split; [reflexivity|]. intros n Hn.
  destruct started_invariant as (Hcfg & Hrun & Hin).
  destruct (silence_envelope AudioVisualizer.started
              (fun _ => AudioVisualizer.silence) (fun k => (16 * Z.of_nat k)%Z) 0
              Hcfg Hrun Hin ltac:(lia) (fun _ => silence_isByteArray)
              (fun _ => silence_lookup 0 ltac:(lia)) n)
    as (a & p & Hat & Hlo & Hap & _).
  pose proof (geom_le_base (7 # 10) n ltac:(split; discriminate) Hn) as Hg.
  exists a, p. split; [exact Hat|]. split; lra.
Qed.

Lemma bars_stay_in_range_witness :
  let s := AudioVisualizer.animate AudioVisualizer.started (replicate 128 200%Z) 1000 in
  AudioVisualizer.reachable s
  /\ (5 < AudioVisualizer.barCount s)%nat
  /\ within 0 100 (js_get (AudioVisualizer.barSmoothValues s) 5)
  /\ within 0 100 (js_get (AudioVisualizer.barPeaks s) 5).
Proof.
  intros s.
  assert (Hreach : AudioVisualizer.reachable s).
  { apply (AudioVisualizer.reach_start
             (AudioVisualizer.initAudio AudioVisualizer.new) (replicate 128 200%Z) 1000 s).
    - apply AudioVisualizer.reach_initAudio, AudioVisualizer.reach_new.
    - split; [reflexivity|]. apply Forall_replicate. lia.
    - reflexivity. }
  assert (Hi : (5 < AudioVisualizer.barCount s)%nat) by (vm_compute; lia).
  split; [exact Hreach|]. split; [exact Hi|].
  exact (bars_stay_in_range s 5 Hreach Hi).
Defined.

Lemma silent_bar_settles_at_floor_witness :
  let s := AudioVisualizer.animate AudioVisualizer.started AudioVisualizer.silence 0 in
  let ticks := AudioVisualizer.run s (fun _ => AudioVisualizer.silence)
                 (fun k => (16 * Z.of_nat k)%Z) in
  AudioVisualizer.reachable s
  /\ AudioVisualizer.isRunning s = true
  /\ (7 < AudioVisualizer.barCount s)%nat
  /\ exists a p,
       AudioVisualizer.barAt (ticks 3%nat) 7 a p
       /\ 0 <= a /\ 1 - geom (7 # 10) 3 <= a /\ a <= p
       /\ p <= 1 + 99 * geom (98 # 100) 3.
Proof.
  intros s ticks.
  assert (Hreach : AudioVisualizer.reachable s).
  { apply (AudioVisualizer.reach_start
             (AudioVisualizer.initAudio AudioVisualizer.new) AudioVisualizer.silence 0 s).
    - apply AudioVisualizer.reach_initAudio, AudioVisualizer.reach_new.
    - exact silence_isByteArray.
    - reflexivity. }
  assert (Hrun : AudioVisualizer.isRunning s = true) by reflexivity.
  assert (Hi : (7 < AudioVisualizer.barCount s)%nat) by (vm_compute; lia).
  split; [exact Hreach|]. split; [exact Hrun|]. split; [exact Hi|].
  exact (proj1 (silent_bar_settles_at_floor s (fun _ => AudioVisualizer.silence)
                  (fun k => (16 * Z.of_nat k)%Z) 7 Hreach Hrun Hi
                  (fun _ => silence_isByteArray)
                  (fun _ => silence_lookup 7 ltac:(lia))) 3%nat).
Defined.

(** ** The level curves *)

Lemma clamp_1_100 (x : Q) : 1 <= Qmax 1 (Qmin 100 x) <= 100.
Proof.
  split; [apply Q.le_max_l|].
  apply Q.max_lub; [discriminate|apply Q.le_min_l].
Qed.

Section LevelShaper.
Context `{HostMath}.

(** C6: on every finite input, and so on every raw average and noise
    average in [0, 255], the linear curve with noise subtraction
    (part_000), the sigmoid curve (docs/app.js) and the plain linear curve
    (audio-visualizer.js) each return a finite percentage in [1, 100];
    0 is never returned. *)
Theorem level_curves_stay_in_1_100 (s : NoiseVisualizer.t) (raw noise : Q) :
  0 <= raw <= 255 -> 0 <= noise <= 255 ->
  within 1 100 (NoiseVisualizer.processAudioLevel s (Num raw) (Num noise))
  /\ within 1 100 (DocsVisualizer.applySigmoidScaling (Num raw))
  /\ within 1 100 (DocsVisualizer.processAudioLevel (Num raw))
  /\ within 1 100 (AudioVisualizer.processAudioLevel (Num raw)).
Proof.
  intros _ _.
  unfold NoiseVisualizer.processAudioLevel, DocsVisualizer.processAudioLevel,
    DocsVisualizer.applySigmoidScaling, AudioVisualizer.processAudioLevel.
  cbn [jsub jmax jmin jmul jdiv_count Z.eqb Pos.eqb within].
  repeat split; apply clamp_1_100.
Qed.

(** The scenario of the specification: a raw level of 40 sits on the
    noise floor, takes the linear ramp and comes out as 5. *)
Lemma sigmoid_at_noise_floor :
  exists q, DocsVisualizer.applySigmoidScaling (Num 40) = Num q /\ q == 5.
Proof.
  eexists. split; [reflexivity|].
  cbv zeta. change (Qgtb 40 40) with false. cbv iota. reflexivity.
Qed.

End LevelShaper.

Lemma level_curves_stay_in_1_100_witness :
  let s := {| NoiseVisualizer.backgroundNoise := None; NoiseVisualizer.noiseMargin := 5 |} in
  0 <= 200 <= 255 /\ 0 <= 30 <= 255
  /\ within 1 100 (NoiseVisualizer.processAudioLevel s (Num 200) (Num 30))
  /\ within 1 100 (@DocsVisualizer.applySigmoidScaling approxMath (Num 200))
  /\ within 1 100 (@DocsVisualizer.processAudioLevel approxMath (Num 200))
  /\ within 1 100 (AudioVisualizer.processAudioLevel (Num 200)).
Proof.
  intros s.
  assert (Hraw : 0 <= 200 <= 255) by (split; discriminate).
  assert (Hnoise : 0 <= 30 <= 255) by (split; discriminate).
  split; [exact Hraw|]. split; [exact Hnoise|].
  exact (@level_curves_stay_in_1_100 approxMath s 200 30 Hraw Hnoise).
Defined.

(** ** The stored noise profile *)

Section NoiseProfile.
Context `{HostJSON}.
Import NoiseVisualizer.

Lemma saveNoiseProfile_stored (s : t) (noise : list Q) (saved : Z)
    (store : localStorage) :
  backgroundNoise s = Some noise ->
  saveNoiseProfile s saved true store !! storageKey =
    Some (JSON_stringify {| timestamp := saved; noiseProfile := noise |}).
Proof.
  intros Hnoise. unfold saveNoiseProfile. rewrite Hnoise.
  apply lookup_insert_eq.
Qed.

(** C9: a profile saved at the time [saved] is found in the storage with
    the same values and the same timestamp; a load at a time [now] with
    [now - saved] below seven days puts the identical value array into
    memory and answers true; a load with [now - saved] at or beyond seven
    days answers false and leaves the in-memory profile null. *)
Theorem noise_profile_round_trip (s : t) (noise : list Q) (saved now : Z)
    (store : localStorage) (fresh : t) :
  backgroundNoise s = Some noise ->
  let store' := saveNoiseProfile s saved true store in
  (exists stored,
      store' !! storageKey = Some stored
      /\ JSON_parse stored = Some {| timestamp := saved; noiseProfile := noise |})
  /\ ((now - saved < maxAge)%Z ->
      loadStoredNoiseProfile fresh now true store' =
        ({| backgroundNoise := Some noise; noiseMargin := noiseMargin fresh |}, true))
  /\ ((maxAge <= now - saved)%Z ->
      loadStoredNoiseProfile fresh now true store' =
        ({| backgroundNoise := None; noiseMargin := noiseMargin fresh |}, false)).
Proof.
  intros Hnoise store'.
  pose proof (saveNoiseProfile_stored s noise saved store Hnoise) as Hstored.
  fold store' in Hstored.
  split.
  - eexists. split; [exact Hstored|apply JSON_roundtrip].
  - split; intros Hage; unfold loadStoredNoiseProfile;
      rewrite Hstored, JSON_roundtrip; simpl timestamp; simpl noiseProfile.
    + apply Z.ltb_lt in Hage. rewrite Hage. reflexivity.
    + apply Z.ltb_ge in Hage. rewrite Hage. reflexivity.
Qed.

End NoiseProfile.

Lemma noise_profile_round_trip_witness :
  let s := {| NoiseVisualizer.backgroundNoise := Some [12; 7 # 2; 0];
              NoiseVisualizer.noiseMargin := 5 |} in
  let fresh := {| NoiseVisualizer.backgroundNoise := None;
                  NoiseVisualizer.noiseMargin := 5 |} in
  let store' := @NoiseVisualizer.saveNoiseProfile plainJSON s 1000 true ∅ in
  NoiseVisualizer.backgroundNoise s = Some [12; 7 # 2; 0]
  /\ (86400000 - 1000 < NoiseVisualizer.maxAge)%Z
  /\ @NoiseVisualizer.loadStoredNoiseProfile plainJSON fresh 86400000 true store' =
       ({| NoiseVisualizer.backgroundNoise := Some [12; 7 # 2; 0];
           NoiseVisualizer.noiseMargin := 5 |}, true).
Proof.
  intros s fresh store'.
  assert (Hage : (86400000 - 1000 < NoiseVisualizer.maxAge)%Z) by reflexivity.
  split; [reflexivity|]. split; [exact Hage|].
  exact (proj1 (proj2 (@noise_profile_round_trip plainJSON s [12; 7 # 2; 0] 1000
                         86400000 ∅ fresh eq_refl)) Hage).
Defined.

(** ** Division by the sample count *)

Lemma bucket_holds_samples (s : AudioVisualizer.t) (dataArray : list Z) (i : nat) :
  (0 < AudioVisualizer.barCount s)%nat ->
  (Z.of_nat (AudioVisualizer.barCount s) <= AudioVisualizer.usableRangeOf s)%Z ->
  isByteArray (AudioVisualizer.bufferLength s) dataArray ->
  (i < AudioVisualizer.barCount s)%nat ->
  (1 <= AudioVisualizer.endIndexOf s i - AudioVisualizer.startIndexOf s i)%Z
  /\ exists q, AudioVisualizer.averageOf s dataArray i = Num q.
Proof.
  intros HB HU [Hlen _] Hi.
  destruct (floor_quotient _ _ HB HU) as [Hw Hfit].
  fold (AudioVisualizer.barWidthOf s) in Hw, Hfit.
  pose proof (bucket_generic _ _ _ i Hw Hfit Hi) as Hden.
  fold (AudioVisualizer.startIndexOf s i) in Hden.
  fold (AudioVisualizer.endIndexOf s i) in Hden.
  split; [lia|].
  assert (Hbuf : (0 <= AudioVisualizer.bufferLength s)%Z) by lia.
  pose proof (floor_fraction_le _ (6 # 10) Hbuf ltac:(split; discriminate)) as HUle.
  fold (AudioVisualizer.usableRangeOf s) in HUle.
  destruct (sumBins_finite dataArray (AudioVisualizer.startIndexOf s i)
              (AudioVisualizer.endIndexOf s i)) as [q Hq].
  { unfold AudioVisualizer.startIndexOf. nia. }
  { unfold AudioVisualizer.endIndexOf. lia. }
  unfold AudioVisualizer.averageOf. rewrite Hq. unfold jdiv_count.
  destruct (Z.eqb_spec (AudioVisualizer.endIndexOf s i - AudioVisualizer.startIndexOf s i) 0)
    as [Hzero|_]; [lia|].
  eexists. reflexivity.
Qed.

Lemma docs_bucket_holds_samples (s : DocsVisualizer.t) (dataArray : list Z) (i : nat) :
  (0 < DocsVisualizer.barCount s)%nat ->
  (Z.of_nat (DocsVisualizer.barCount s) <= DocsVisualizer.usableRangeOf s)%Z ->
  isByteArray (DocsVisualizer.bufferLength s) dataArray ->
  (i < DocsVisualizer.barCount s)%nat ->
  (1 <= DocsVisualizer.endIndexOf s i - DocsVisualizer.startIndexOf s i)%Z
  /\ exists q, DocsVisualizer.averageOf s dataArray i = Num q.
Proof.
  intros HB HU [Hlen _] Hi.
  destruct (floor_quotient _ _ HB HU) as [Hw Hfit].
  assert (Hwidth : DocsVisualizer.barWidthOf s =
            Math_floor (inject_Z (DocsVisualizer.usableRangeOf s)
                        / inject_Z (Z.of_nat (DocsVisualizer.barCount s)))).
  { unfold DocsVisualizer.barWidthOf. lia. }
  rewrite <- Hwidth in Hw, Hfit.
  pose proof (bucket_generic _ _ _ i Hw Hfit Hi) as Hden.
  fold (DocsVisualizer.startIndexOf s i) in Hden.
  fold (DocsVisualizer.endIndexOf s i) in Hden.
  split; [lia|].
  assert (Hbuf : (0 <= DocsVisualizer.bufferLength s)%Z) by lia.
  pose proof (floor_fraction_le _ (55 # 100) Hbuf ltac:(split; discriminate)) as HUle.
  fold (DocsVisualizer.usableRangeOf s) in HUle.
  destruct (sumBins_finite dataArray (DocsVisualizer.startIndexOf s i)
              (DocsVisualizer.endIndexOf s i)) as [q Hq].
  { unfold DocsVisualizer.startIndexOf. nia. }
  { unfold DocsVisualizer.endIndexOf. lia. }
  unfold DocsVisualizer.averageOf. rewrite Hq. unfold jdiv_count.
  destruct (Z.eqb_spec (DocsVisualizer.endIndexOf s i - DocsVisualizer.startIndexOf s i) 0)
    as [Hzero|_]; [lia|].
  eexists. reflexivity.
Qed.

(** ** Stop *)

Lemma fill0_fill0 (l : list jsnum) : fill0 (fill0 l) = fill0 l.
Proof. unfold fill0. rewrite length_replicate. reflexivity. Qed.

Lemma docs_stop_idempotent (s : DocsVisualizer.t) :
  DocsVisualizer.stop (DocsVisualizer.stop s) = DocsVisualizer.stop s.
Proof.
  unfold DocsVisualizer.stop. simpl. rewrite !fill0_fill0. reflexivity.
Qed.

Lemma stop_idempotent (s : AudioVisualizer.t) :
  AudioVisualizer.stop (AudioVisualizer.stop s) = AudioVisualizer.stop s.
Proof.
  unfold AudioVisualizer.stop. simpl. rewrite !fill0_fill0. reflexivity.
Qed.

(** C3, as the code has it: [stop] is idempotent and resets the running
    flag, the smoothed values, the history, the live particles, the
    rolling averages and the band energies to zero or empty; it leaves the
    per-bar peaks and peak times (and the particle pool) as they were, in
    both variants. *)
Theorem stop_resets_all_but_peaks :
  (forall s : DocsVisualizer.t,
     let s' := DocsVisualizer.stop s in
     DocsVisualizer.stop s' = s'
     /\ DocsVisualizer.isRunning s' = false
     /\ DocsVisualizer.barSmoothValues s'
          = zeros (length (DocsVisualizer.barSmoothValues s))
     /\ DocsVisualizer.spectrumHistory s' = []
     /\ DocsVisualizer.particles s' = []
     /\ DocsVisualizer.rollingAverages s'
          = zeros (length (DocsVisualizer.rollingAverages s))
     /\ DocsVisualizer.musicEnergy s' = Num 0
     /\ DocsVisualizer.bassEnergy s' = Num 0
     /\ DocsVisualizer.midEnergy s' = Num 0
     /\ DocsVisualizer.trebleEnergy s' = Num 0
     /\ DocsVisualizer.barPeaks s' = DocsVisualizer.barPeaks s
     /\ DocsVisualizer.barPeakTimes s' = DocsVisualizer.barPeakTimes s
     /\ DocsVisualizer.particlePool s' = DocsVisualizer.particlePool s)
  /\ (forall s : AudioVisualizer.t,
     let s' := AudioVisualizer.stop s in
     AudioVisualizer.stop s' = s'
     /\ AudioVisualizer.isRunning s' = false
     /\ AudioVisualizer.barSmoothValues s'
          = zeros (length (AudioVisualizer.barSmoothValues s))
     /\ AudioVisualizer.spectrumHistory s' = []
     /\ AudioVisualizer.barPeaks s' = AudioVisualizer.barPeaks s
     /\ AudioVisualizer.barPeakTimes s' = AudioVisualizer.barPeakTimes s).
Proof.
  split; intros s s'.
  - split; [apply docs_stop_idempotent|]. repeat split; reflexivity.
  - split; [apply stop_idempotent|]. repeat split; reflexivity.
Qed.

(** The claim C3 as the specification words it fails on the peaks: after a
    loud tick and a stop, the peak of bar 0 is still 30 with its time 1000;
    the first tick of the next start, on silence, then shows 12.75 where a
    fresh element shows 0.3. *)
Lemma stop_keeps_peaks :
  let loud := AudioVisualizer.animate AudioVisualizer.started (replicate 128 255%Z) 1000 in
  let stopped := AudioVisualizer.stop loud in
  isNum (js_get (AudioVisualizer.barSmoothValues stopped) 0) 0
  /\ isNum (js_get (AudioVisualizer.barPeaks stopped) 0) 30
  /\ isNum (js_get (AudioVisualizer.barPeakTimes stopped) 0) 1000
  /\ (exists again,
        AudioVisualizer.start stopped AudioVisualizer.silence 5000 = Some again
        /\ isNum (js_get (AudioVisualizer.barSmoothValues again) 0) (1275 # 100))
  /\ (exists first,
        AudioVisualizer.start (AudioVisualizer.initAudio AudioVisualizer.new)
          AudioVisualizer.silence 5000 = Some first
        /\ isNum (js_get (AudioVisualizer.barSmoothValues first) 0) (3 # 10)).
Proof.
  intros loud stopped.
  split; [vm_compute; reflexivity|]. split; [vm_compute; reflexivity|].
  split; [vm_compute; reflexivity|].
  split.
  - exists (AudioVisualizer.animate (AudioVisualizer.withRunning stopped true)
              AudioVisualizer.silence 5000).
    split; vm_compute; reflexivity.
  - exists (AudioVisualizer.animate AudioVisualizer.started AudioVisualizer.silence 5000).
    split; vm_compute; reflexivity.
Qed.

(** ** The published build: what a tick writes *)

Lemma fold_left_invariant {A B : Type} (P : A -> Prop) (f : A -> B -> A)
    (l : list B) (a : A) :
  P a -> (forall x b, P x -> P (f x b)) -> P (fold_left f l a).
Proof.
  intros Ha Hstep. revert a Ha.
  induction l as [|b l IH]; intros a Ha; simpl; [exact Ha|].
  apply IH, Hstep, Ha.
Qed.

Section DocsTick.
Context `{HostMath}.
Import DocsVisualizer.

Lemma sameSettings_refl (s : t) : sameSettings s s.
Proof. unfold sameSettings. repeat split; reflexivity. Qed.

Lemma sameSettings_trans (s1 s2 s3 : t) :
  sameSettings s1 s2 -> sameSettings s2 s3 -> sameSettings s1 s3.
Proof.
  unfold sameSettings.
  intros (A1 & A2 & A3 & A4 & A5 & A6 & A7) (B1 & B2 & B3 & B4 & B5 & B6 & B7).
  repeat split; congruence.
Qed.

Lemma trackBar_frame (s : t) (currentTime : Z) (i : nat) (barHeight : jsnum) :
  exists smooth peaks times,
    fst (trackBar s currentTime i barHeight) = withBars s smooth peaks times.
Proof.
  unfold trackBar.
  destruct (jgt _ (js_get (barPeaks s) i)); [|destruct (jgt _ _)];
    simpl; eexists _, _, _; reflexivity.
Qed.

Lemma spawnParticle_step (s : t) (rnd : Q * Q * Q) (i : nat) (h r : Q) :
  sameSettings s (spawnParticle s rnd i h r)
  /\ spectrumHistory (spawnParticle s rnd i h r) = spectrumHistory s
  /\ particlesStep s (spawnParticle s rnd i h r).
Proof.
  unfold spawnParticle.
  destruct (Nat.leb_spec (maxParticles s) (length (particles s))) as [Hfull|Hroom].
  - split; [apply sameSettings_refl|]. split; [reflexivity|]. left. split; reflexivity.
  - split; [unfold sameSettings; simpl; repeat split; reflexivity|].
    split; [reflexivity|]. right. split; [exact Hroom|].
    eexists. reflexivity.
Qed.

Lemma detectFrequencyPeaks_step (s : t) (rnd : Q * Q * Q) (i : nat)
    (rawValue displayHeight : jsnum) :
  sameSettings s (detectFrequencyPeaks s rnd i rawValue displayHeight)
  /\ spectrumHistory (detectFrequencyPeaks s rnd i rawValue displayHeight)
       = spectrumHistory s
  /\ particlesStep s (detectFrequencyPeaks s rnd i rawValue displayHeight).
Proof.
  unfold detectFrequencyPeaks.
  destruct (jgt rawValue _ && jgt displayHeight (Num 20));
    [destruct displayHeight, rawValue|];
    try apply spawnParticle_step;
    (split; [apply sameSettings_refl|]; split; [reflexivity|];
     left; split; reflexivity).
Qed.

(** One round of the loop over the bars. *)
Lemma barStep_step (dataArray : list Z) (currentTime : Z) (rnd : nat -> Q * Q * Q)
    (s : t) (i : nat) :
  sameSettings s (barStep dataArray currentTime rnd s i)
  /\ spectrumHistory (barStep dataArray currentTime rnd s i) = spectrumHistory s
  /\ particlesStep s (barStep dataArray currentTime rnd s i).
Proof.
  unfold barStep.
  destruct (trackBar_frame s currentTime i (processAudioLevel (averageOf s dataArray i)))
    as (sm & pk & tm & Htrack).
  destruct (trackBar s currentTime i (processAudioLevel (averageOf s dataArray i)))
    as [s1 displayHeight].
  simpl in Htrack. subst s1.
  set (s2 := updateRollingAverage (withBars s sm pk tm) i _).
  destruct (detectFrequencyPeaks_step s2 (rnd i) i
              (processAudioLevel (averageOf s dataArray i)) displayHeight)
    as (Hset & Hhist & Hpart).
  split; [|split].
  - apply (sameSettings_trans s s2 _); [|exact Hset].
    unfold sameSettings. simpl. repeat split; reflexivity.
  - rewrite Hhist. reflexivity.
  - exact Hpart.
Qed.

(** The loop over the bars keeps the settings and the history, and never
    takes the particles over the cap. *)
Lemma barLoop_step (s : t) (dataArray : list Z) (currentTime : Z)
    (rnd : nat -> Q * Q * Q) :
  (length (particles s) <= maxParticles s)%nat ->
  sameSettings s (barLoop s dataArray currentTime rnd)
  /\ spectrumHistory (barLoop s dataArray currentTime rnd) = spectrumHistory s
  /\ (length (particles (barLoop s dataArray currentTime rnd)) <= maxParticles s)%nat.
Proof.
  intros Hcap. unfold barLoop.
  apply (fold_left_invariant
           (fun x => sameSettings s x /\ spectrumHistory x = spectrumHistory s
                     /\ (length (particles x) <= maxParticles s)%nat)).
  - split; [apply sameSettings_refl|]. split; [reflexivity|exact Hcap].
  - intros x i (Hset & Hhist & Hlen).
    destruct (barStep_step dataArray currentTime rnd x i) as (Hset' & Hhist' & Hpart).
    split; [exact (sameSettings_trans _ _ _ Hset Hset')|].
    split; [congruence|].
    assert (Hmax : maxParticles x = maxParticles s) by (destruct Hset as (_&_&_&_&_&_&E); exact E).
    destruct Hpart as [[Hsame _]|[Hroom [p Hp]]].
    + rewrite Hsame. exact Hlen.
    + rewrite Hp, length_app. simpl. lia.
Qed.

Lemma updateParticles_shape (s : t) :
  exists alive pool,
    updateParticles s = withParticles s alive pool
    /\ (length alive <= length (particles s))%nat.
Proof.
  unfold updateParticles.
  assert (Hfold : forall ps init,
    (length (fst (fold_right
       (fun p '(alive, pool) =>
          let p' := moveParticle p in
          if Qle_bool (life p') 0 then (alive, pool ++ [p']) else (p' :: alive, pool))
       ([], init) ps)) <= length ps)%nat).
  { induction ps as [|p ps IH]; intros init; simpl; [lia|].
    specialize (IH init).
    destruct (fold_right _ _ ps) as [alive pool]. simpl in IH.
    destruct (Qle_bool _ 0); simpl; lia. }
  specialize (Hfold (particles s) (particlePool s)).
  destruct (fold_right _ _ (particles s)) as [alive pool].
  exists alive, pool. split; [reflexivity|exact Hfold].
Qed.

(** A tick of a running element: the settings stay, the history takes the
    new snapshot in front and loses at most its last entry, and the
    particles stay under the cap. *)
Lemma animate_step (s : t) (dataArray : list Z) (currentTime : Z)
    (fullscreen : bool) (rnd : nat -> Q * Q * Q) :
  isRunning s = true ->
  (length (particles s) <= maxParticles s)%nat ->
  let s' := animate s dataArray currentTime fullscreen rnd in
  sameSettings s s'
  /\ (length (particles s') <= maxParticles s)%nat
  /\ spectrumHistory s' =
       if (capacity s fullscreen <? S (length (spectrumHistory s)))%nat
       then removelast (barSmoothValues s' :: spectrumHistory s)
       else barSmoothValues s' :: spectrumHistory s.
Proof.
  intros Hrun Hcap s'. unfold s', animate. rewrite Hrun. cbn [negb].
  destruct (barLoop_step s dataArray currentTime rnd Hcap) as (Hset & Hhist & Hlen).
  set (s1 := barLoop s dataArray currentTime rnd) in *.
  destruct (updateParticles_shape
              (updateSpectrumHistory (calculateMusicEnergy s1) fullscreen))
    as (alive & pool & Hupd & Halive).
  rewrite Hupd.
  pose proof Hset as (E1 & E2 & E3 & E4 & E5 & E6 & E7).
  split; [|split].
  - unfold sameSettings. simpl. repeat split; assumption.
  - simpl in Halive |- *. lia.
  - simpl. unfold capacity. rewrite Hhist, E5, E6. reflexivity.
Qed.

Lemma reachable_particles (s : t) :
  reachable s -> maxParticles s = 200%nat /\ (length (particles s) <= 200)%nat.
Proof.
  induction 1 as [|s w h _ [Hmax Hlen]|s _ [Hmax Hlen]
                 |s dataArray currentTime fullscreen rnd s' _ [Hmax Hlen] _ Hstart
                 |s dataArray currentTime fullscreen rnd _ [Hmax Hlen] _|s _ [Hmax Hlen]].
  - split; [reflexivity|simpl; lia].
  - split; assumption.
  - split; assumption.
  - unfold start in Hstart. destruct (initialised s); [|discriminate].
    injection Hstart as <-.
    destruct (animate_step (withRunning s true) dataArray currentTime fullscreen rnd
                eq_refl ltac:(simpl; lia)) as (Hset & Hcap & _).
    destruct Hset as (_ & _ & _ & _ & _ & _ & E).
    simpl in E, Hcap. split; [congruence|lia].
  - destruct (isRunning s) eqn:Hrun.
    + destruct (animate_step s dataArray currentTime fullscreen rnd Hrun ltac:(lia))
        as (Hset & Hcap & _).
      destruct Hset as (_ & _ & _ & _ & _ & _ & E).
      split; [congruence|lia].
    + unfold animate. rewrite Hrun. simpl. split; assumption.
  - split; [exact Hmax|simpl; lia].
Qed.

Lemma reachable_counts (s : t) :
  reachable s ->
  barCount s = 48%nat
  /\ (initialised s = true -> bufferLength s = frequencyBinCount).
Proof.
  induction 1 as [|s w h _ [Hbars Hbuf]|s _ [Hbars Hbuf]
                 |s dataArray currentTime fullscreen rnd s' Hreach [Hbars Hbuf] _ Hstart
                 |s dataArray currentTime fullscreen rnd Hreach [Hbars Hbuf] _
                 |s _ [Hbars Hbuf]].
  - split; [reflexivity|discriminate].
  - split; assumption.
  - split; [exact Hbars|reflexivity].
  - unfold start in Hstart. destruct (initialised s) eqn:Hinit; [|discriminate].
    injection Hstart as <-.
    destruct (reachable_particles s Hreach) as [Hmax Hlen].
    destruct (animate_step (withRunning s true) dataArray currentTime fullscreen rnd
                eq_refl ltac:(simpl; lia)) as ((E1 & E2 & _ & E4 & _) & _).
    simpl in E1, E2, E4. split; [congruence|]. intros _. rewrite E2. auto.
  - destruct (isRunning s) eqn:Hrun.
    + destruct (reachable_particles s Hreach) as [Hmax Hlen].
      destruct (animate_step s dataArray currentTime fullscreen rnd Hrun ltac:(lia))
        as ((E1 & E2 & _ & E4 & _) & _).
      split; [congruence|]. rewrite E1, E2. exact Hbuf.
    + unfold animate. rewrite Hrun. simpl. split; assumption.
  - split; assumption.
Qed.

(** C8: in every state the element reaches, at most [maxParticles] = 200
    particles are live; and a spawn attempted while the count equals
    [maxParticles] returns the state as it is, particle list and pool
    included, also when it comes through the peak detector. *)
Theorem particles_never_exceed_cap :
  (forall s, reachable s ->
     maxParticles s = 200%nat /\ (length (particles s) <= maxParticles s)%nat)
  /\ (forall s rnd barIndex height intensity,
        length (particles s) = maxParticles s ->
        spawnParticle s rnd barIndex height intensity = s)
  /\ (forall s rnd barIndex rawValue displayHeight,
        length (particles s) = maxParticles s ->
        detectFrequencyPeaks s rnd barIndex rawValue displayHeight = s).
Proof.
  assert (Hspawn : forall s rnd barIndex height intensity,
            length (particles s) = maxParticles s ->
            spawnParticle s rnd barIndex height intensity = s).
  { intros s rnd barIndex height intensity Hfull. unfold spawnParticle.
    destruct (Nat.leb_spec (maxParticles s) (length (particles s))); [reflexivity|lia]. }
  split; [|split].
  - intros s Hreach. destruct (reachable_particles s Hreach) as [Hmax Hlen].
    split; [exact Hmax|lia].
  - exact Hspawn.
  - intros s rnd barIndex rawValue displayHeight Hfull. unfold detectFrequencyPeaks.
    destruct (jgt rawValue _ && jgt displayHeight (Num 20)); [|reflexivity].
    destruct displayHeight, rawValue; try reflexivity. apply Hspawn, Hfull.
Qed.

End DocsTick.

(** ** The history of the published build *)

Section DocsHistory.
Context `{HostMath}.
Import DocsVisualizer.

Lemma length_removelast_cons {A : Type} (x : A) (l : list A) :
  length (removelast (x :: l)) = length l.
Proof.
  rewrite removelast_firstn_len. simpl length. simpl pred.
  rewrite length_take. simpl. lia.
Qed.

(** A run of ticks keeps a running element running, with its settings. *)
Lemma run_settings (s : t) (inputs : nat -> tickInput) (n : nat) :
  isRunning s = true -> (length (particles s) <= maxParticles s)%nat ->
  sameSettings s (run s inputs n)
  /\ isRunning (run s inputs n) = true
  /\ (length (particles (run s inputs n)) <= maxParticles (run s inputs n))%nat.
Proof.
  intros Hrun Hcap. induction n as [|n (Hset & Hrun' & Hcap')].
  - simpl. split; [apply sameSettings_refl|]. split; assumption.
  - simpl run. unfold tick.
    destruct (animate_step (run s inputs n) (dataArray (inputs n))
                (currentTime (inputs n)) (fullscreen (inputs n)) (random (inputs n))
                Hrun' Hcap') as (Hset' & Hcap'' & _).
    pose proof (sameSettings_trans _ _ _ Hset Hset') as Hset''.
    split; [exact Hset''|].
    destruct Hset' as (_ & _ & E3 & _ & _ & _ & E7).
    split; [congruence|]. rewrite E7. exact Hcap''.
Qed.

(** The history after one more tick of a run. *)
Lemma run_history_step (s : t) (inputs : nat -> tickInput) (n : nat) :
  isRunning s = true -> (length (particles s) <= maxParticles s)%nat ->
  spectrumHistory (run s inputs (S n)) =
    if (capacity s (fullscreen (inputs n))
        <? S (length (spectrumHistory (run s inputs n))))%nat
    then removelast (barSmoothValues (run s inputs (S n))
                     :: spectrumHistory (run s inputs n))
    else barSmoothValues (run s inputs (S n)) :: spectrumHistory (run s inputs n).
Proof.
  intros Hrun Hcap.
  destruct (run_settings s inputs n Hrun Hcap) as (Hset & Hrun' & Hcap').
  destruct (animate_step (run s inputs n) (dataArray (inputs n))
              (currentTime (inputs n)) (fullscreen (inputs n)) (random (inputs n))
              Hrun' Hcap') as (_ & _ & Hhist).
  assert (Hc : capacity (run s inputs n) (fullscreen (inputs n))
               = capacity s (fullscreen (inputs n))).
  { destruct Hset as (_ & _ & _ & _ & E5 & E6 & _).
    unfold capacity. rewrite E5, E6. reflexivity. }
  rewrite Hc in Hhist. exact Hhist.
Qed.

Lemma run_history_length (s : t) (inputs : nat -> tickInput) (n : nat) :
  isRunning s = true -> (length (particles s) <= maxParticles s)%nat ->
  length (spectrumHistory (run s inputs (S n))) =
    if (capacity s (fullscreen (inputs n))
        <? S (length (spectrumHistory (run s inputs n))))%nat
    then length (spectrumHistory (run s inputs n))
    else S (length (spectrumHistory (run s inputs n))).
Proof.
  intros Hrun Hcap. rewrite (run_history_step s inputs n Hrun Hcap).
  destruct (_ <? _)%nat; [apply length_removelast_cons|reflexivity].
Qed.

Lemma take_cons_take {A : Type} (c : nat) (x : A) (l : list A) :
  take c (x :: take c l) = take c (x :: l).
Proof.
  destruct c as [|c]; [reflexivity|]. simpl. f_equal.
  rewrite take_take. f_equal. lia.
Qed.

(** Under a capacity that does not change, the ring holds the newest
    snapshots first, [min capacity ticks] of them. *)
Theorem history_under_fixed_capacity (s : t) (inputs : nat -> tickInput)
    (mode : bool) (n : nat) :
  isRunning s = true -> (length (particles s) <= maxParticles s)%nat ->
  spectrumHistory s = [] ->
  (forall k, fullscreen (inputs k) = mode) ->
  spectrumHistory (run s inputs n) = take (capacity s mode) (snapshots s inputs n)
  /\ length (spectrumHistory (run s inputs n)) = Nat.min (capacity s mode) n.
Proof.
  intros Hrun Hcap Hempty Hmode.
  assert (Hsnap : forall k, length (snapshots s inputs k) = k).
  { induction k as [|k IH]; simpl; [reflexivity|]. rewrite IH. reflexivity. }
  induction n as [|n [IHh IHl]].
  - cbn [run snapshots]. rewrite Hempty, take_nil. split; [reflexivity|simpl; lia].
  - assert (Hh : spectrumHistory (run s inputs (S n)) =
                 take (capacity s mode) (snapshots s inputs (S n))).
    { rewrite (run_history_step s inputs n Hrun Hcap), Hmode, IHl.
      change (snapshots s inputs (S n))
        with (barSmoothValues (run s inputs (S n)) :: snapshots s inputs n).
      destruct (Nat.ltb_spec (capacity s mode) (S (Nat.min (capacity s mode) n)))
        as [Hfull|Hroom].
      - rewrite removelast_firstn_len. simpl length. simpl pred.
        rewrite IHl, IHh.
        replace (Nat.min (capacity s mode) n) with (capacity s mode) by lia.
        apply take_cons_take.
      - rewrite IHh. rewrite (take_ge (snapshots s inputs n)) by (rewrite Hsnap; lia).
        rewrite take_ge; [reflexivity|]. simpl. rewrite Hsnap. lia. }
    split; [exact Hh|].
    rewrite Hh, length_take. simpl length. rewrite Hsnap. reflexivity.
Qed.

Lemma started_running :
  isRunning started = true /\ (length (particles started) <= maxParticles started)%nat
  /\ spectrumHistory started = [] /\ capacity started true = 15%nat
  /\ capacity started false = 10%nat.
Proof. repeat split; simpl; lia. Qed.

(** C4 at the failing input: after 15 ticks in fullscreen mode the ring
    holds 15 snapshots; from the first tick in the normal mode on, whose
    capacity is 10, every update pushes one snapshot and pops one, so the
    ring keeps 15 entries and never comes down to its capacity.  Its last
    entry, at index 14, is then drawn with a negative opacity and a
    progress beyond 1. *)
Theorem history_keeps_excess_after_shrink (inputs : nat -> tickInput) (n : nat) :
  (forall k, (k < 15)%nat -> fullscreen (inputs k) = true) ->
  (forall k, (15 <= k)%nat -> fullscreen (inputs k) = false) ->
  (15 <= n)%nat ->
  length (spectrumHistory (run started inputs n)) = 15%nat
  /\ capacity (run started inputs n) false = 10%nat
  /\ layerOpacity (run started inputs n) false 14 < 0
  /\ 1 < layerProgress (run started inputs n) false 14.
Proof.
  intros Hfull Hnormal Hn.
  destruct started_running as (Hrun & Hcap & Hempty & Hc15 & Hc10).
  assert (Hgrow : forall k, (k <= 15)%nat ->
            length (spectrumHistory (run started inputs k)) = k).
  { induction k as [|k IH]; intros Hk; [simpl; reflexivity|].
    rewrite (run_history_length started inputs k Hrun Hcap), (Hfull k) by lia.
    rewrite Hc15, IH by lia.
    destruct (Nat.ltb_spec 15 (S k)); [lia|reflexivity]. }
  assert (Hstay : forall k, (15 <= k)%nat ->
            length (spectrumHistory (run started inputs k)) = 15%nat).
  { induction k as [|k IH]; intros Hk; [lia|].
    destruct (decide (S k = 15%nat)) as [E|E]; [rewrite E; apply Hgrow; lia|].
    rewrite (run_history_length started inputs k Hrun Hcap), (Hnormal k) by lia.
    rewrite Hc10, IH by lia. reflexivity. }
  split; [apply Hstay, Hn|].
  destruct (run_settings started inputs n Hrun Hcap) as (Hset & _).
  destruct Hset as (_ & _ & _ & _ & E5 & _).
  assert (Hc : capacity (run started inputs n) false = 10%nat)
    by (unfold capacity; rewrite E5; reflexivity).
  split; [exact Hc|].
  unfold layerOpacity, layerProgress. rewrite Hc. split; reflexivity.
Qed.

End DocsHistory.

Lemma history_keeps_excess_after_shrink_witness :
  (forall k, (k < 15)%nat ->
     DocsVisualizer.fullscreen (DocsVisualizer.fullscreenThenNormal k) = true)
  /\ (forall k, (15 <= k)%nat ->
     DocsVisualizer.fullscreen (DocsVisualizer.fullscreenThenNormal k) = false)
  /\ (15 <= 16)%nat
  /\ length (DocsVisualizer.spectrumHistory
               (@DocsVisualizer.run approxMath DocsVisualizer.started
                  DocsVisualizer.fullscreenThenNormal 16)) = 15%nat
  /\ DocsVisualizer.capacity
       (@DocsVisualizer.run approxMath DocsVisualizer.started
          DocsVisualizer.fullscreenThenNormal 16) false = 10%nat
  /\ DocsVisualizer.layerOpacity
       (@DocsVisualizer.run approxMath DocsVisualizer.started
          DocsVisualizer.fullscreenThenNormal 16) false 14 < 0
  /\ 1 < DocsVisualizer.layerProgress
           (@DocsVisualizer.run approxMath DocsVisualizer.started
              DocsVisualizer.fullscreenThenNormal 16) false 14.
Proof.
  assert (Hfull : forall k, (k < 15)%nat ->
            DocsVisualizer.fullscreen (DocsVisualizer.fullscreenThenNormal k) = true).
  { intros k Hk. simpl. apply Nat.ltb_lt. exact Hk. }
  assert (Hnormal : forall k, (15 <= k)%nat ->
            DocsVisualizer.fullscreen (DocsVisualizer.fullscreenThenNormal k) = false).
  { intros k Hk. simpl. apply Nat.ltb_ge. exact Hk. }
  assert (Hn : (15 <= 16)%nat) by lia.
  split; [exact Hfull|]. split; [exact Hnormal|]. split; [exact Hn|].
  exact (@history_keeps_excess_after_shrink approxMath
           DocsVisualizer.fullscreenThenNormal 16 Hfull Hnormal Hn).
Defined.

Lemma history_under_fixed_capacity_witness :
  let ticks := @DocsVisualizer.run approxMath DocsVisualizer.started
                 DocsVisualizer.normalMode in
  DocsVisualizer.isRunning DocsVisualizer.started = true
  /\ DocsVisualizer.spectrumHistory DocsVisualizer.started = []
  /\ DocsVisualizer.spectrumHistory (ticks 12%nat) =
       take (DocsVisualizer.capacity DocsVisualizer.started false)
            (@DocsVisualizer.snapshots approxMath DocsVisualizer.started
               DocsVisualizer.normalMode 12)
  /\ length (DocsVisualizer.spectrumHistory (ticks 12%nat)) =
       Nat.min (DocsVisualizer.capacity DocsVisualizer.started false) 12.
Proof.
  intros ticks.
  split; [reflexivity|]. split; [reflexivity|].
  exact (@history_under_fixed_capacity approxMath DocsVisualizer.started
           DocsVisualizer.normalMode false 12 eq_refl
           ltac:(simpl; lia) eq_refl (fun _ => eq_refl)).
Defined.

Lemma particles_never_exceed_cap_witness :
  length (DocsVisualizer.particles DocsVisualizer.crowded)
    = DocsVisualizer.maxParticles DocsVisualizer.crowded
  /\ DocsVisualizer.detectFrequencyPeaks DocsVisualizer.crowded
       (1 # 2, 1 # 2, 1 # 2) 3 (Num 46) (Num 25) = DocsVisualizer.crowded.
Proof.
  assert (Hfull : length (DocsVisualizer.particles DocsVisualizer.crowded)
                  = DocsVisualizer.maxParticles DocsVisualizer.crowded)
    by (vm_compute; reflexivity).
  split; [exact Hfull|].
  exact (proj2 (proj2 (@particles_never_exceed_cap approxMath))
           DocsVisualizer.crowded (1 # 2, 1 # 2, 1 # 2) 3%nat (Num 46) (Num 25) Hfull).
Defined.

(** ** The sample counts of the reachable states *)

Section SampleCounts.
Context `{HostMath}.

(** C7: no bar value is a NaN.  The element takes no counts from outside:
    its constructor and [initAudio] fix 128 bins with 64 bars (48 in the
    published build), and in every state it reaches once the audio is
    initialised [0 < barCount <= usableRange].  For such counts every
    bar's bucket holds at least one sample, so
    [sum / (endIndex - startIndex)] never divides by zero; on a byte array
    of the session's length the average is finite, and the level curve
    turns it into a finite bar height in [1, 100], in both variants. *)
Theorem buckets_hold_samples :
  (forall (s : AudioVisualizer.t) (dataArray : list Z) (i : nat),
     (0 < AudioVisualizer.barCount s)%nat ->
     (Z.of_nat (AudioVisualizer.barCount s) <= AudioVisualizer.usableRangeOf s)%Z ->
     isByteArray (AudioVisualizer.bufferLength s) dataArray ->
     (i < AudioVisualizer.barCount s)%nat ->
     (1 <= AudioVisualizer.endIndexOf s i - AudioVisualizer.startIndexOf s i)%Z
     /\ exists q, AudioVisualizer.averageOf s dataArray i = Num q)
  /\ (forall (s : DocsVisualizer.t) (dataArray : list Z) (i : nat),
     (0 < DocsVisualizer.barCount s)%nat ->
     (Z.of_nat (DocsVisualizer.barCount s) <= DocsVisualizer.usableRangeOf s)%Z ->
     isByteArray (DocsVisualizer.bufferLength s) dataArray ->
     (i < DocsVisualizer.barCount s)%nat ->
     (1 <= DocsVisualizer.endIndexOf s i - DocsVisualizer.startIndexOf s i)%Z
     /\ exists q, DocsVisualizer.averageOf s dataArray i = Num q)
  /\ (forall s : AudioVisualizer.t,
     AudioVisualizer.reachable s -> AudioVisualizer.initialised s = true ->
     (0 < AudioVisualizer.barCount s)%nat
     /\ (Z.of_nat (AudioVisualizer.barCount s) <= AudioVisualizer.usableRangeOf s)%Z)
  /\ (forall s : DocsVisualizer.t,
     DocsVisualizer.reachable s -> DocsVisualizer.initialised s = true ->
     (0 < DocsVisualizer.barCount s)%nat
     /\ (Z.of_nat (DocsVisualizer.barCount s) <= DocsVisualizer.usableRangeOf s)%Z)
  /\ (forall (s : AudioVisualizer.t) (dataArray : list Z) (i : nat),
     AudioVisualizer.reachable s -> AudioVisualizer.initialised s = true ->
     isByteArray (AudioVisualizer.bufferLength s) dataArray ->
     (i < AudioVisualizer.barCount s)%nat ->
     (1 <= AudioVisualizer.endIndexOf s i - AudioVisualizer.startIndexOf s i)%Z
     /\ exists h,
          AudioVisualizer.processAudioLevel (AudioVisualizer.averageOf s dataArray i)
          = Num h /\ 1 <= h <= 100)
  /\ (forall (s : DocsVisualizer.t) (dataArray : list Z) (i : nat),
     DocsVisualizer.reachable s -> DocsVisualizer.initialised s = true ->
     isByteArray (DocsVisualizer.bufferLength s) dataArray ->
     (i < DocsVisualizer.barCount s)%nat ->
     (1 <= DocsVisualizer.endIndexOf s i - DocsVisualizer.startIndexOf s i)%Z
     /\ exists h,
          DocsVisualizer.processAudioLevel (DocsVisualizer.averageOf s dataArray i)
          = Num h /\ 1 <= h <= 100).
Proof.
  assert (Hcounts : forall s : AudioVisualizer.t,
            AudioVisualizer.reachable s -> AudioVisualizer.initialised s = true ->
            (0 < AudioVisualizer.barCount s)%nat
            /\ (Z.of_nat (AudioVisualizer.barCount s)
                 <= AudioVisualizer.usableRangeOf s)%Z).
  2: assert (Hdocs : forall s : DocsVisualizer.t,
            DocsVisualizer.reachable s -> DocsVisualizer.initialised s = true ->
            (0 < DocsVisualizer.barCount s)%nat
            /\ (Z.of_nat (DocsVisualizer.barCount s)
                 <= DocsVisualizer.usableRangeOf s)%Z).
  3: { split; [exact bucket_holds_samples|].
       split; [exact docs_bucket_holds_samples|].
       split; [exact Hcounts|]. split; [exact Hdocs|]. split.
       - intros s dataArray i Hreach Hinit Hdata Hi.
         destruct (Hcounts s Hreach Hinit) as [HB HU].
         destruct (bucket_holds_samples s dataArray i HB HU Hdata Hi) as [Hden [q Hq]].
         split; [exact Hden|]. rewrite Hq.
         eexists. split; [reflexivity|]. apply clamp_1_100.
       - intros s dataArray i Hreach Hinit Hdata Hi.
         destruct (Hdocs s Hreach Hinit) as [HB HU].
         destruct (docs_bucket_holds_samples s dataArray i HB HU Hdata Hi)
           as [Hden [q Hq]].
         split; [exact Hden|]. rewrite Hq.
         unfold DocsVisualizer.processAudioLevel, DocsVisualizer.applySigmoidScaling.
         eexists. split; [reflexivity|]. apply clamp_1_100. }
  - intros s Hreach Hinit.
    destruct (reachable_invariant s Hreach) as [(Hbars & _ & _ & _ & _ & _ & Hbuf) _].
    rewrite Hbars. unfold AudioVisualizer.usableRangeOf. rewrite (Hbuf Hinit).
    split; [lia|vm_compute; discriminate].
  - intros s Hreach Hinit.
    destruct (reachable_counts s Hreach) as [Hbars Hbuf].
    rewrite Hbars. unfold DocsVisualizer.usableRangeOf. rewrite (Hbuf Hinit).
    split; [lia|vm_compute; discriminate].
Qed.

End SampleCounts.

Lemma buckets_hold_samples_witness :
  (0 < AudioVisualizer.barCount AudioVisualizer.started)%nat
  /\ (Z.of_nat (AudioVisualizer.barCount AudioVisualizer.started)
        <= AudioVisualizer.usableRangeOf AudioVisualizer.started)%Z
  /\ isByteArray (AudioVisualizer.bufferLength AudioVisualizer.started)
                 AudioVisualizer.silence
  /\ (63 < AudioVisualizer.barCount AudioVisualizer.started)%nat
  /\ (1 <= AudioVisualizer.endIndexOf AudioVisualizer.started 63
            - AudioVisualizer.startIndexOf AudioVisualizer.started 63)%Z
  /\ exists q, AudioVisualizer.averageOf AudioVisualizer.started
                 AudioVisualizer.silence 63 = Num q.
Proof.
  assert (HB : (0 < AudioVisualizer.barCount AudioVisualizer.started)%nat)
    by (vm_compute; lia).
  assert (HU : (Z.of_nat (AudioVisualizer.barCount AudioVisualizer.started)
                <= AudioVisualizer.usableRangeOf AudioVisualizer.started)%Z)
    by (vm_compute; discriminate).
  assert (Hi : (63 < AudioVisualizer.barCount AudioVisualizer.started)%nat)
    by (vm_compute; lia).
  split; [exact HB|]. split; [exact HU|].
  split; [exact silence_isByteArray|]. split; [exact Hi|].
  exact (proj1 (@buckets_hold_samples approxMath) AudioVisualizer.started
           AudioVisualizer.silence 63%nat HB HU silence_isByteArray Hi).
Defined.

(** * Further properties of the code *)

Lemma replicate_isByteArray (b : Z) :
  (0 <= b <= 255)%Z -> isByteArray 128 (replicate 128 b).
Proof. intros Hb. split; [reflexivity|]. apply Forall_replicate. exact Hb. Qed.

(** ** The stereo meter: blending, bounds, channels *)

Section StereoMeterElement.
Context `{HostMath}.
Import ChannelMeters.

(** The blended level never overshoots: it lies between the newest earlier
    entry of the history and the new percentage. *)
Theorem blend_stays_between (m : t) (dataArray : list Z) (channel : string)
    (older : list Q) (prev : Q) :
  ~ earlyExit m dataArray channel ->
  historyOf m channel = older ++ [prev] ->
  (2 <= historySize m)%nat ->
  0 <= percentageOf (rmsOf m dataArray channel) ->
  let percentage := percentageOf (rmsOf m dataArray channel) in
  let result := fst (calculateFilteredRMS m dataArray channel) in
  Qmin prev percentage <= result <= Qmax prev percentage.
Proof.
  intros Hreach Hhist Hsize Hpct percentage result.
  unfold result. rewrite calculateFilteredRMS_reached by exact Hreach.
  rewrite (blendWithHistory_value m channel older prev _ Hhist Hsize).
  fold percentage in Hpct |- *.
  set (recentAvg := (prev + percentage) / 2).
  assert (Havg : recentAvg == (prev + percentage) * (1 # 2))
    by (unfold recentAvg, Qdiv; reflexivity).
  destruct (Q.min_spec prev percentage) as [[Hlt Emin]|[Hle Emin]];
    destruct (Q.max_spec prev percentage) as [[Hlt' Emax]|[Hle' Emax]];
    rewrite Emin, Emax;
    destruct (Qgtb percentage recentAvg);
    match goal with
    | |- _ <= Qmax 0 ?b <= _ =>
        destruct (Q.max_spec 0 b) as [[H0 E0]|[H0 E0]]; rewrite E0
    end; split; lra.
Qed.

Lemma sumBytes_bounds (dataArray : list Z) :
  Forall (fun b => (0 <= b <= 255)%Z) dataArray ->
  (0 <= sumBytes dataArray <= 255 * Z.of_nat (length dataArray))%Z.
Proof.
  intros Hbytes. unfold sumBytes.
  assert (Hgen : forall a,
            (a <= fold_left Z.add dataArray a
               <= a + 255 * Z.of_nat (length dataArray))%Z).
  { induction Hbytes as [|b l Hb _ IH]; intros a; simpl fold_left.
    - simpl. lia.
    - specialize (IH (a + b)%Z). rewrite length_cons. lia. }
  specialize (Hgen 0%Z). lia.
Qed.

Lemma mean_bounds (total count cap : Z) :
  (0 <= total <= 255 * cap)%Z -> (0 < count)%Z -> (cap <= count)%Z ->
  0 <= inject_Z total / inject_Z count * (7 # 10) <= 1785 # 10.
Proof.
  intros Htotal Hcount Hcap.
  assert (Hc : 0 < inject_Z count)
    by (change 0 with (inject_Z 0); rewrite <- Zlt_Qlt; exact Hcount).
  assert (Ht0 : 0 <= inject_Z total)
    by (change 0 with (inject_Z 0); rewrite <- Zle_Qle; lia).
  assert (Ht1 : inject_Z total <= 255 * inject_Z count).
  { change 255 with (inject_Z 255). rewrite <- inject_Z_mult, <- Zle_Qle. nia. }
  assert (Hlo : 0 <= inject_Z total / inject_Z count).
  { apply Qle_shift_div_l; [exact Hc|]. lra. }
  assert (Hhi : inject_Z total / inject_Z count <= 255).
  { apply Qle_shift_div_r; [exact Hc|]. exact Ht1. }
  split; lra.
Qed.

Lemma pushHistory_length (size : nat) (history : list Q) (percentage : Q) :
  (length history <= size)%nat ->
  (length (pushHistory size history percentage) <= size)%nat.
Proof.
  intros Hlen. unfold pushHistory.
  destruct (Nat.ltb_spec size (length (history ++ [percentage]))) as [Hlong|Hshort];
    [|exact Hshort].
  rewrite length_app in Hlong. simpl in Hlong.
  destruct history as [|q rest]; simpl in *.
  - lia.
  - rewrite length_app. simpl. lia.
Qed.

(** What a call writes: nothing, or the pushed history of its channel. *)
Lemma calculateFilteredRMS_state (m : t) (dataArray : list Z) (channel : string) :
  snd (calculateFilteredRMS m dataArray channel) = m
  \/ exists percentage,
       snd (calculateFilteredRMS m dataArray channel) =
         setHistory m channel
           (pushHistory (historySize m) (historyOf m channel) percentage).
Proof.
  rewrite calculateFilteredRMS_unfold.
  destruct (_ <? 3)%Z; [left; reflexivity|].
  destruct (Qltb _ _); [left; reflexivity|].
  right. eexists. apply snd_blendWithHistory.
Qed.

Lemma calculateFilteredRMS_bounded_frame (m : t) (dataArray : list Z) (channel : string) :
  let m' := snd (calculateFilteredRMS m dataArray channel) in
  leftBaseline m' = leftBaseline m /\ rightBaseline m' = rightBaseline m
  /\ noiseGate m' = noiseGate m /\ historySize m' = historySize m.
Proof.
  destruct (calculateFilteredRMS_state m dataArray channel) as [->|[pct ->]];
    [repeat split|].
  unfold setHistory. destruct (is_left channel); repeat split.
Qed.

Lemma calculateFilteredRMS_bounded (m : t) (dataArray : list Z) (channel : string) :
  bounded m -> bounded (snd (calculateFilteredRMS m dataArray channel)).
Proof.
  intros Hb.
  destruct (calculateFilteredRMS_state m dataArray channel) as [->|[pct ->]];
    [exact Hb|].
  destruct Hb as (Hsize & Hl & Hr & Hbl & Hbr & Hc).
  unfold bounded, setHistory, historyOf.
  destruct (is_left channel); simpl; rewrite Hsize;
    repeat split; try assumption; try apply Hbl; try apply Hbr; try apply Hc;
    apply pushHistory_length; lia.
Qed.

Lemma animate_bounded (m : t) (leftData rightData : list Z) :
  bounded m -> bounded (snd (animate m leftData rightData)).
Proof.
  intros Hb. unfold animate.
  destruct (negb (isRunning m)); [exact Hb|].
  pose proof (calculateFilteredRMS_bounded m leftData "left" Hb) as H1.
  destruct (calculateFilteredRMS m leftData "left") as [leftLevel m1].
  simpl in H1.
  pose proof (calculateFilteredRMS_bounded m1 rightData "right" H1) as H2.
  destruct (calculateFilteredRMS m1 rightData "right") as [rightLevel m2].
  exact H2.
Qed.

Lemma meter_bounds (m : t) : reachable m -> bounded m.
Proof.
  induction 1 as [|m leftData rightData _ IH _ _
                 |m leftData rightData m' _ IH Hleft Hright Hcal
                 |m leftData rightData _ IH _ _|m _ IH].
  - unfold bounded. simpl. repeat split; try lia; discriminate.
  - unfold start. apply animate_bounded.
    destruct IH as (Hsize & Hl & Hr & _).
    unfold bounded. simpl. repeat split; try assumption; try lia; discriminate.
  - unfold calibrate in Hcal.
    destruct ((calibrationSamples m <? 20)%Z && isRunning m) eqn:Hgo;
      [|injection Hcal as <-; exact IH].
    destruct ((length leftData =? 0)%nat || (length rightData <? length leftData)%nat)
      eqn:Hbad; [discriminate|].
    injection Hcal as <-.
    apply andb_true_iff in Hgo as [Hcount _]. apply Z.ltb_lt in Hcount.
    apply orb_false_iff in Hbad as [Hne Hshort].
    apply Nat.eqb_neq in Hne. apply Nat.ltb_ge in Hshort.
    destruct Hleft as [_ Hlb]. destruct Hright as [_ Hrb].
    pose proof (sumBytes_bounds leftData Hlb) as Hsl.
    pose proof (sumBytes_bounds (take (length leftData) rightData)
                  (Forall_take _ _ _ Hrb)) as Hsr.
    rewrite length_take in Hsr.
    pose proof (mean_bounds (sumBytes leftData) (Z.of_nat (length leftData))
                  (Z.of_nat (length leftData)) Hsl ltac:(lia) ltac:(lia)) as Hml.
    pose proof (mean_bounds (sumBytes (take (length leftData) rightData))
                  (Z.of_nat (length rightData))
                  (Z.of_nat (Nat.min (length leftData) (length rightData)))
                  Hsr ltac:(lia) ltac:(lia)) as Hmr.
    destruct IH as (Hsize & Hl & Hr & Hbl & Hbr & Hc).
    unfold bounded. simpl.
    split; [exact Hsize|]. split; [exact Hl|]. split; [exact Hr|].
    split; [|split; [|lia]].
    + destruct (Q.max_spec (leftBaseline m)
                  (inject_Z (sumBytes leftData) / inject_Z (Z.of_nat (length leftData))
                   * (7 # 10))) as [[_ E]|[_ E]]; rewrite E; split; lra.
    + destruct (Q.max_spec (rightBaseline m)
                  (inject_Z (sumBytes (take (length leftData) rightData))
                   / inject_Z (Z.of_nat (length rightData)) * (7 # 10)))
        as [[_ E]|[_ E]]; rewrite E; split; lra.
  - apply animate_bounded. exact IH.
  - destruct IH as (Hsize & Hl & Hr & Hbl & Hbr & Hc).
    unfold bounded. simpl. repeat split; try assumption; try lia;
      try apply Hbl; try apply Hbr.
Qed.

(** In every state the element reaches, each history holds at most 3
    entries, each baseline lies between 0 and 0.7 * 255 = 178.5, and at
    most 20 calibration samples have been counted. *)
Theorem meter_stays_bounded (m : t) : reachable m -> bounded m.
Proof.
  intros Hreach. destruct (meter_bounds m Hreach) as (Hsize & Hl & Hr & Hbl & Hbr & Hc).
  split; [exact Hsize|]. split; [exact Hl|]. split; [exact Hr|].
  split; [exact Hbl|]. split; [exact Hbr|exact Hc].
Qed.

(** A call for one channel reads only that channel's baseline and
    history, the gate and the history size. *)
Lemma calculateFilteredRMS_reads (m m' : t) (dataArray : list Z) (channel : string) :
  baselineOf m channel = baselineOf m' channel ->
  historyOf m channel = historyOf m' channel ->
  noiseGate m = noiseGate m' -> historySize m = historySize m' ->
  fst (calculateFilteredRMS m dataArray channel)
    = fst (calculateFilteredRMS m' dataArray channel)
  /\ historyOf (snd (calculateFilteredRMS m dataArray channel)) channel
    = historyOf (snd (calculateFilteredRMS m' dataArray channel)) channel.
Proof.
  intros Hbase Hhist Hgate Hsize.
  rewrite !calculateFilteredRMS_unfold.
  unfold rmsOf, validSamplesOf. rewrite Hbase, Hgate.
  destruct (_ <? 3)%Z; [split; [reflexivity|exact Hhist]|].
  destruct (Qltb _ _); [split; [reflexivity|exact Hhist]|].
  rewrite !snd_blendWithHistory, !historyOf_setHistory.
  unfold blendWithHistory. rewrite Hhist, Hsize.
  split; [|reflexivity].
  destruct (length _ <? 2)%nat; [reflexivity|].
  destruct (Qgtb _ _); reflexivity.
Qed.

(** A call for one channel leaves the other channel's history alone. *)
Lemma calculateFilteredRMS_other (m : t) (dataArray : list Z) (channel other : string) :
  is_left other = negb (is_left channel) ->
  historyOf (snd (calculateFilteredRMS m dataArray channel)) other
    = historyOf m other.
Proof.
  intros Hother.
  destruct (calculateFilteredRMS_state m dataArray channel) as [->|[pct ->]];
    [reflexivity|].
  unfold setHistory, historyOf. rewrite Hother.
  destruct (is_left channel); reflexivity.
Qed.

(** The two channels of one tick do not interact: each bar shows what its
    own call gives on the state before the tick, and each history ends up
    as that call alone leaves it. *)
Theorem channels_do_not_interact (m : t) (leftData rightData : list Z) :
  isRunning m = true ->
  let left := calculateFilteredRMS m leftData "left" in
  let right := calculateFilteredRMS m rightData "right" in
  fst (animate m leftData rightData)
    = Some (updateBar (fst left), updateBar (fst right))
  /\ leftHistory (snd (animate m leftData rightData)) = leftHistory (snd left)
  /\ rightHistory (snd (animate m leftData rightData)) = rightHistory (snd right).
Proof.
  intros Hrun left right. unfold animate. rewrite Hrun. cbn [negb].
  fold left.
  pose proof (calculateFilteredRMS_state m leftData "left") as Hstate.
  fold left in Hstate.
  pose proof (calculateFilteredRMS_other m leftData "left" "right" eq_refl) as Hright.
  fold left in Hright.
  pose proof (calculateFilteredRMS_bounded_frame m leftData "left") as Hframe.
  fold left in Hframe.
  destruct left as [leftLevel m1]. cbn [fst snd] in *.
  destruct Hframe as (Hbl & Hbr & Hgate & Hsize).
  destruct (calculateFilteredRMS_reads m1 m rightData "right") as [Hlevel Hhist];
    [exact Hbr|exact Hright|exact Hgate|exact Hsize|].
  pose proof (calculateFilteredRMS_other m1 rightData "right" "left" eq_refl) as Hleft.
  fold right in Hlevel, Hhist.
  destruct (calculateFilteredRMS m1 rightData "right") as [rightLevel m2].
  cbn [fst snd] in *.
  split; [rewrite Hlevel; reflexivity|].
  split; [exact Hleft|exact Hhist].
Qed.

Lemma animate_gate (m : t) (leftData rightData : list Z) :
  noiseGate (snd (animate m leftData rightData)) = noiseGate m.
Proof.
  unfold animate. destruct (negb (isRunning m)); [reflexivity|].
  destruct (calculateFilteredRMS_bounded_frame m leftData "left") as (_ & _ & Hg1 & _).
  destruct (calculateFilteredRMS m leftData "left") as [leftLevel m1].
  destruct (calculateFilteredRMS_bounded_frame m1 rightData "right") as (_ & _ & Hg2 & _).
  destruct (calculateFilteredRMS m1 rightData "right") as [rightLevel m2].
  cbn [snd] in *. congruence.
Qed.

Lemma reachable_gate (m : t) : reachable m -> noiseGate m = 25.
Proof.
  induction 1 as [|m leftData rightData _ IH _ _
                 |m leftData rightData m' _ IH _ _ Hcal
                 |m leftData rightData _ IH _ _|m _ IH].
  - reflexivity.
  - unfold start. rewrite animate_gate. exact IH.
  - unfold calibrate in Hcal.
    destruct ((calibrationSamples m <? 20)%Z && isRunning m);
      [|injection Hcal as <-; exact IH].
    destruct ((length leftData =? 0)%nat || (length rightData <? length leftData)%nat);
      [discriminate|].
    injection Hcal as <-. exact IH.
  - rewrite animate_gate. exact IH.
  - exact IH.
Qed.

(** No bin of a quiet array clears the gate. *)
Lemma gateLoop_quiet (gate baseline : Q) (dataArray : list Z) :
  0 <= baseline -> 0 <= gate ->
  Forall (fun b => inject_Z b <= gate) dataArray ->
  gateLoop gate baseline dataArray = (0, 0%Z).
Proof.
  intros Hbase Hgate Hquiet. unfold gateLoop.
  generalize (0 : Q, 0%Z). induction Hquiet as [|b l Hb _ IH]; intros acc;
    [reflexivity|].
  cbn [fold_left]. unfold gateStep at 2.
  assert (Hclosed : Qgtb (Qmax 0 (inject_Z b - baseline)) gate = false).
  { apply Qgtb_false. apply Q.max_lub; lra. }
  rewrite Hclosed. apply IH.
Qed.

(** On a running meter in any reachable state, arrays whose bytes are all
    at or below the gate 25 read as 0 on both channels: the bars show 0%
    with the faintest glow and the tick leaves the meter as it was. *)
Theorem quiet_input_shows_empty_bars (m : t) (leftData rightData : list Z) :
  reachable m -> isRunning m = true ->
  Forall (fun b => (b <= 25)%Z) leftData ->
  Forall (fun b => (b <= 25)%Z) rightData ->
  animate m leftData rightData =
    (Some ({| width := 0; valueLabel := 0; boxShadow := Faint |},
           {| width := 0; valueLabel := 0; boxShadow := Faint |}), m).
Proof.
  intros Hreach Hrun Hleft Hright.
  destruct (meter_bounds m Hreach) as (_ & _ & _ & [Hbl _] & [Hbr _] & _).
  pose proof (reachable_gate m Hreach) as Hgate.
  assert (Hquiet : forall dataArray channel,
            Forall (fun b => (b <= 25)%Z) dataArray ->
            calculateFilteredRMS m dataArray channel = (0, m)).
  { intros dataArray channel Hq.
    apply calculateFilteredRMS_early. left. unfold validSamplesOf.
    rewrite gateLoop_quiet; [reflexivity| |rewrite Hgate; discriminate|].
    - unfold baselineOf. destruct (is_left channel); assumption.
    - rewrite Hgate. eapply Forall_impl; [exact Hq|].
      intros b Hb. cbn beta in Hb |- *.
      change 25 with (inject_Z 25). rewrite <- Zle_Qle. exact Hb. }
  unfold animate. rewrite Hrun. cbn [negb].
  rewrite (Hquiet leftData "left" Hleft), (Hquiet rightData "right" Hright).
  reflexivity.
Qed.

Lemma calibrateAll_idle (m : t) (frames : list (list Z * list Z)) :
  (20 <= calibrationSamples m)%Z \/ isRunning m = false ->
  calibrateAll m frames = Some m.
Proof.
  intros Hidle. induction frames as [|[leftData rightData] rest IH]; [reflexivity|].
  cbn [calibrateAll]. unfold calibrate.
  replace ((calibrationSamples m <? 20)%Z && isRunning m) with false; [exact IH|].
  symmetry. apply andb_false_iff.
  destruct Hidle as [Hfull|Hstopped]; [left; apply Z.ltb_ge; lia|right; exact Hstopped].
Qed.

Lemma calibrateAll_app (m : t) (front back : list (list Z * list Z)) :
  calibrateAll m (front ++ back) =
  match calibrateAll m front with
  | Some m' => calibrateAll m' back
  | None => None
  end.
Proof.
  revert m. induction front as [|[leftData rightData] rest IH]; intros m; [reflexivity|].
  cbn [app calibrateAll].
  destruct (calibrate m leftData rightData) as [m1|]; [apply IH|reflexivity].
Qed.

Lemma calibrateAll_running (m : t) (frames : list (list Z * list Z)) :
  isRunning m = true ->
  (calibrationSamples m + Z.of_nat (length frames) <= 20)%Z ->
  Forall (fun frame => isByteArray 128 frame.1 /\ isByteArray 128 frame.2) frames ->
  exists m',
    calibrateAll m frames = Some m'
    /\ isRunning m' = true
    /\ calibrationSamples m' = (calibrationSamples m + Z.of_nat (length frames))%Z
    /\ leftBaseline m <= leftBaseline m'
    /\ rightBaseline m <= rightBaseline m'.
Proof.
  intros Hrun Hcount Hframes. revert m Hrun Hcount.
  induction Hframes as [|[leftData rightData] rest [[Hl _] [Hr _]] _ IH];
    intros m Hrun Hcount.
  - exists m. cbn [calibrateAll length].
    split; [reflexivity|]. split; [exact Hrun|]. split; [lia|]. split; lra.
  - cbn [fst snd] in Hl, Hr. cbn [length] in Hcount.
    assert (Hll : length leftData = 128%nat) by lia.
    assert (Hlr : length rightData = 128%nat) by lia.
    cbn [calibrateAll]. unfold calibrate at 1. rewrite Hrun, Hll, Hlr.
    replace (calibrationSamples m <? 20)%Z with true
      by (symmetry; apply Z.ltb_lt; lia).
    cbn [andb Nat.eqb Nat.ltb Nat.leb orb].
    set (m1 := {| isRunning := true; leftBaseline := _; rightBaseline := _;
                  calibrationSamples := _; leftHistory := _; rightHistory := _;
                  historySize := _; noiseGate := _ |}).
    destruct (IH m1 eq_refl) as (m' & Hall & Hrun' & Hc & Hbl & Hbr).
    { unfold m1. cbn [calibrationSamples]. lia. }
    exists m'. split; [exact Hall|]. split; [exact Hrun'|].
    split; [rewrite Hc; unfold m1; cbn [calibrationSamples length]; lia|].
    unfold m1 in Hbl, Hbr. cbn [leftBaseline rightBaseline] in Hbl, Hbr.
    split; [eapply Qle_trans; [apply Q.le_max_l|exact Hbl]
           |eapply Qle_trans; [apply Q.le_max_l|exact Hbr]].
Qed.

(** The calibration reads the first 20 frames and no more, and no step of
    it lowers a baseline.  After [calibrateBaseline], one step per frame of
    128 bytes a channel ends in the state the first 20 frames alone lead
    to; on a running meter the sample count is the number of frames, 20 at
    most, and on a stopped one the steps change nothing; and the baselines
    reached after any number of the frames are at most the final ones.
    These are facts of the counter and of [Math.max], which hold of the
    doubles of a run as they do of the rationals here. *)
Theorem calibration_reads_first_twenty_frames (m : t)
    (frames : list (list Z * list Z)) :
  Forall (fun frame => isByteArray 128 frame.1 /\ isByteArray 128 frame.2) frames ->
  exists m',
    calibrateAll (calibrateBaseline m) frames = Some m'
    /\ calibrateAll (calibrateBaseline m) (take 20 frames) = Some m'
    /\ (isRunning m = true ->
        calibrationSamples m' = Z.of_nat (Nat.min 20 (length frames)))
    /\ (isRunning m = false -> m' = calibrateBaseline m)
    /\ (forall k mk,
          calibrateAll (calibrateBaseline m) (take k frames) = Some mk ->
          leftBaseline mk <= leftBaseline m' /\ rightBaseline mk <= rightBaseline m')
    /\ (forall leftData rightData,
          (20 <= length frames)%nat \/ isRunning m = false ->
          calibrate m' leftData rightData = Some m').
Proof.
  intros Hframes. set (m0 := calibrateBaseline m).
  destruct (isRunning m) eqn:Hrun.
  - assert (Hrun0 : isRunning m0 = true) by exact Hrun.
    assert (Hfirst : forall l : list (list Z * list Z),
              Forall (fun frame => isByteArray 128 frame.1 /\ isByteArray 128 frame.2) l ->
              exists m', calibrateAll m0 (take 20 l) = Some m'
                /\ calibrateAll m0 l = Some m'
                /\ isRunning m' = true
                /\ calibrationSamples m' = Z.of_nat (Nat.min 20 (length l))).
    { intros l Hl.
      destruct (calibrateAll_running m0 (take 20 l) Hrun0) as (m' & Hall & Hrun' & Hc & _).
      { change (calibrationSamples m0) with 0%Z. rewrite length_take. lia. }
      { apply Forall_take. exact Hl. }
      change (calibrationSamples m0) with 0%Z in Hc. rewrite length_take in Hc.
      exists m'. split; [exact Hall|]. split; [|split; [exact Hrun'|lia]].
      rewrite <- (take_drop 20 l) at 1. rewrite calibrateAll_app, Hall.
      destruct (Nat.le_gt_cases (length l) 20) as [Hshort|Hlong].
      - rewrite drop_ge by lia. reflexivity.
      - apply calibrateAll_idle. left. lia. }
    destruct (Hfirst frames Hframes) as (m' & Htake & Hall & Hrun' & Hcount).
    exists m'. split; [exact Hall|]. split; [exact Htake|].
    split; [intros _; exact Hcount|]. split; [discriminate|]. split.
    + intros k mk Hk.
      destruct (Hfirst (take k frames) (Forall_take _ _ _ Hframes))
        as (m1 & Htake1 & Hall1 & Hrun1 & Hcount1).
      rewrite Hk in Hall1. injection Hall1 as <-.
      rewrite take_take in Htake1. rewrite length_take in Hcount1.
      set (j := Nat.min 20 k) in *.
      assert (Hsplit : take 20 frames = take j frames ++ drop j (take 20 frames)).
      { rewrite <- (take_drop j (take 20 frames)) at 1. rewrite take_take.
        replace (Nat.min j 20) with j by (unfold j; lia). reflexivity. }
      rewrite Hsplit, calibrateAll_app, Htake1 in Htake.
      destruct (calibrateAll_running mk (drop j (take 20 frames)) Hrun1)
        as (m2 & Hall2 & _ & _ & Hbl & Hbr).
      { rewrite Hcount1, length_drop, length_take. lia. }
      { apply Forall_drop, Forall_take. exact Hframes. }
      rewrite Hall2 in Htake. injection Htake as <-. split; assumption.
    + intros leftData rightData Hidle.
      destruct Hidle as [Hfull|Hstopped]; [|discriminate].
      unfold calibrate.
      replace (calibrationSamples m' <? 20)%Z with false
        by (symmetry; apply Z.ltb_ge; lia).
      reflexivity.
  - assert (Hidle : forall l, calibrateAll m0 l = Some m0).
    { intros l. apply calibrateAll_idle. right. exact Hrun. }
    exists m0. split; [apply Hidle|]. split; [apply Hidle|].
    split; [discriminate|]. split; [reflexivity|]. split.
    + intros k mk Hk. rewrite Hidle in Hk. injection Hk as <-. split; lra.
    + intros leftData rightData _. unfold calibrate.
      replace (isRunning m0) with false by (symmetry; exact Hrun).
      rewrite andb_false_r. reflexivity.
Qed.

End StereoMeterElement.

Lemma blend_stays_between_witness :
  let m := ChannelMeters.setHistory ChannelMeters.new "left" [50] in
  let data := [120; 90; 70]%Z in
  let percentage :=
    @ChannelMeters.percentageOf approxMath
      (@ChannelMeters.rmsOf approxMath m data "left") in
  let result := fst (@ChannelMeters.calculateFilteredRMS approxMath m data "left") in
  ~ @ChannelMeters.earlyExit approxMath m data "left"
  /\ 0 <= percentage
  /\ Qmin 50 percentage <= result <= Qmax 50 percentage.
Proof.
  intros m data percentage result.
  assert (Hreach : ~ @ChannelMeters.earlyExit approxMath m data "left").
  { intros [Hv | Hr]; vm_compute in Hv || vm_compute in Hr; discriminate. }
  assert (Hpct : 0 <= percentage) by (vm_compute; discriminate).
  split; [exact Hreach|]. split; [exact Hpct|].
  apply (@blend_stays_between approxMath m data "left" [] 50 Hreach eq_refl);
    [simpl; lia|exact Hpct].
Defined.

Lemma channels_do_not_interact_witness :
  let m := ChannelMeters.withRunning
             (ChannelMeters.setHistory ChannelMeters.new "left" [50]) true in
  let leftData := [120; 90; 70]%Z in
  let rightData := [200; 10; 200; 0]%Z in
  ChannelMeters.isRunning m = true
  /\ ChannelMeters.rightHistory
       (snd (@ChannelMeters.animate approxMath m leftData rightData))
     = ChannelMeters.rightHistory
         (snd (@ChannelMeters.calculateFilteredRMS approxMath m rightData "right")).
Proof.
  intros m leftData rightData.
  split; [reflexivity|].
  apply (@channels_do_not_interact approxMath m leftData rightData eq_refl).
Defined.


Lemma calibration_reads_first_twenty_frames_witness :
  let m := ChannelMeters.withRunning ChannelMeters.new true in
  let frames := replicate 22 (replicate 128 40%Z, replicate 128 10%Z) in
  Forall (fun frame => isByteArray 128 frame.1 /\ isByteArray 128 frame.2) frames
  /\ exists m',
    ChannelMeters.calibrateAll (ChannelMeters.calibrateBaseline m) frames = Some m'
    /\ ChannelMeters.calibrateAll (ChannelMeters.calibrateBaseline m) (take 20 frames)
       = Some m'
    /\ ChannelMeters.calibrationSamples m' = 20%Z.
Proof.
  intros m frames.
  assert (Hframes : Forall (fun frame => isByteArray 128 frame.1
                                         /\ isByteArray 128 frame.2) frames).
  { apply Forall_replicate. split; apply replicate_isByteArray; lia. }
  split; [exact Hframes|].
  destruct (calibration_reads_first_twenty_frames m frames Hframes)
    as (m' & Hall & Htake & Hcount & _).
  exists m'. split; [exact Hall|]. split; [exact Htake|]. exact (Hcount eq_refl).
Defined.

Lemma quiet_input_shows_empty_bars_witness :
  let quiet := replicate 128 20%Z in
  let m := snd (@ChannelMeters.start approxMath ChannelMeters.new quiet quiet) in
  @ChannelMeters.reachable approxMath m
  /\ ChannelMeters.isRunning m = true
  /\ @ChannelMeters.animate approxMath m quiet quiet =
       (Some ({| ChannelMeters.width := 0; ChannelMeters.valueLabel := 0;
                 ChannelMeters.boxShadow := ChannelMeters.Faint |},
              {| ChannelMeters.width := 0; ChannelMeters.valueLabel := 0;
                 ChannelMeters.boxShadow := ChannelMeters.Faint |}), m).
Proof.
  intros quiet m.
  assert (Hdata : isByteArray ChannelMeters.frequencyBinCount quiet).
  { split; [reflexivity|]. apply Forall_replicate. lia. }
  assert (Hquiet : Forall (fun b => (b <= 25)%Z) quiet)
    by (apply Forall_replicate; lia).
  assert (Hreach : @ChannelMeters.reachable approxMath m)
    by (apply ChannelMeters.reach_start;
        [apply ChannelMeters.reach_new|exact Hdata|exact Hdata]).
  assert (Hrun : ChannelMeters.isRunning m = true) by (vm_compute; reflexivity).
  split; [exact Hreach|]. split; [exact Hrun|].
  exact (@quiet_input_shows_empty_bars approxMath m quiet quiet Hreach Hrun Hquiet Hquiet).
Defined.

Lemma meter_stays_bounded_witness :
  let data := replicate 128 200%Z in
  let m := snd (@ChannelMeters.start approxMath ChannelMeters.new data data) in
  @ChannelMeters.reachable approxMath m /\ ChannelMeters.bounded m.
Proof.
  intros data m.
  assert (Hdata : isByteArray ChannelMeters.frequencyBinCount data).
  { split; [reflexivity|]. apply Forall_replicate. lia. }
  assert (Hreach : @ChannelMeters.reachable approxMath m)
    by (apply ChannelMeters.reach_start;
        [apply ChannelMeters.reach_new|exact Hdata|exact Hdata]).
  split; [exact Hreach|].
  exact (@meter_stays_bounded approxMath m Hreach).
Defined.


(** ** The drawn spectrum *)

Section Drawing.
Import AudioVisualizer.

Lemma Forall_removelast {A : Type} (P : A -> Prop) (l : list A) :
  Forall P l -> Forall P (removelast l).
Proof.
  induction 1 as [|x l Hx Hl IH]; [constructor|].
  destruct l as [|y l]; [constructor|].
  change (removelast (x :: y :: l)) with (x :: removelast (y :: l)).
  constructor; assumption.
Qed.

Lemma barsInRange_snapshot (s : t) :
  configured s -> barsInRange s -> snapshotInRange (barSmoothValues s).
Proof.
  intros (_ & _ & Hlen & _) Hin. split; [exact Hlen|].
  apply Forall_lookup. intros i v Hv.
  assert (Hi : (i < 64)%nat) by (rewrite <- Hlen; exact (lookup_lt_Some _ _ _ Hv)).
  destruct (Hin i Hi) as (a & p & [Ha _] & H0 & Hap & Hp).
  rewrite Ha in Hv. injection Hv as <-. simpl. split; lra.
Qed.

Lemma animate_historyInRange (s : t) (dataArray : list Z) (currentTime : Z) :
  configured s -> isByteArray frequencyBinCount dataArray -> barsInRange s ->
  historyInRange s -> historyInRange (animate s dataArray currentTime).
Proof.
  intros Hcfg Hdata Hin Hhist.
  destruct (animate_inRange s dataArray currentTime Hcfg Hdata Hin) as [Hcfg' Hin'].
  pose proof (barsInRange_snapshot _ Hcfg' Hin') as Hsnap.
  revert Hsnap. unfold animate.
  destruct (isRunning s) eqn:Hrun; cbn [negb]; [|intros _; exact Hhist].
  assert (Hinit : initialised s = true) by (apply Hcfg; exact Hrun).
  destruct (barLoop_prefix s dataArray currentTime 64 Hcfg Hinit Hdata
              (barsInRange_finite s Hin) (le_n _))
    as (smooth & peaks & times & Hloop & _).
  unfold barLoop.
  replace (barCount s) with 64%nat by (symmetry; apply Hcfg).
  rewrite Hloop. unfold updateSpectrumHistory, historyInRange.
  cbn [withHistory withBars maxHistoryLayers spectrumHistory barSmoothValues].
  destruct Hhist as (Hmax & Hlen & Hall). rewrite Hmax.
  intros Hsnap.
  split; [reflexivity|].
  destruct (Nat.ltb_spec 10 (length (smooth :: spectrumHistory s))) as [Hlong|Hshort].
  - split; [rewrite length_removelast_cons; exact Hlen|].
    apply Forall_removelast. constructor; assumption.
  - split; [exact Hshort|]. constructor; assumption.
Qed.

Lemma reachable_historyInRange (s : t) : reachable s -> historyInRange s.
Proof.
  induction 1 as [|s Hreach IH|s dataArray currentTime s' Hreach IH Hdata Hstart
                 |s dataArray currentTime Hreach IH Hdata|s Hreach IH].
  - split; [reflexivity|]. split; [simpl; lia|constructor].
  - exact IH.
  - destruct (reachable_invariant s Hreach) as [Hcfg Hin].
    unfold start in Hstart. destruct (initialised s) eqn:Hinit; [|discriminate].
    injection Hstart as <-.
    apply animate_historyInRange; [|exact Hdata|exact Hin|exact IH].
    destruct Hcfg as (Hbars & Hfactor & Hls & Hlp & Hlt & Hri & Hbuf).
    unfold configured. simpl. repeat split; try assumption. intros _. exact Hinit.
  - destruct (reachable_invariant s Hreach) as [Hcfg Hin].
    apply animate_historyInRange; assumption.
  - destruct IH as (Hmax & _ & _).
    split; [exact Hmax|]. split; [simpl; lia|constructor].
Qed.

(** The geometry of one bar of one layer, on plain numbers: [W] and [H]
    are the canvas size, [L] the layer, [I] the bar and [a] its height in
    percent. *)
Lemma bar_geometry (W H L I a : Q) :
  63 <= W -> 0 <= H -> 0 <= L <= 9 -> 0 <= I <= 63 -> 0 <= a <= 100 ->
  let scale := 1 - L * (5 # 100) in
  let base := (W - (64 - 1) * 1) / (64 + 2) in
  let barWidth := base * scale in
  let barSpacing := 1 * scale in
  let marginWidth := base * scale in
  let totalWidth := 64 * barWidth + (64 - 1) * barSpacing + 2 * marginWidth in
  let startX := (W - totalWidth) / 2 + marginWidth in
  let x := startX + I * (barWidth + barSpacing) in
  let h := a / 100 * H * (7 # 10) * scale in
  let y := H * (9 # 10) - L * (H * (5 # 100)) - h in
  0 <= x /\ 0 <= barWidth /\ x + barWidth <= W
  /\ 0 <= y /\ 0 <= h /\ y + h <= H.
Proof.
  intros HW HH [HL0 HL9] [HI0 HI63] [Ha0 Ha100]
         scale base barWidth barSpacing marginWidth totalWidth startX x h y.
  assert (Hbase : 66 * base == W - 63) by (unfold base; field).
  assert (Hb0 : 0 <= base) by lra.
  assert (Hs : 55 # 100 <= scale <= 1) by (unfold scale; lra).
  assert (Hbs : 0 <= base * scale) by (apply Qmult_le_0_compat; lra).
  assert (HIs : 0 <= I * scale) by (apply Qmult_le_0_compat; lra).
  assert (HIbs : 0 <= I * (base * scale)) by (apply Qmult_le_0_compat; lra).
  assert (HJs : 0 <= (63 - I) * scale) by (apply Qmult_le_0_compat; lra).
  assert (HJbs : 0 <= (63 - I) * (base * scale)) by (apply Qmult_le_0_compat; lra).
  assert (HWs : 0 <= W * (1 - scale)) by (apply Qmult_le_0_compat; lra).
  assert (HWeq : W == 66 * base + 63) by lra.
  assert (HWsc : W * scale == 66 * (base * scale) + 63 * scale)
    by (rewrite HWeq; ring).
  assert (Hx : x == (W - W * scale) / 2 + base * scale
                    + I * (base * scale) + I * scale).
  { unfold x, startX, totalWidth, barWidth, barSpacing, marginWidth.
    rewrite HWsc. field. }
  assert (HHs : 0 <= H * scale) by (apply Qmult_le_0_compat; lra).
  assert (Hah : 0 <= a * (H * scale)) by (apply Qmult_le_0_compat; lra).
  assert (Hbh : 0 <= (100 - a) * (H * scale)) by (apply Qmult_le_0_compat; lra).
  assert (HLH : 0 <= L * H) by (apply Qmult_le_0_compat; lra).
  assert (HMH : 0 <= (9 - L) * H) by (apply Qmult_le_0_compat; lra).
  assert (Hh : h == (7 # 1000) * (a * (H * scale))) by (unfold h; field).
  assert (HHsc : H * scale == H - (5 # 100) * (L * H)) by (unfold scale; ring).
  assert (Hy : y == H * (9 # 10) - (5 # 100) * (L * H) - h) by (unfold y; ring).
  split; [rewrite Hx; unfold Qdiv; change (/ 2) with (1 # 2); lra|].
  split; [exact Hbs|].
  split; [rewrite Hx; unfold barWidth, Qdiv; change (/ 2) with (1 # 2); lra|].
  split; [rewrite Hy, Hh; lra|].
  split; [rewrite Hh; lra|].
  rewrite Hy. lra.
Qed.

Lemma drawBar_inside (s : t) (c : canvas) (layer i : nat) (a : Q) :
  barCount s = 64%nat -> maxHistoryLayers s = 10%nat ->
  63 <= canvasWidth c -> 0 <= canvasHeight c ->
  (layer < 10)%nat -> (i < 64)%nat -> 0 <= a <= 100 ->
  let opacity :=
    1 - inject_Z (Z.of_nat layer) / inject_Z (Z.of_nat (maxHistoryLayers s)) in
  let depth := inject_Z (Z.of_nat layer) * depthSpacing c in
  let scale := 1 - inject_Z (Z.of_nat layer) * (5 # 100) in
  let barWidth := baseBarWidth s c * scale in
  let barSpacing := baseBarSpacing * scale in
  let marginWidth := marginWidth s c * scale in
  let count := inject_Z (Z.of_nat (barCount s)) in
  let totalWidth := count * barWidth + (count - 1) * barSpacing + 2 * marginWidth in
  let startX := (canvasWidth c - totalWidth) / 2 + marginWidth in
  let baseY := canvasHeight c * (9 # 10) - depth in
  forall f,
    In f (drawBar c startX barWidth barSpacing baseY opacity scale
            (layer =? 0)%nat i (Num a)) ->
    insideCanvas c f.
Proof.
  intros Hbars Hmax HW HH Hlayer Hi Ha.
  assert (HL : 0 <= inject_Z (Z.of_nat layer) <= 9).
  { split; [change 0 with (inject_Z 0)|change 9 with (inject_Z 9)];
      rewrite <- Zle_Qle; lia. }
  assert (HI : 0 <= inject_Z (Z.of_nat i) <= 63).
  { split; [change 0 with (inject_Z 0)|change 63 with (inject_Z 63)];
      rewrite <- Zle_Qle; lia. }
  pose proof (bar_geometry (canvasWidth c) (canvasHeight c)
                (inject_Z (Z.of_nat layer)) (inject_Z (Z.of_nat i)) a
                HW HH HL HI Ha) as Hgeo.
  cbv zeta in Hgeo.
  unfold marginWidth, baseBarWidth, baseBarSpacing, depthSpacing.
  rewrite Hbars, Hmax. cbv zeta.
  set (L := inject_Z (Z.of_nat layer)) in *.
  set (I := inject_Z (Z.of_nat i)) in *.
  change (inject_Z (Z.of_nat 64)) with 64.
  change (inject_Z (Z.of_nat 10)) with 10.
  set (opacity := 1 - L / 10).
  assert (Hop : 1 # 10 <= opacity <= 1).
  { unfold opacity, Qdiv. change (/ 10) with (1 # 10). lra. }
  assert (Halpha : 0 < (if (layer =? 0)%nat then Qmin 1 (opacity + (3 # 10))
                       else opacity * (8 # 10)) <= 1).
  { destruct (layer =? 0)%nat.
    - destruct (Q.min_spec 1 (opacity + (3 # 10))) as [[Hm E]|[Hm E]];
        rewrite E; split; lra.
    - split; lra. }
  assert (Hrect : forall blur, 0 <= blur <= 12 ->
            insideCanvas c
              {| fx := (canvasWidth c
                        - (64 * ((canvasWidth c - (64 - 1) * 1) / (64 + 2)
                                 * (1 - L * (5 # 100)))
                           + (64 - 1) * (1 * (1 - L * (5 # 100)))
                           + 2 * ((canvasWidth c - (64 - 1) * 1) / (64 + 2)
                                  * (1 - L * (5 # 100))))) / 2
                       + (canvasWidth c - (64 - 1) * 1) / (64 + 2)
                         * (1 - L * (5 # 100))
                       + I * ((canvasWidth c - (64 - 1) * 1) / (64 + 2)
                              * (1 - L * (5 # 100))
                              + 1 * (1 - L * (5 # 100)));
                 fy := jsub (Num (canvasHeight c * (9 # 10)
                                  - L * (canvasHeight c * (5 # 100))))
                            (jmul (jmul (jmul (jdiv_count (Num a) 100)
                                              (Num (canvasHeight c)))
                                        (Num (7 # 10)))
                                  (Num (1 - L * (5 # 100))));
                 fwidth := (canvasWidth c - (64 - 1) * 1) / (64 + 2)
                           * (1 - L * (5 # 100));
                 fheight := jmul (jmul (jmul (jdiv_count (Num a) 100)
                                             (Num (canvasHeight c)))
                                       (Num (7 # 10)))
                                 (Num (1 - L * (5 # 100)));
                 falpha := if (layer =? 0)%nat then Qmin 1 (opacity + (3 # 10))
                           else opacity * (8 # 10);
                 fblur := blur |}).
  { intros blur Hblur.
    destruct Hgeo as (Hx0 & Hw0 & Hxw & Hy0 & Hh0 & Hyh).
    eexists _, _. cbn [fx fy fwidth fheight falpha fblur].
    split; [reflexivity|]. split; [reflexivity|].
    split; [exact Hx0|]. split; [exact Hw0|]. split; [exact Hxw|].
    split; [exact Hy0|]. split; [exact Hh0|]. split; [exact Hyh|].
    split; [exact Halpha|exact Hblur]. }
  intros f Hf. unfold drawBar in Hf.
  assert (H0 : 0 <= 0 <= 12) by (split; lra).
  assert (H12 : 0 <= 12 * opacity <= 12) by (split; lra).
  assert (H6 : 0 <= 6 * opacity <= 12) by (split; lra).
  destruct ((layer =? 0)%nat && jgt (Num a) (Num 70));
    [|destruct ((layer =? 0)%nat && jgt (Num a) (Num 40))];
    simpl in Hf; repeat (destruct Hf as [<-|Hf]; [apply Hrect; assumption|]);
    contradiction.
Qed.

(** In every state the element reaches, on a canvas at least 63 wide,
    every rectangle the 3D spectrum fills lies on the canvas above its
    baseline, with an alpha in (0, 1] and a shadow blur in [0, 12]. *)
Theorem drawn_bars_lie_on_canvas (s : t) (c : canvas) :
  reachable s -> 63 <= canvasWidth c -> 0 <= canvasHeight c ->
  Forall (insideCanvas c) (draw3DSpectrum s c).
Proof.
  intros Hreach HW HH.
  destruct (reachable_invariant s Hreach) as [(Hbars & _) _].
  destruct (reachable_historyInRange s Hreach) as (Hmax & Hlen & Hall).
  apply List.Forall_forall. intros f Hf.
  unfold draw3DSpectrum in Hf. apply in_flat_map in Hf as (layer & Hlayer & Hf).
  apply in_rev, in_seq in Hlayer.
  unfold drawLayer in Hf.
  destruct (spectrumHistory s !! layer) as [spectrum|] eqn:Hspec; [|contradiction].
  destruct (proj1 (Forall_lookup _ _) Hall layer spectrum Hspec) as [Hsl Hsv].
  unfold drawSpectrumLayer in Hf.
  apply in_concat in Hf as (fills & Hfills & Hf).
  apply list_elem_of_In, elem_of_lookup_imap in Hfills as (i & v & -> & Hv).
  assert (Hi : (i < 64)%nat) by (rewrite <- Hsl; exact (lookup_lt_Some _ _ _ Hv)).
  pose proof (proj1 (Forall_lookup _ _) Hsv i v Hv) as Hrange.
  destruct v as [a|]; [|contradiction].
  apply (drawBar_inside s c layer i a Hbars Hmax HW HH ltac:(lia) Hi Hrange f Hf).
Qed.

End Drawing.

Lemma drawn_bars_lie_on_canvas_witness :
  let s := AudioVisualizer.animate AudioVisualizer.started AudioVisualizer.silence 0 in
  let c := AudioVisualizer.setupCanvas 0 0 in
  AudioVisualizer.reachable s
  /\ 63 <= AudioVisualizer.canvasWidth c /\ 0 <= AudioVisualizer.canvasHeight c
  /\ Forall (AudioVisualizer.insideCanvas c) (AudioVisualizer.draw3DSpectrum s c).
Proof.
  intros s c.
  assert (Hreach : AudioVisualizer.reachable s).
  { apply (AudioVisualizer.reach_start
             (AudioVisualizer.initAudio AudioVisualizer.new)
             AudioVisualizer.silence 0%Z).
    - apply AudioVisualizer.reach_initAudio, AudioVisualizer.reach_new.
    - exact silence_isByteArray.
    - reflexivity. }
  assert (HW : 63 <= AudioVisualizer.canvasWidth c) by (vm_compute; discriminate).
  assert (HH : 0 <= AudioVisualizer.canvasHeight c) by (vm_compute; discriminate).
  split; [exact Hreach|]. split; [exact HW|]. split; [exact HH|].
  exact (drawn_bars_lie_on_canvas s c Hreach HW HH).
Defined.


(** ** The published build: levels, energies and the background *)

Section DocsLevels.
Context `{HostMath}.
Import DocsVisualizer.

Lemma fold_left_invariant_in {A B : Type} (P : A -> Prop) (f : A -> B -> A)
    (l : list B) (a : A) :
  P a -> (forall x b, In b l -> P x -> P (f x b)) -> P (fold_left f l a).
Proof.
  revert a. induction l as [|b l IH]; intros a Ha Hstep; [exact Ha|].
  simpl. apply IH.
  - apply Hstep; [left; reflexivity|exact Ha].
  - intros x b' Hin. apply Hstep. right. exact Hin.
Qed.

Lemma docs_trackBar_finite (s : t) (currentTime : Z) (i : nat) (h a p : Q) :
  (i < length (barSmoothValues s))%nat ->
  (i < length (barPeaks s))%nat ->
  (i < length (barPeakTimes s))%nat ->
  barSmoothValues s !! i = Some (Num a) -> barPeaks s !! i = Some (Num p) ->
  exists a' p' times,
    trackBar s currentTime i (Num h) =
      (withBars s (<[i := Num a']> (barSmoothValues s))
                  (<[i := Num p']> (barPeaks s)) times, Num a')
    /\ length times = length (barPeakTimes s)
    /\ barAdvance (smoothingFactor s) h a p a' p'.
Proof.
  intros Hls Hlp Hlt Ha Hp. unfold trackBar.
  rewrite (js_get_Some _ _ _ Ha), (js_get_Some _ _ _ Hp).
  set (expired := jgt (jsub (Num (inject_Z currentTime)) (js_get (barPeakTimes s) i))
                      (Num (inject_Z (peakHoldTime s)))).
  cbn [jsub jmul jadd jgt jmax].
  fold (smoothStep (smoothingFactor s) a h).
  set (smooth := smoothStep (smoothingFactor s) a h).
  exists (displayStep smooth (peakStep expired p smooth)),
         (peakStep expired p smooth).
  unfold peakStep.
  destruct (Qgtb smooth p) eqn:Hgt.
  - exists (js_set i (Num (inject_Z currentTime)) (barPeakTimes s)).
    rewrite !js_set_inside by assumption.
    rewrite (js_get_Some (<[i := Num smooth]> (barPeaks s)) i (Num smooth))
      by (apply list_lookup_insert_eq; assumption).
    split; [reflexivity|]. split; [apply length_insert|].
    exists expired. fold smooth. unfold peakStep. rewrite Hgt. split; reflexivity.
  - exists (barPeakTimes s).
    destruct expired eqn:Hexp.
    + rewrite !js_set_inside by assumption.
      rewrite (js_get_Some (<[i := Num (Qmax (p * (85 # 100)) smooth)]> (barPeaks s)) i
                           (Num (Qmax (p * (85 # 100)) smooth)))
        by (apply list_lookup_insert_eq; assumption).
      split; [reflexivity|]. split; [reflexivity|].
      exists true. fold smooth. unfold peakStep. rewrite Hgt. split; reflexivity.
    + rewrite !js_set_inside by assumption.
      rewrite (js_get_Some (<[i := Num (Qmax (p * (98 # 100)) smooth)]> (barPeaks s)) i
                           (Num (Qmax (p * (98 # 100)) smooth)))
        by (apply list_lookup_insert_eq; assumption).
      split; [reflexivity|]. split; [reflexivity|].
      exists false. fold smooth. unfold peakStep. rewrite Hgt. split; reflexivity.
Qed.

Lemma withParticles_same (s : t) :
  withParticles s (particles s) (particlePool s) = s.
Proof. destruct s. reflexivity. Qed.

(** The peak detector writes the particles and the pool only. *)
Lemma detectFrequencyPeaks_frame (s : t) (rnd : Q * Q * Q) (i : nat)
    (rawValue displayHeight : jsnum) :
  exists ps pool,
    detectFrequencyPeaks s rnd i rawValue displayHeight = withParticles s ps pool.
Proof.
  assert (Hsame : exists ps pool, s = withParticles s ps pool)
    by (eexists _, _; symmetry; apply withParticles_same).
  unfold detectFrequencyPeaks.
  destruct (jgt rawValue _ && jgt displayHeight (Num 20)); [|exact Hsame].
  destruct displayHeight as [h|]; [|exact Hsame].
  destruct rawValue as [r|]; [|exact Hsame].
  unfold spawnParticle.
  destruct (maxParticles s <=? length (particles s))%nat; [exact Hsame|].
  eexists _, _. reflexivity.
Qed.

Lemma docs_level_finite (q : Q) :
  exists h, processAudioLevel (Num q) = Num h /\ 1 <= h <= 100.
Proof.
  unfold processAudioLevel, applySigmoidScaling.
  eexists. split; [reflexivity|]. apply clamp_1_100.
Qed.

Lemma barStep_levels (s0 s : t) (dataArray : list Z) (currentTime : Z)
    (rnd : nat -> Q * Q * Q) (i : nat) :
  isByteArray frequencyBinCount dataArray -> (i < 48)%nat ->
  tracking s0 s -> tracking s0 (barStep dataArray currentTime rnd s i).
Proof.
  intros Hdata Hi (Hcfg & Hinit & Hkeep & Hin).
  destruct Hcfg as (Hbars & Hfactor & Hls & Hlp & Hlt & Hlr & Hri & Hbuf).
  pose proof (Hbuf Hinit) as Hlen.
  destruct (docs_bucket_holds_samples s dataArray i) as [_ [q Hq]].
  { rewrite Hbars. lia. }
  { unfold usableRangeOf. rewrite Hbars, Hlen. apply Z.leb_le. reflexivity. }
  { rewrite Hlen. exact Hdata. }
  { rewrite Hbars. exact Hi. }
  destruct (docs_level_finite q) as (h & Hh & Hhr).
  destruct (Hin i Hi) as (a & p & r & (Ha & Hp & Hr) & Ha0 & Hap & Hp100 & Hr0).
  destruct (docs_trackBar_finite s currentTime i h a p
              ltac:(lia) ltac:(lia) ltac:(lia) Ha Hp)
    as (a' & p' & times & Htrack & Htimes & Hadv).
  rewrite Hfactor in Hadv.
  destruct (barAdvance_range h a p a' p' Hadv Hhr Ha0 Hap Hp100) as (Ha'0 & Ha'p & Hp'100).
  unfold barStep. rewrite Hq, Hh, Htrack.
  set (s1 := withBars s _ _ times).
  destruct (detectFrequencyPeaks_frame (updateRollingAverage s1 i (Num h)) (rnd i) i
              (Num h) (Num a')) as (ps & pool & ->).
  unfold updateRollingAverage.
  replace (rollingAverages s1) with (rollingAverages s) by reflexivity.
  rewrite (js_get_Some _ _ _ Hr). cbn [jmul jadd].
  rewrite js_set_inside by lia.
  unfold tracking, configured, levelsInRange, levelAt, s1.
  cbn [withParticles withRolling withBars barCount smoothingFactor barSmoothValues
       barPeaks barPeakTimes rollingAverages isRunning initialised bufferLength
       maxHistoryLayers fullscreenHistoryLayers spectrumHistory].
  rewrite !length_insert, Htimes.
  split; [repeat split; assumption|].
  split; [exact Hinit|]. split; [exact Hkeep|].
  intros j Hj.
  destruct (Nat.eq_dec j i) as [->|Hne].
  - exists a', p', (r * (95 # 100) + h * (5 # 100)).
    rewrite !list_lookup_insert_eq by lia.
    split; [repeat split|]. repeat split; try assumption; lra.
  - destruct (Hin j Hj) as (aj & pj & rj & (Haj & Hpj & Hrj) & Hbounds).
    exists aj, pj, rj.
    rewrite !list_lookup_insert_ne by (intros Heq; apply Hne; symmetry; exact Heq).
    split; [repeat split; assumption|exact Hbounds].
Qed.

Lemma barLoop_levels (s : t) (dataArray : list Z) (currentTime : Z)
    (rnd : nat -> Q * Q * Q) :
  isByteArray frequencyBinCount dataArray ->
  tracking s s -> tracking s (barLoop s dataArray currentTime rnd).
Proof.
  intros Hdata Htrack. unfold barLoop.
  replace (barCount s) with 48%nat by (symmetry; apply Htrack).
  apply fold_left_invariant_in; [exact Htrack|].
  intros x i Hi Hx. apply in_seq in Hi.
  apply barStep_levels; [exact Hdata|lia|exact Hx].
Qed.

(** A sum of bars is finite and at most 100 per bar. *)
Lemma sumBars_range (s : t) (from to : nat) :
  levelsInRange s -> (to <= 48)%nat ->
  exists q, sumBars s from to = Num q
    /\ 0 <= q <= 100 * inject_Z (Z.of_nat (to - from)).
Proof.
  intros Hin Hto. unfold sumBars.
  assert (Hgen : forall l acc,
            Forall (fun i => (i < 48)%nat) l ->
            exists q,
              fold_left (fun acc i => jadd acc (js_get (barSmoothValues s) i)) l (Num acc)
                = Num q
              /\ acc <= q <= acc + 100 * inject_Z (Z.of_nat (length l))).
  { induction l as [|i l IH]; intros acc Hall.
    - exists acc. split; [reflexivity|].
      change (inject_Z (Z.of_nat (length (@nil nat)))) with 0. lra.
    - inversion Hall as [|? ? Hi Hrest]; subst.
      destruct (Hin i Hi) as (a & p & r & (Ha & _) & Ha0 & Hap & Hp100 & _).
      simpl fold_left. rewrite (js_get_Some _ _ _ Ha). cbn [jadd].
      destruct (IH (acc + a) Hrest) as (q & Hq & Hlo & Hhi).
      exists q. split; [exact Hq|].
      rewrite length_cons, Nat2Z.inj_succ, <- Z.add_1_r, inject_Z_plus.
      change (inject_Z 1) with 1. split; lra. }
  destruct (Hgen (seq from (to - from)) 0) as (q & Hq & Hlo & Hhi).
  { apply List.Forall_forall. intros i Hi. apply in_seq in Hi. lia. }
  exists q. split; [exact Hq|]. rewrite length_seq in Hhi. split; lra.
Qed.

Lemma mean_in_range (q : Q) (n : Z) :
  (0 < n)%Z -> 0 <= q <= 100 * inject_Z n ->
  exists m, jdiv_count (Num q) n = Num m /\ 0 <= m <= 100.
Proof.
  intros Hn [Hlo Hhi]. unfold jdiv_count.
  destruct (Z.eqb_spec n 0) as [->|_]; [lia|].
  assert (Hpos : 0 < inject_Z n)
    by (change 0 with (inject_Z 0); rewrite <- Zlt_Qlt; exact Hn).
  eexists. split; [reflexivity|]. split.
  - apply Qle_shift_div_l; [exact Hpos|]. lra.
  - apply Qle_shift_div_r; [exact Hpos|]. exact Hhi.
Qed.

Lemma calculateMusicEnergy_range (s : t) :
  barCount s = 48%nat -> levelsInRange s ->
  energiesInRange (calculateMusicEnergy s).
Proof.
  intros Hbars Hin. unfold calculateMusicEnergy. rewrite Hbars.
  change (Z.to_nat (Math_floor (inject_Z (Z.of_nat 48) * (2 # 10)))) with 9%nat.
  change (Z.to_nat (Math_floor (inject_Z (Z.of_nat 48) * (6 # 10)))) with 28%nat.
  destruct (sumBars_range s 0 9 Hin ltac:(lia)) as (b & -> & Hb).
  destruct (sumBars_range s 9 28 Hin ltac:(lia)) as (m & -> & Hm).
  destruct (sumBars_range s 28 48 Hin ltac:(lia)) as (t' & -> & Ht).
  destruct (mean_in_range b (Z.of_nat 9) ltac:(lia) Hb) as (bass & -> & Hbass).
  destruct (mean_in_range m (Z.of_nat 28 - Z.of_nat 9) ltac:(lia) Hm) as (mid & -> & Hmid).
  destruct (mean_in_range t' (Z.of_nat 48 - Z.of_nat 28) ltac:(lia) Ht)
    as (treble & -> & Htreble).
  cbn [jadd jdiv_count Z.eqb].
  unfold energiesInRange.
  cbn [withEnergies musicEnergy bassEnergy midEnergy trebleEnergy within].
  split; [|split; [exact Hbass|split; [exact Hmid|exact Htreble]]].
  unfold Qdiv. change (/ inject_Z 3) with (1 # 3). split; lra.
Qed.

Lemma levelsInRange_snapshot (s : t) :
  configured s -> levelsInRange s -> snapshotInRange (barSmoothValues s).
Proof.
  intros (_ & _ & Hlen & _) Hin. split; [exact Hlen|].
  apply Forall_lookup. intros i v Hv.
  assert (Hi : (i < 48)%nat) by (rewrite <- Hlen; exact (lookup_lt_Some _ _ _ Hv)).
  destruct (Hin i Hi) as (a & p & r & (Ha & _) & H0 & Hap & Hp & _).
  rewrite Ha in Hv. injection Hv as <-. simpl. split; lra.
Qed.

Lemma animate_invariant (s : t) (dataArray : list Z) (currentTime : Z)
    (fullscreen : bool) (rnd : nat -> Q * Q * Q) :
  isByteArray frequencyBinCount dataArray ->
  invariant s -> invariant (animate s dataArray currentTime fullscreen rnd).
Proof.
  intros Hdata (Hcfg & Hin & Hen & Hhist). unfold animate.
  destruct (isRunning s) eqn:Hrun; cbn [negb];
    [|split; [|split; [|split]]; assumption].
  assert (Hinit : initialised s = true) by (apply Hcfg; exact Hrun).
  destruct (barLoop_levels s dataArray currentTime rnd Hdata)
    as (Hcfg1 & Hinit1 & (Hmax1 & Hfull1 & Hsame) & Hin1).
  { split; [exact Hcfg|]. split; [exact Hinit|].
    split; [repeat split|exact Hin]. }
  set (s1 := barLoop s dataArray currentTime rnd) in *.
  pose proof (calculateMusicEnergy_range s1 ltac:(apply Hcfg1) Hin1) as Hen1.
  pose proof (levelsInRange_snapshot s1 Hcfg1 Hin1) as Hsnap.
  destruct (updateParticles_shape
              (updateSpectrumHistory (calculateMusicEnergy s1) fullscreen))
    as (alive & pool & -> & _).
  split; [exact Hcfg1|]. split; [exact Hin1|]. split; [exact Hen1|].
  destruct Hhist as (Hmax & Hfull & Hlen & Hall).
  unfold historyInRange, updateSpectrumHistory.
  cbn [withParticles withHistory maxHistoryLayers fullscreenHistoryLayers
       spectrumHistory].
  change (maxHistoryLayers (calculateMusicEnergy s1)) with (maxHistoryLayers s1).
  change (fullscreenHistoryLayers (calculateMusicEnergy s1))
    with (fullscreenHistoryLayers s1).
  change (spectrumHistory (calculateMusicEnergy s1)) with (spectrumHistory s1).
  change (barSmoothValues (calculateMusicEnergy s1)) with (barSmoothValues s1).
  rewrite Hmax1, Hfull1, Hmax, Hfull, Hsame.
  split; [reflexivity|]. split; [reflexivity|].
  destruct (_ <? _)%nat eqn:Hcmp.
  - split; [rewrite length_removelast_cons; exact Hlen|].
    apply Forall_removelast. constructor; assumption.
  - apply Nat.ltb_ge in Hcmp. split; [|constructor; assumption].
    destruct fullscreen; simpl in Hcmp |- *; lia.
Qed.

Lemma docs_new_invariant : invariant new.
Proof.
  split; [|split; [|split]].
  - unfold configured. simpl. repeat split; try reflexivity; discriminate.
  - intros i Hi. exists 0, 0, 0. split.
    + repeat split; simpl; apply lookup_replicate_2; exact Hi.
    + repeat split; discriminate.
  - repeat split; discriminate.
  - split; [reflexivity|]. split; [reflexivity|]. split; [simpl; lia|constructor].
Qed.

Lemma docs_stop_invariant (s : t) : invariant s -> invariant (stop s).
Proof.
  intros (Hcfg & Hin & Hen & Hhist).
  destruct Hcfg as (Hbars & Hfactor & Hls & Hlp & Hlt & Hlr & Hri & Hbuf).
  split; [|split; [|split]].
  - unfold configured, stop, fill0. simpl. rewrite !length_replicate.
    repeat split; try assumption. discriminate.
  - intros i Hi.
    destruct (Hin i Hi) as (a & p & r & (Ha & Hp & Hr) & H0 & Hap & H100 & Hr0).
    exists 0, p, 0. split.
    + split; [|split]; simpl; [|exact Hp|];
        unfold fill0; apply lookup_replicate_2; lia.
    + repeat split; try discriminate; [lra|exact H100].
  - repeat split; discriminate.
  - destruct Hhist as (Hmax & Hfull & _ & _).
    split; [exact Hmax|]. split; [exact Hfull|]. split; [simpl; lia|constructor].
Qed.

Lemma reachable_docs_invariant (s : t) : reachable s -> invariant s.
Proof.
  induction 1 as [|s w h _ IH|s _ IH
                 |s dataArray currentTime fullscreen rnd s' _ IH Hdata Hstart
                 |s dataArray currentTime fullscreen rnd _ IH Hdata|s _ IH].
  - exact docs_new_invariant.
  - exact IH.
  - destruct IH as (Hcfg & Hin & Hen & Hhist).
    destruct Hcfg as (Hbars & Hfactor & Hls & Hlp & Hlt & Hlr & Hri & Hbuf).
    split; [|split; [|split]]; [|exact Hin|exact Hen|exact Hhist].
    unfold configured. simpl. repeat split; assumption || reflexivity.
  - unfold start in Hstart. destruct (initialised s) eqn:Hinit; [|discriminate].
    injection Hstart as <-.
    apply animate_invariant; [exact Hdata|].
    destruct IH as (Hcfg & Hin & Hen & Hhist).
    destruct Hcfg as (Hbars & Hfactor & Hls & Hlp & Hlt & Hlr & Hri & Hbuf).
    split; [|split; [|split]]; [|exact Hin|exact Hen|exact Hhist].
    unfold configured. simpl. repeat split; try assumption. intros _. exact Hinit.
  - apply animate_invariant; assumption.
  - apply docs_stop_invariant. exact IH.
Qed.

(** In every state the published build reaches, every bar's smoothed
    value, peak and rolling average are finite, with
    0 <= smoothed <= peak <= 100 and the rolling average in [0, 100]. *)
Theorem docs_levels_stay_in_range (s : t) (i : nat) :
  reachable s -> (i < barCount s)%nat ->
  exists a p r,
    levelAt s i a p r /\ 0 <= a /\ a <= p /\ p <= 100 /\ 0 <= r <= 100.
Proof.
  intros Hreach Hi.
  destruct (reachable_docs_invariant s Hreach) as (Hcfg & Hin & _).
  apply Hin. replace 48%nat with (barCount s) by apply Hcfg. exact Hi.
Qed.

(** Whatever the display mode does from tick to tick, the history of the
    published build never holds more than 15 snapshots, and each one is
    48 finite values in [0, 100]. *)
Theorem docs_history_stays_bounded (s : t) :
  reachable s ->
  (length (spectrumHistory s) <= 15)%nat
  /\ Forall snapshotInRange (spectrumHistory s).
Proof.
  intros Hreach.
  destruct (reachable_docs_invariant s Hreach) as (_ & _ & _ & Hhist).
  destruct Hhist as (_ & _ & Hlen & Hall). split; assumption.
Qed.

Lemma orZero_range (x : jsnum) :
  within 0 100 x -> 0 <= MusicVisualizerApp.orZero x <= 100.
Proof. destruct x as [q|]; simpl; [intros Hq; exact Hq|contradiction]. Qed.

Lemma floor_between (x lo hi : Q) (zlo zhi : Z) :
  Qfloor lo = zlo -> Qfloor hi = zhi -> lo <= x <= hi ->
  (zlo <= Math_floor x <= zhi)%Z.
Proof.
  intros <- <- [Hlo Hhi]. unfold Math_floor.
  split; apply Qfloor_resp_le; assumption.
Qed.

Lemma render_wellFormed (d : MusicVisualizerApp.musicData) :
  0 <= MusicVisualizerApp.musicEnergy d <= 100 ->
  0 <= MusicVisualizerApp.bassEnergy d <= 100 ->
  PsychedelicBackground.wellFormed (PsychedelicBackground.render d).
Proof.
  intros Hm Hb. unfold PsychedelicBackground.wellFormed, PsychedelicBackground.render.
  cbn [PsychedelicBackground.timeStep PsychedelicBackground.globalAlpha
       PsychedelicBackground.symmetryPoints PsychedelicBackground.layerLineWidth
       PsychedelicBackground.petals PsychedelicBackground.mandalaLineWidth].
  set (e := MusicVisualizerApp.musicEnergy d) in *.
  set (b := MusicVisualizerApp.bassEnergy d) in *.
  assert (Hs : (0 <= Math_floor (b / 10) <= 10)%Z).
  { apply (floor_between _ 0 10); [reflexivity|reflexivity|].
    unfold Qdiv. change (/ 10) with (1 # 10). split; lra. }
  assert (Hp : (0 <= Math_floor (b / 15) <= 6)%Z).
  { apply (floor_between _ 0 (100 # 15)); [reflexivity|reflexivity|].
    unfold Qdiv. change (/ 15) with (1 # 15). split; lra. }
  unfold Qdiv in *.
  change (/ 5000) with (1 # 5000). change (/ 2000) with (1 # 2000).
  change (/ 100) with (1 # 100). change (/ 200) with (1 # 200).
  clearbody e b.
  split; [split; lra|]. split; [split; lra|]. split; [lia|].
  split; [split; lra|]. split; [lia|split; lra].
Qed.

(** Every frame of the background is drawn with settings in their proper
    ranges: from the energies the page reads off a reachable visualizer,
    the time advances by 0.01 to 0.03, the alpha is in [0.05, 0.1], there
    are 8 to 18 symmetry points and 6 to 12 petals, and the line widths
    are in [0.5, 1.5] and [0.3, 0.8]. *)
Theorem background_frame_well_formed (s : t) :
  reachable s ->
  PsychedelicBackground.wellFormed
    (PsychedelicBackground.render (MusicVisualizerApp.getVisualizerData s)).
Proof.
  intros Hreach.
  destruct (reachable_docs_invariant s Hreach) as (_ & _ & Hen & _).
  destruct Hen as (Hmusic & Hbass & _ & _).
  apply render_wellFormed; unfold MusicVisualizerApp.getVisualizerData;
    destruct (isRunning s); simpl;
    try (apply orZero_range; assumption); split; discriminate.
Qed.

End DocsLevels.

Lemma docs_levels_stay_in_range_witness :
  let s := @DocsVisualizer.animate approxMath DocsVisualizer.started
             (replicate 128 200%Z) 0 false (fun _ => (1 # 2, 1 # 2, 1 # 2)) in
  @DocsVisualizer.reachable approxMath s
  /\ (47 < DocsVisualizer.barCount s)%nat
  /\ exists a p r,
       DocsVisualizer.levelAt s 47 a p r
       /\ 0 <= a /\ a <= p /\ p <= 100 /\ 0 <= r <= 100.
Proof.
  intros s.
  assert (Hreach : @DocsVisualizer.reachable approxMath s).
  { apply (@DocsVisualizer.reach_start approxMath
             (DocsVisualizer.setupCanvas
                (DocsVisualizer.initAudio DocsVisualizer.new) 800 200)
             (replicate 128 200%Z) 0%Z false (fun _ => (1 # 2, 1 # 2, 1 # 2))).
    - apply DocsVisualizer.reach_setupCanvas, DocsVisualizer.reach_initAudio,
        DocsVisualizer.reach_new.
    - split; [reflexivity|]. apply Forall_replicate. lia.
    - reflexivity. }
  assert (Hi : (47 < DocsVisualizer.barCount s)%nat) by (vm_compute; lia).
  split; [exact Hreach|]. split; [exact Hi|].
  exact (@docs_levels_stay_in_range approxMath s 47%nat Hreach Hi).
Defined.

Lemma docs_history_stays_bounded_witness :
  let s := @DocsVisualizer.animate approxMath DocsVisualizer.started
             (replicate 128 200%Z) 0 true (fun _ => (1 # 2, 1 # 2, 1 # 2)) in
  @DocsVisualizer.reachable approxMath s
  /\ (length (DocsVisualizer.spectrumHistory s) <= 15)%nat
  /\ Forall DocsVisualizer.snapshotInRange (DocsVisualizer.spectrumHistory s).
Proof.
  intros s.
  assert (Hreach : @DocsVisualizer.reachable approxMath s).
  { apply (@DocsVisualizer.reach_start approxMath
             (DocsVisualizer.setupCanvas
                (DocsVisualizer.initAudio DocsVisualizer.new) 800 200)
             (replicate 128 200%Z) 0%Z true (fun _ => (1 # 2, 1 # 2, 1 # 2))).
    - apply DocsVisualizer.reach_setupCanvas, DocsVisualizer.reach_initAudio,
        DocsVisualizer.reach_new.
    - split; [reflexivity|]. apply Forall_replicate. lia.
    - reflexivity. }
  split; [exact Hreach|].
  exact (@docs_history_stays_bounded approxMath s Hreach).
Defined.

Lemma background_frame_well_formed_witness :
  let s := @DocsVisualizer.animate approxMath DocsVisualizer.started
             (replicate 128 120%Z) 0 false (fun _ => (1 # 2, 1 # 2, 1 # 2)) in
  @DocsVisualizer.reachable approxMath s
  /\ PsychedelicBackground.wellFormed
       (PsychedelicBackground.render (MusicVisualizerApp.getVisualizerData s)).
Proof.
  intros s.
  assert (Hreach : @DocsVisualizer.reachable approxMath s).
  { apply (@DocsVisualizer.reach_start approxMath
             (DocsVisualizer.setupCanvas
                (DocsVisualizer.initAudio DocsVisualizer.new) 800 200)
             (replicate 128 120%Z) 0%Z false (fun _ => (1 # 2, 1 # 2, 1 # 2))).
    - apply DocsVisualizer.reach_setupCanvas, DocsVisualizer.reach_initAudio,
        DocsVisualizer.reach_new.
    - split; [reflexivity|]. apply Forall_replicate. lia.
    - reflexivity. }
  split; [exact Hreach|].
  exact (@background_frame_well_formed approxMath s Hreach).
Defined.


(** ** The particles of the published build *)

Section DocsParticles.
Context `{HostMath}.
Import DocsVisualizer.

Lemma updateParticles_sweep (s : t) :
  updateParticles s =
    withParticles s (fst (fold_right sweep ([], particlePool s) (particles s)))
                    (snd (fold_right sweep ([], particlePool s) (particles s))).
Proof.
  unfold updateParticles.
  set (r := fold_right _ _ (particles s)).
  change (fold_right sweep ([], particlePool s) (particles s)) with r.
  destruct r as [alive pool]. reflexivity.
Qed.

Lemma sweep_filter (ps pool : list particle) :
  fold_right sweep ([], pool) ps =
    (List.filter stillAlive (map moveParticle ps),
     pool ++ rev (List.filter hasDied (map moveParticle ps))).
Proof.
  induction ps as [|p ps IH]; simpl.
  - rewrite app_nil_r. reflexivity.
  - rewrite IH. unfold sweep, stillAlive, hasDied.
    destruct (Qle_bool (life (moveParticle p)) 0); simpl.
    + rewrite app_assoc. reflexivity.
    + reflexivity.
Qed.

Lemma sweep_acc (ps alive0 pool : list particle) :
  fold_right sweep (alive0, pool) ps =
    (fst (fold_right sweep ([], pool) ps) ++ alive0,
     snd (fold_right sweep ([], pool) ps)).
Proof.
  induction ps as [|p ps IH]; simpl; [reflexivity|].
  rewrite IH.
  destruct (fold_right sweep ([], pool) ps) as [alive pool'].
  unfold sweep. cbn [fst snd].
  destruct (Qle_bool (life (moveParticle p)) 0); reflexivity.
Qed.

(** The index loop over the spliced array, started with [front] still to
    visit and [done] already visited. *)
Lemma updateParticlesFrom_sweep (front done pool : list particle) :
  updateParticlesFrom (length front) (front ++ done) pool =
    (fst (fold_right sweep ([], pool) front) ++ done,
     snd (fold_right sweep ([], pool) front)).
Proof.
  revert done pool.
  induction front as [|p front IH] using rev_ind; intros done pool;
    [reflexivity|].
  rewrite length_app, Nat.add_1_r. cbn [updateParticlesFrom].
  rewrite <- app_assoc. cbn [app].
  rewrite (list_lookup_middle front done p (length front) eq_refl).
  rewrite fold_right_app. cbn [fold_right sweep].
  destruct (Qle_bool (life (moveParticle p)) 0).
  - replace (delete (length front) (front ++ p :: done)) with (front ++ done).
    + apply IH.
    + symmetry. rewrite delete_middle. reflexivity.
  - replace (<[length front := moveParticle p]> (front ++ p :: done))
      with (front ++ moveParticle p :: done).
    + rewrite IH, (sweep_acc front [moveParticle p] pool).
      cbn [fst snd]. rewrite <- app_assoc. reflexivity.
    + symmetry. rewrite (insert_app_r_alt front (p :: done)) by lia.
      rewrite Nat.sub_diag. reflexivity.
Qed.

(** The index loop of [updateParticles], which splices the array it walks,
    visits every particle exactly once: it leaves the moved particles
    that are still alive, in their order, and pushes the dead ones onto
    the pool, last one first; this is what the fold computes. *)
Theorem particle_loop_visits_each_once (s : t) :
  let moved := map moveParticle (particles s) in
  updateParticlesLoop s =
    withParticles s (List.filter stillAlive moved)
                    (particlePool s ++ rev (List.filter hasDied moved))
  /\ updateParticles s = updateParticlesLoop s.
Proof.
  intros moved.
  assert (Hloop : updateParticlesLoop s =
            withParticles s (List.filter stillAlive moved)
              (particlePool s ++ rev (List.filter hasDied moved))).
  { unfold updateParticlesLoop.
    pose proof (updateParticlesFrom_sweep (particles s) [] (particlePool s)) as Hfrom.
    rewrite app_nil_r in Hfrom. rewrite Hfrom, sweep_filter.
    cbn [fst snd]. rewrite app_nil_r. reflexivity. }
  split; [exact Hloop|].
  rewrite Hloop, updateParticles_sweep, sweep_filter. reflexivity.
Qed.

Lemma Math_round_byte (q : Q) : 0 <= q <= 255 -> (0 <= Math_round q <= 255)%Z.
Proof.
  intros Hq. unfold Math_round.
  apply (floor_between _ (1 # 2) (511 # 2)); [reflexivity|reflexivity|].
  split; lra.
Qed.

Lemma getFrequencyColor_range (s : t) (barIndex : nat) (intensity : Q) :
  colorInRange (getFrequencyColor s barIndex intensity).
Proof.
  unfold getFrequencyColor.
  set (brightness := Qmax (6 # 10) (Qmin (intensity / 80) 1)).
  assert (Hb : 6 # 10 <= brightness <= 1).
  { unfold brightness.
    destruct (Q.max_spec (6 # 10) (Qmin (intensity / 80) 1)) as [[Hlt E]|[Hle E]];
      rewrite E; [|split; lra].
    split; [lra|]. apply Q.le_min_r. }
  cbv zeta.
  destruct (Qltb _ (2 # 10)); [|destruct (Qltb _ (4 # 10));
    [|destruct (Qltb _ (6 # 10)); [|destruct (Qltb _ (8 # 10))]]];
    unfold colorInRange; cbn [fst snd];
    (split; [|split]); apply Math_round_byte; split; lra.
Qed.

Lemma spawnParticle_proper (s : t) (rnd : Q * Q * Q) (i : nat) (h r : Q) :
  1 <= r <= 100 -> Forall properParticle (particles s) ->
  Forall properParticle (particles (spawnParticle s rnd i h r)).
Proof.
  intros Hr Hall. unfold spawnParticle.
  destruct (maxParticles s <=? length (particles s))%nat; [exact Hall|].
  cbn [withParticles particles].
  apply Forall_app. split; [exact Hall|].
  constructor; [|constructor].
  unfold properParticle. cbn [life size color].
  split; [reflexivity|].
  split; [|apply getFrequencyColor_range].
  unfold Qdiv. change (/ 100) with (1 # 100). split; lra.
Qed.

Lemma barStep_proper (dataArray : list Z) (currentTime : Z)
    (rnd : nat -> Q * Q * Q) (s : t) (i : nat) :
  Forall properParticle (particles s) ->
  Forall properParticle (particles (barStep dataArray currentTime rnd s i)).
Proof.
  intros Hall. unfold barStep.
  set (barHeight := processAudioLevel (averageOf s dataArray i)).
  assert (Hlevel : barHeight = NaN \/ exists r, barHeight = Num r /\ 1 <= r <= 100).
  { unfold barHeight. destruct (averageOf s dataArray i) as [q|];
      [right; apply docs_level_finite|left; reflexivity]. }
  destruct (trackBar_frame s currentTime i barHeight) as (sm & pk & tm & Htrack).
  destruct (trackBar s currentTime i barHeight) as [s1 displayHeight].
  cbn [fst] in Htrack. subst s1.
  unfold detectFrequencyPeaks.
  destruct (jgt barHeight _ && jgt displayHeight (Num 20)); [|exact Hall].
  destruct displayHeight as [d|]; [|exact Hall].
  destruct Hlevel as [->|(r & -> & Hr)]; [exact Hall|].
  apply spawnParticle_proper; [exact Hr|exact Hall].
Qed.

Lemma sweep_proper (ps : list particle) :
  Forall properParticle ps ->
  Forall properParticle (List.filter stillAlive (map moveParticle ps)).
Proof.
  induction 1 as [|p ps Hp _ IH]; [constructor|].
  cbn [map List.filter]. unfold stillAlive at 1.
  destruct (Qle_bool (life (moveParticle p)) 0) eqn:Hdead; cbn [negb]; [exact IH|].
  constructor; [|exact IH].
  destruct Hp as (_ & Hsize & Hcolor).
  split; [|split; assumption].
  apply Qnot_le_lt. intros Hle. apply Qle_bool_iff in Hle. congruence.
Qed.

Lemma animate_proper (s : t) (dataArray : list Z) (currentTime : Z)
    (fullscreen : bool) (rnd : nat -> Q * Q * Q) :
  Forall properParticle (particles s) ->
  Forall properParticle (particles (animate s dataArray currentTime fullscreen rnd)).
Proof.
  intros Hall. unfold animate.
  destruct (isRunning s); cbn [negb]; [|exact Hall].
  rewrite updateParticles_sweep, sweep_filter.
  cbn [withParticles particles fst].
  apply sweep_proper.
  change (particles (updateSpectrumHistory
            (calculateMusicEnergy (barLoop s dataArray currentTime rnd)) fullscreen))
    with (particles (barLoop s dataArray currentTime rnd)).
  unfold barLoop. apply fold_left_invariant; [exact Hall|].
  intros x i Hx. apply barStep_proper. exact Hx.
Qed.

Lemma reachable_proper (s : t) :
  reachable s -> Forall properParticle (particles s).
Proof.
  induction 1 as [|s w h _ IH|s _ IH
                 |s dataArray currentTime fullscreen rnd s' _ IH _ Hstart
                 |s dataArray currentTime fullscreen rnd _ IH _|s _ IH].
  - constructor.
  - exact IH.
  - exact IH.
  - unfold start in Hstart. destruct (initialised s); [|discriminate].
    injection Hstart as <-. apply animate_proper. exact IH.
  - apply animate_proper. exact IH.
  - constructor.
Qed.

(** In every state the published build reaches, whatever the random
    draws, every particle is drawn as an arc with a positive radius, a
    positive alpha and blur, and a colour with components in 0..255. *)
Theorem drawn_particles_are_proper (s : t) :
  reachable s -> Forall properArc (drawParticles s).
Proof.
  intros Hreach. unfold drawParticles.
  apply Forall_map.
  eapply Forall_impl; [apply reachable_proper; exact Hreach|].
  intros p (Hlife & [Hsize2 Hsize5] & Hcolor).
  unfold properArc. cbn [radius globalAlpha shadowBlur fillStyle].
  assert (Hradius : 0 < size p * life p) by nra.
  split; [exact Hradius|]. split; [exact Hlife|].
  split; [lra|exact Hcolor].
Qed.

Lemma length_removelast_pred {A : Type} (l : list A) :
  length (removelast l) = pred (length l).
Proof.
  destruct l as [|x l]; [reflexivity|]. apply length_removelast_cons.
Qed.

Lemma spawnParticle_retained (s : t) (rnd : Q * Q * Q) (i : nat) (h r : Q) :
  (retained s <= maxParticles s)%nat ->
  maxParticles (spawnParticle s rnd i h r) = maxParticles s
  /\ (retained (spawnParticle s rnd i h r) <= maxParticles s)%nat.
Proof.
  intros Hret. unfold spawnParticle.
  destruct (Nat.leb_spec (maxParticles s) (length (particles s))) as [Hfull|Hroom];
    [split; [reflexivity|exact Hret]|].
  split; [reflexivity|].
  unfold retained in *. cbn [withParticles particles particlePool].
  rewrite length_app, length_removelast_pred. cbn [length]. lia.
Qed.

Lemma barStep_retained (dataArray : list Z) (currentTime : Z)
    (rnd : nat -> Q * Q * Q) (s : t) (i : nat) :
  (retained s <= maxParticles s)%nat ->
  maxParticles (barStep dataArray currentTime rnd s i) = maxParticles s
  /\ (retained (barStep dataArray currentTime rnd s i) <= maxParticles s)%nat.
Proof.
  intros Hret. unfold barStep.
  set (barHeight := processAudioLevel (averageOf s dataArray i)).
  destruct (trackBar_frame s currentTime i barHeight) as (sm & pk & tm & Htrack).
  destruct (trackBar s currentTime i barHeight) as [s1 displayHeight].
  cbn [fst] in Htrack. subst s1.
  unfold detectFrequencyPeaks.
  destruct (jgt barHeight _ && jgt displayHeight (Num 20));
    [|split; [reflexivity|exact Hret]].
  destruct displayHeight as [d|]; [|split; [reflexivity|exact Hret]].
  destruct barHeight as [r|]; [|split; [reflexivity|exact Hret]].
  apply (spawnParticle_retained
           (updateRollingAverage (withBars s sm pk tm) i (Num r)) (rnd i) i d r).
  exact Hret.
Qed.

Lemma filter_split_length {A : Type} (f : A -> bool) (l : list A) :
  (length (List.filter f l) + length (List.filter (fun x => negb (f x)) l)
   = length l)%nat.
Proof.
  induction l as [|x l IH]; [reflexivity|].
  cbn [List.filter]. destruct (f x); cbn [negb length]; lia.
Qed.

Lemma animate_retained (s : t) (dataArray : list Z) (currentTime : Z)
    (fullscreen : bool) (rnd : nat -> Q * Q * Q) :
  (retained s <= maxParticles s)%nat ->
  maxParticles (animate s dataArray currentTime fullscreen rnd) = maxParticles s
  /\ (retained (animate s dataArray currentTime fullscreen rnd) <= maxParticles s)%nat.
Proof.
  intros Hret. unfold animate.
  destruct (isRunning s); cbn [negb]; [|split; [reflexivity|exact Hret]].
  assert (Hloop : maxParticles (barLoop s dataArray currentTime rnd) = maxParticles s
                  /\ (retained (barLoop s dataArray currentTime rnd)
                        <= maxParticles s)%nat).
  { unfold barLoop.
    apply (fold_left_invariant
             (fun x => maxParticles x = maxParticles s
                       /\ (retained x <= maxParticles s)%nat));
      [split; [reflexivity|exact Hret]|].
    intros x i [Hmax Hx].
    destruct (barStep_retained dataArray currentTime rnd x i ltac:(lia)) as [Hmax' Hx'].
    split; [congruence|lia]. }
  destruct Hloop as [Hmax Hloop].
  rewrite updateParticles_sweep, sweep_filter.
  cbn [fst snd]. unfold retained in *.
  cbn [withParticles particles particlePool maxParticles].
  change (particles (updateSpectrumHistory
            (calculateMusicEnergy (barLoop s dataArray currentTime rnd)) fullscreen))
    with (particles (barLoop s dataArray currentTime rnd)).
  change (particlePool (updateSpectrumHistory
            (calculateMusicEnergy (barLoop s dataArray currentTime rnd)) fullscreen))
    with (particlePool (barLoop s dataArray currentTime rnd)).
  change (maxParticles (updateSpectrumHistory
            (calculateMusicEnergy (barLoop s dataArray currentTime rnd)) fullscreen))
    with (maxParticles (barLoop s dataArray currentTime rnd)).
  split; [exact Hmax|].
  rewrite length_app, length_rev.
  pose proof (filter_split_length hasDied
                (map moveParticle (particles (barLoop s dataArray currentTime rnd))))
    as Hsplit.
  rewrite length_map in Hsplit.
  change (fun x => negb (hasDied x)) with stillAlive in Hsplit.
  lia.
Qed.

Lemma reachable_retained (s : t) :
  reachable s -> maxParticles s = 200%nat /\ (retained s <= 200)%nat.
Proof.
  induction 1 as [|s w h _ IH|s _ IH
                 |s dataArray currentTime fullscreen rnd s' _ [Hmax IH] _ Hstart
                 |s dataArray currentTime fullscreen rnd _ [Hmax IH] _|s _ [Hmax IH]].
  - split; [reflexivity|]. unfold retained. simpl. lia.
  - exact IH.
  - exact IH.
  - unfold start in Hstart. destruct (initialised s); [|discriminate].
    injection Hstart as <-.
    destruct (animate_retained (withRunning s true) dataArray currentTime fullscreen rnd)
      as [Hmax' Hret'];
      [change (retained s <= maxParticles s)%nat; lia|].
    change (maxParticles (withRunning s true)) with (maxParticles s) in Hmax', Hret'.
    split; [congruence|lia].
  - destruct (animate_retained s dataArray currentTime fullscreen rnd ltac:(lia))
      as [Hmax' Hret'].
    split; [congruence|lia].
  - split; [exact Hmax|]. unfold retained in *. cbn [stop particles particlePool length].
    lia.
Qed.

(** The element never holds on to more than 200 particle objects: in
    every state it reaches, the particles alive and the particles in the
    pool are at most 200 together. *)
Theorem particle_objects_stay_bounded (s : t) :
  reachable s -> (length (particles s) + length (particlePool s) <= 200)%nat.
Proof.
  intros Hreach. destruct (reachable_retained s Hreach) as [_ Hret]. exact Hret.
Qed.

Lemma age_life (k : nat) (p : particle) :
  decay (age k p) = decay p
  /\ life (age k p) == life p - inject_Z (Z.of_nat k) * decay p.
Proof.
  induction k as [|k [IHd IHl]].
  - split; [reflexivity|]. change (age 0 p) with p.
    change (inject_Z (Z.of_nat 0)) with 0. ring.
  - change (age (S k) p) with (moveParticle (age k p)).
    cbn [moveParticle decay life]. split; [exact IHd|].
    rewrite IHl, IHd, Nat2Z.inj_succ, <- Z.add_1_r, inject_Z_plus.
    change (inject_Z 1) with 1. ring.
Qed.

(** A spawn below the cap, on an element whose canvas is set up at least
    47 wide, with random draws in [0, 1): the new particle starts on the
    canvas, between 20% and 90% of its height, moves upwards, and with its
    decay in [0.01, 0.02] it is alive through its first 49 updates and
    dead by the 101st.  Both ends are a whole decay step away from the
    boundary cases (50 updates at the decay 0.02, 100 at the decay 0.01),
    so that the rounding of the repeated subtraction does not move
    them. *)
Theorem spawned_particle_is_on_canvas (s s0 : t) (rectWidth rectHeight : Q)
    (rnd : Q * Q * Q) (barIndex : nat) (height intensity : Q) :
  canvasOf s = canvasOf (setupCanvas s0 rectWidth rectHeight) ->
  barCount s0 = 48%nat -> barCount s = 48%nat ->
  47 <= canvasWidth s -> 0 <= canvasHeight s ->
  (length (particles s) < maxParticles s)%nat ->
  (barIndex < 48)%nat -> 0 <= height <= 100 ->
  0 <= rnd.1.1 < 1 -> 0 <= rnd.1.2 < 1 -> 0 <= rnd.2 < 1 ->
  exists p,
    particles (spawnParticle s rnd barIndex height intensity) = particles s ++ [p]
    /\ 0 <= x p <= canvasWidth s
    /\ canvasHeight s * (2 # 10) <= y p <= canvasHeight s * (9 # 10)
    /\ -1 <= vx p < 1 /\ -4 <= vy p <= -1
    /\ 1 # 100 <= decay p <= 2 # 100
    /\ (forall k, (k <= 49)%nat -> 0 < life (age k p) /\ hasDied (age k p) = false)
    /\ life (age 101 p) < 0 /\ hasDied (age 101 p) = true.
Proof.
  intros Hcanvas Hbars0 Hbars HW HH Hroom Hi Hheight Hr1 Hr2 Hr3.
  unfold canvasOf, setupCanvas in Hcanvas.
  cbn [canvasWidth canvasHeight baseBarSpacing baseBarWidth marginWidth] in Hcanvas.
  rewrite Hbars0 in Hcanvas.
  injection Hcanvas as Hw Hh Hspacing Hwidth Hmargin.
  rewrite <- Hw in Hwidth, Hmargin.
  unfold spawnParticle.
  destruct (Nat.leb_spec (maxParticles s) (length (particles s))) as [Hfull|_]; [lia|].
  eexists. split; [reflexivity|].
  cbn [x y vx vy life decay].
  rewrite Hbars, Hspacing, Hmargin, Hwidth.
  change (inject_Z (Z.of_nat 48)) with 48.
  set (W := canvasWidth s) in *. set (Hc := canvasHeight s) in *.
  set (I := inject_Z (Z.of_nat barIndex)).
  assert (HI : 0 <= I <= 47).
  { unfold I. split; [change 0 with (inject_Z 0)|change 47 with (inject_Z 47)];
      rewrite <- Zle_Qle; lia. }
  set (base := (W - (48 - 1) * 1) / (48 + 2)).
  assert (Hbase : 50 * base == W - 47) by (unfold base; field).
  assert (Hb0 : 0 <= base) by lra.
  assert (HIb : 0 <= I * base) by (apply Qmult_le_0_compat; lra).
  assert (HJb : 0 <= (47 - I) * base) by (apply Qmult_le_0_compat; lra).
  clearbody base I W Hc.
  assert (Hhh : 0 <= height * Hc) by (apply Qmult_le_0_compat; lra).
  assert (Hgh : 0 <= (100 - height) * Hc) by (apply Qmult_le_0_compat; lra).
  assert (Hx : (W - (48 * (base * 1) + (48 - 1) * (1 * 1) + 2 * (base * 1))) / 2
               + base * 1 + I * (base * 1 + 1 * 1) + base * 1 / 2
               == base + I * base + I + base * (1 # 2)).
  { assert (HWeq : W == 50 * base + 47) by lra. rewrite HWeq. field. }
  assert (Hy : Hc * (9 # 10) - height / 100 * Hc * (7 # 10)
               == Hc * (9 # 10) - (7 # 1000) * (height * Hc)) by field.
  split; [rewrite Hx; split; lra|].
  split; [rewrite Hy; split; lra|].
  split; [split; lra|]. split; [split; lra|]. split; [split; lra|].
  set (p := {| x := _; y := _; vx := _; vy := _; life := 1; decay := _;
               size := _; frequency := _; color := _ |}).
  assert (Hd : 1 # 100 <= decay p <= 2 # 100) by (unfold p; cbn [decay]; split; lra).
  assert (Hlate : life (age 101 p) < 0).
  { destruct (age_life 101 p) as [_ ->].
    change (life p) with 1. change (inject_Z (Z.of_nat 101)) with 101. lra. }
  split; [|split; [exact Hlate|]].
  - intros k Hk.
    assert (Hearly : 0 < life (age k p)).
    { destruct (age_life k p) as [_ ->].
      change (life p) with 1.
      assert (HK : 0 <= inject_Z (Z.of_nat k) <= 49).
      { split; [change 0 with (inject_Z 0)|change 49 with (inject_Z 49)];
          rewrite <- Zle_Qle; lia. }
      assert (Hprod : 0 <= (49 - inject_Z (Z.of_nat k)) * decay p)
        by (apply Qmult_le_0_compat; lra).
      lra. }
    split; [exact Hearly|]. unfold hasDied.
    destruct (Qle_bool (life (age k p)) 0) eqn:Hle; [|reflexivity].
    apply Qle_bool_iff in Hle. lra.
  - unfold hasDied. apply Qle_bool_iff. lra.
Qed.

End DocsParticles.

Lemma drawn_particles_are_proper_witness :
  let s := @DocsVisualizer.animate approxMath DocsVisualizer.started
             (replicate 128 200%Z) 0 false (fun _ => (1 # 2, 1 # 2, 1 # 2)) in
  @DocsVisualizer.reachable approxMath s
  /\ Forall DocsVisualizer.properArc (DocsVisualizer.drawParticles s).
Proof.
  intros s.
  assert (Hreach : @DocsVisualizer.reachable approxMath s).
  { apply (@DocsVisualizer.reach_start approxMath
             (DocsVisualizer.setupCanvas
                (DocsVisualizer.initAudio DocsVisualizer.new) 800 200)
             (replicate 128 200%Z) 0%Z false (fun _ => (1 # 2, 1 # 2, 1 # 2))).
    - apply DocsVisualizer.reach_setupCanvas, DocsVisualizer.reach_initAudio,
        DocsVisualizer.reach_new.
    - split; [reflexivity|]. apply Forall_replicate. lia.
    - reflexivity. }
  split; [exact Hreach|].
  exact (@drawn_particles_are_proper approxMath s Hreach).
Defined.

Lemma particle_objects_stay_bounded_witness :
  let s := @DocsVisualizer.animate approxMath DocsVisualizer.started
             (replicate 128 200%Z) 0 false (fun _ => (1 # 2, 1 # 2, 1 # 2)) in
  @DocsVisualizer.reachable approxMath s
  /\ (length (DocsVisualizer.particles s) + length (DocsVisualizer.particlePool s)
      <= 200)%nat.
Proof.
  intros s.
  assert (Hreach : @DocsVisualizer.reachable approxMath s).
  { apply (@DocsVisualizer.reach_start approxMath
             (DocsVisualizer.setupCanvas
                (DocsVisualizer.initAudio DocsVisualizer.new) 800 200)
             (replicate 128 200%Z) 0%Z false (fun _ => (1 # 2, 1 # 2, 1 # 2))).
    - apply DocsVisualizer.reach_setupCanvas, DocsVisualizer.reach_initAudio,
        DocsVisualizer.reach_new.
    - split; [reflexivity|]. apply Forall_replicate. lia.
    - reflexivity. }
  split; [exact Hreach|].
  exact (@particle_objects_stay_bounded approxMath s Hreach).
Defined.

Lemma spawned_particle_is_on_canvas_witness :
  let s := DocsVisualizer.started in
  let rnd := (1 # 4, 1 # 2, 3 # 4) in
  exists p,
    DocsVisualizer.particles (DocsVisualizer.spawnParticle s rnd 5 60 90)
      = DocsVisualizer.particles s ++ [p]
    /\ 0 <= DocsVisualizer.x p <= DocsVisualizer.canvasWidth s
    /\ DocsVisualizer.canvasHeight s * (2 # 10) <= DocsVisualizer.y p
         <= DocsVisualizer.canvasHeight s * (9 # 10)
    /\ -1 <= DocsVisualizer.vx p < 1 /\ -4 <= DocsVisualizer.vy p <= -1
    /\ 1 # 100 <= DocsVisualizer.decay p <= 2 # 100
    /\ (forall k, (k <= 49)%nat ->
          0 < DocsVisualizer.life (DocsVisualizer.age k p)
          /\ DocsVisualizer.hasDied (DocsVisualizer.age k p) = false)
    /\ DocsVisualizer.life (DocsVisualizer.age 101 p) < 0
    /\ DocsVisualizer.hasDied (DocsVisualizer.age 101 p) = true.
Proof.
  intros s rnd.
  apply (spawned_particle_is_on_canvas s
           (DocsVisualizer.initAudio DocsVisualizer.new) 800 200 rnd 5%nat 60 90);
    try reflexivity; try (vm_compute; intuition discriminate); simpl; lia.
Defined.


(** ** The response of a bar to a held level *)

Section Response.
Import AudioVisualizer.

(** Under a level [h] the smoothed value closes in on [h] from below at
    the rate 0.7 and the peak from above at the rate 0.98 or faster. *)
Lemma barAdvance_held (h a p a' p' L G : Q) :
  barAdvance (3 # 10) h a p a' p' ->
  1 <= h <= 100 -> 0 <= a -> a <= p -> 0 <= G ->
  h - L <= a -> p <= h + G ->
  h - (7 # 10) * L <= a' /\ p' <= h + (98 # 100) * G.
Proof.
  intros [expired [Hp' Ha']] Hh Ha Hap HG Hlo Hhi.
  set (smooth := smoothStep (3 # 10) a h) in *.
  assert (Hs : smooth == (7 # 10) * a + (3 # 10) * h) by (unfold smooth, smoothStep; ring).
  split.
  - subst a'. unfold displayStep.
    apply Qle_trans with smooth; [lra|apply Q.le_max_l].
  - subst p'. unfold peakStep.
    destruct (Qgtb smooth p); [lra|].
    apply Q.max_lub; [|lra].
    destruct expired; lra.
Qed.

Lemma held_envelope (s : t) (dataArray : nat -> list Z) (currentTime : nat -> Z)
    (i : nat) (b : Z) :
  configured s -> isRunning s = true -> barsInRange s -> (i < 64)%nat ->
  (forall k, isByteArray frequencyBinCount (dataArray k)) ->
  (forall k, dataArray k !! i = Some b) ->
  forall n, exists a p,
    barAt (run s dataArray currentTime n) i a p
    /\ levelOfByte b - 100 * geom (7 # 10) n <= a /\ a <= p
    /\ p <= levelOfByte b + 100 * geom (98 # 100) n.
Proof.
  intros Hcfg Hrun Hin Hi Hdata Hheld n.
  pose proof (levelOfByte_range b) as Hh.
  induction n as [|n (a & p & Hat & Hlo & Hap & Hhi)].
  - destruct (Hin i Hi) as (a & p & Hat & H0 & Hap & H100).
    exists a, p. cbn [run geom]. split; [exact Hat|].
    split; [lra|]. split; [exact Hap|lra].
  - destruct (run_invariant s dataArray currentTime n Hcfg Hrun Hin Hdata)
      as (Hc & Hr & Hir).
    destruct (animate_tick _ (dataArray n) (currentTime n) Hc Hr (Hdata n)
                (barsInRange_finite _ Hir)) as (_ & _ & Hstep).
    destruct (Hstep i a p Hi Hat) as (b' & a' & p' & Hb & Hat' & Hadv).
    assert (b' = b) by (specialize (Hheld n); congruence). subst b'.
    destruct (Hir i Hi) as (a0 & p0 & Hat0 & H0 & _ & H100).
    destruct (barAt_functional _ _ _ _ _ _ Hat Hat0) as [-> ->].
    pose proof (geom_nonneg (98 # 100) n ltac:(discriminate)) as HG.
    destruct (barAdvance_held (levelOfByte b) a p a' p'
                (100 * geom (7 # 10) n) (100 * geom (98 # 100) n)
                Hadv Hh H0 Hap ltac:(lra) Hlo Hhi) as [Hlo' Hhi'].
    destruct (barAdvance_range _ a p a' p' Hadv Hh H0 Hap H100) as (_ & Hap' & _).
    exists a', p'. rewrite run_S. cbn [geom].
    split; [exact Hat'|]. split; [lra|]. split; [exact Hap'|lra].
Qed.

(** When the byte of a bar is held at [b] on every tick from a reachable
    running state on, the bar follows it: with [h] the level of [b], after
    [n] ticks [h - 100 * 0.7^n <= smoothed <= peak <= h + 100 * 0.98^n],
    so the smoothed value and the peak both converge to [h]. *)
Theorem bar_follows_held_level (s : t) (dataArray : nat -> list Z)
    (currentTime : nat -> Z) (i : nat) (b : Z) :
  reachable s -> isRunning s = true -> (i < barCount s)%nat ->
  (forall k, isByteArray frequencyBinCount (dataArray k)) ->
  (forall k, dataArray k !! i = Some b) ->
  (forall n, exists a p,
      barAt (run s dataArray currentTime n) i a p
      /\ levelOfByte b - 100 * geom (7 # 10) n <= a /\ a <= p
      /\ p <= levelOfByte b + 100 * geom (98 # 100) n)
  /\ (forall eps, 0 < eps ->
      exists N, forall n, (N <= n)%nat ->
        exists a p,
          barAt (run s dataArray currentTime n) i a p
          /\ Qabs (a - levelOfByte b) < eps /\ Qabs (p - levelOfByte b) < eps).
Proof.
  intros Hreach Hrun Hi Hdata Hheld.
  destruct (reachable_invariant s Hreach) as [Hcfg Hin].
  assert (Hi64 : (i < 64)%nat) by (destruct Hcfg as (Hbars & _); lia).
  pose proof (held_envelope s dataArray currentTime i b Hcfg Hrun Hin Hi64 Hdata Hheld)
    as Henv.
  split; [exact Henv|].
  intros eps Heps.
  destruct (geom_vanishes 100 (7 # 10) eps) as [N1 HN1]; try reflexivity;
    try discriminate; [exact Heps|].
  destruct (geom_vanishes 100 (98 # 100) eps) as [N2 HN2]; try reflexivity;
    try discriminate; [exact Heps|].
  exists (Nat.max N1 N2). intros n Hn.
  destruct (Henv n) as (a & p & Hat & Hlo & Hap & Hhi).
  specialize (HN1 n ltac:(lia)). specialize (HN2 n ltac:(lia)).
  exists a, p. split; [exact Hat|].
  split; apply Qabs_Qlt_condition; split; lra.
Qed.

End Response.

Lemma bar_follows_held_level_witness :
  let loud := replicate 128 200%Z in
  let s := AudioVisualizer.animate AudioVisualizer.started loud 0 in
  let ticks := AudioVisualizer.run s (fun _ => loud) (fun k => (16 * Z.of_nat k)%Z) in
  AudioVisualizer.reachable s
  /\ AudioVisualizer.isRunning s = true
  /\ (7 < AudioVisualizer.barCount s)%nat
  /\ exists a p,
       AudioVisualizer.barAt (ticks 2%nat) 7 a p
       /\ levelOfByte 200 - 100 * geom (7 # 10) 2 <= a /\ a <= p
       /\ p <= levelOfByte 200 + 100 * geom (98 # 100) 2.
Proof.
  intros loud s ticks.
  assert (Hloud : isByteArray AudioVisualizer.frequencyBinCount loud).
  { split; [reflexivity|]. apply Forall_replicate. lia. }
  assert (Hreach : AudioVisualizer.reachable s).
  { apply (AudioVisualizer.reach_start
             (AudioVisualizer.initAudio AudioVisualizer.new) loud 0 s).
    - apply AudioVisualizer.reach_initAudio, AudioVisualizer.reach_new.
    - exact Hloud.
    - reflexivity. }
  assert (Hrun : AudioVisualizer.isRunning s = true) by reflexivity.
  assert (Hi : (7 < AudioVisualizer.barCount s)%nat) by (vm_compute; lia).
  split; [exact Hreach|]. split; [exact Hrun|]. split; [exact Hi|].
  exact (proj1 (bar_follows_held_level s (fun _ => loud)
                  (fun k => (16 * Z.of_nat k)%Z) 7 200 Hreach Hrun Hi
                  (fun _ => Hloud)
                  (fun _ => lookup_replicate_2 128 200%Z 7 ltac:(lia))) 2%nat).
Defined.


(** ** The noise calibration *)

Section NoiseCalibration.
Context `{HostJSON}.
Import Calibration.

(** A loop that rewrites the entries [u .. u + k - 1] of an array in
    place, each from its own old value. *)
Lemma fold_update_range (f : nat -> jsnum -> jsnum) (k u : nat) (noise : list jsnum) :
  (u + k <= length noise)%nat ->
  let noise' :=
    fold_left (fun noise i => js_set i (f i (js_get noise i)) noise) (seq u k) noise in
  length noise' = length noise
  /\ forall j, noise' !! j =
       if (u <=? j)%nat && (j <? u + k)%nat then f j <$> noise !! j else noise !! j.
Proof.
  revert u noise. induction k as [|k IH]; intros u noise Hfit; cbn zeta.
  - split; [reflexivity|]. intros j. cbn [seq fold_left].
    destruct (Nat.leb_spec u j); destruct (Nat.ltb_spec j (u + 0)); simpl;
      reflexivity || lia.
  - cbn [seq fold_left].
    rewrite js_set_inside by lia.
    destruct (lookup_lt_is_Some_2 noise u ltac:(lia)) as [x Hx].
    rewrite (js_get_Some _ _ _ Hx).
    destruct (IH (S u) (<[u := f u x]> noise)) as [Hlen Hlook].
    { rewrite length_insert. lia. }
    cbn zeta in Hlen, Hlook.
    split; [rewrite Hlen; apply length_insert|].
    intros j. rewrite Hlook.
    destruct (Nat.eq_dec j u) as [->|Hne].
    + replace (S u <=? u)%nat with false by (symmetry; apply Nat.leb_gt; lia).
      replace (u <=? u)%nat with true by (symmetry; apply Nat.leb_le; lia).
      replace (u <? u + S k)%nat with true by (symmetry; apply Nat.ltb_lt; lia).
      cbn [andb]. rewrite list_lookup_insert_eq by lia. rewrite Hx. reflexivity.
    + rewrite list_lookup_insert_ne by (intros Heq; apply Hne; symmetry; exact Heq).
      replace (j <? S u + k)%nat with (j <? u + S k)%nat
        by (f_equal; lia).
      destruct (Nat.leb_spec (S u) j); destruct (Nat.leb_spec u j);
        try reflexivity; lia.
Qed.

Lemma zeroFrom_spec (u : nat) (noise : list jsnum) :
  length (zeroFrom u noise) = length noise
  /\ forall j, zeroFrom u noise !! j =
       if (u <=? j)%nat then (fun _ => Num 0) <$> noise !! j else noise !! j.
Proof.
  unfold zeroFrom.
  destruct (Nat.le_gt_cases u (length noise)) as [Hu|Hu].
  - destruct (fold_update_range (fun _ _ => Num 0) (length noise - u) u noise
                ltac:(lia)) as [Hlen Hlook].
    cbn zeta in Hlen, Hlook.
    split; [exact Hlen|]. intros j. rewrite Hlook.
    destruct (Nat.leb_spec u j) as [Huj|Huj]; cbn [andb]; [|reflexivity].
    destruct (Nat.ltb_spec j (u + (length noise - u))) as [Hj|Hj]; [reflexivity|].
    rewrite (lookup_ge_None_2 noise j) by lia. reflexivity.
  - replace (length noise - u)%nat with 0%nat by lia.
    split; [reflexivity|]. intros j. cbn [seq fold_left].
    destruct (Nat.leb_spec u j) as [Huj|Huj]; [|reflexivity].
    rewrite (lookup_ge_None_2 noise j) by lia. reflexivity.
Qed.

Lemma sampleAt_frame (frame : list Z) (i : nat) :
  isByteArray 128 frame -> (i < 128)%nat ->
  exists b, frame !! i = Some b /\ (0 <= b <= 255)%Z
            /\ sampleAt frame i = Num (inject_Z b).
Proof.
  intros [Hlen Hbytes] Hi.
  destruct (lookup_lt_is_Some_2 frame i ltac:(lia)) as [b Hb].
  exists b. split; [exact Hb|].
  split; [exact (proj1 (Forall_lookup _ _) Hbytes i b Hb)|].
  unfold sampleAt. rewrite Z.min_l by lia. apply byteAt_Some. exact Hb.
Qed.

Lemma maxByteOf_snoc (frames : list (list Z)) (frame : list Z) (i : nat) :
  maxByteOf (frames ++ [frame]) i
    = Z.max (maxByteOf frames i) (default 0%Z (frame !! i)).
Proof. unfold maxByteOf. rewrite fold_left_app. reflexivity. Qed.

Lemma maxByteOf_range (frames : list (list Z)) (i : nat) :
  Forall (isByteArray 128) frames -> (0 <= maxByteOf frames i <= 255)%Z.
Proof.
  intros Hframes. unfold maxByteOf.
  assert (Hgen : forall m, (0 <= m <= 255)%Z ->
            (0 <= fold_left (fun m frame => Z.max m (default 0%Z (frame !! i)))
                     frames m <= 255)%Z).
  { induction Hframes as [|frame rest [_ Hbytes] _ IH]; intros m Hm; [exact Hm|].
    cbn [fold_left]. apply IH.
    destruct (frame !! i) as [b|] eqn:Hb; simpl (from_option _ _ _); [|lia].
    pose proof (proj1 (Forall_lookup _ _) Hbytes i b Hb) as Hbyte.
    cbn beta in Hbyte. lia. }
  apply Hgen. lia.
Qed.

Lemma Qmax_scaled (m b : Z) (x factor : Q) :
  0 < factor -> x == inject_Z m * factor ->
  Qmax x (inject_Z b * factor) == inject_Z (Z.max m b) * factor.
Proof.
  intros Hf Hx.
  destruct (Z.max_spec m b) as [[Hlt ->]|[Hle ->]].
  - assert (Hq : inject_Z m < inject_Z b) by (rewrite <- Zlt_Qlt; exact Hlt).
    assert (Hprod : 0 <= (inject_Z b - inject_Z m) * factor)
      by (apply Qmult_le_0_compat; lra).
    destruct (Q.max_spec x (inject_Z b * factor)) as [[_ E]|[Hc E]]; rewrite E; lra.
  - assert (Hq : inject_Z b <= inject_Z m) by (rewrite <- Zle_Qle; exact Hle).
    assert (Hprod : 0 <= (inject_Z m - inject_Z b) * factor)
      by (apply Qmult_le_0_compat; lra).
    destruct (Q.max_spec x (inject_Z b * factor)) as [[Hc E]|[_ E]]; rewrite E; lra.
Qed.

(** One automatic step takes the profile of the frames so far to the
    profile of the frames with the new one. *)
Lemma calibrateStep_profile (s : t) (frames : list (list Z)) (frame : list Z)
    (noise : list jsnum) :
  isRunning s = true -> (noiseCalibrationCount s < 30)%Z ->
  backgroundNoise s = Some noise -> profileIs (8 # 10) frames noise ->
  isByteArray 128 frame ->
  exists noise',
    calibrateStep s frame =
      {| initialised := initialised s; bufferLength := bufferLength s;
         isRunning := isRunning s; backgroundNoise := Some noise';
         noiseCalibrationCount := noiseCalibrationCount s + 1;
         noiseMargin := noiseMargin s;
         manualCalibrationActive := manualCalibrationActive s;
         calibrationSamples := calibrationSamples s |}
    /\ profileIs (8 # 10) (frames ++ [frame]) noise'.
Proof.
  intros Hrun Hcount Hnoise [Hlen Hprof] Hframe.
  unfold calibrateStep. rewrite Hrun, Hnoise.
  replace (noiseCalibrationCount s <? 30)%Z with true
    by (symmetry; apply Z.ltb_lt; exact Hcount).
  cbn [andb]. rewrite Hlen.
  change (usableRangeOf (Z.of_nat 128)) with 76%nat.
  eexists. split; [reflexivity|].
  set (f := fun (i : nat) (old : jsnum) =>
              jmax old (jmul (sampleAt frame i) (Num (8 # 10)))).
  destruct (fold_update_range f 76 0 noise ltac:(lia)) as [Hlen1 Hlook1].
  cbn zeta in Hlen1, Hlook1.
  set (noise1 := fold_left _ (seq 0 76) noise) in *.
  destruct (zeroFrom_spec 76 noise1) as [Hlen2 Hlook2].
  split; [lia|].
  intros i Hi. rewrite Hlook2, Hlook1.
  destruct (Hprof i Hi) as (x & Hx & Hval).
  destruct (sampleAt_frame frame i Hframe Hi) as (b & Hb & Hbyte & Hsample).
  unfold scaledMaximum in *. rewrite maxByteOf_snoc, Hb. simpl (from_option _ _ _).
  rewrite Hx.
  destruct (Nat.ltb_spec i 76) as [Hin|Hout].
  - replace (76 <=? i)%nat with false by (symmetry; apply Nat.leb_gt; lia).
    replace ((0 <=? i)%nat && (i <? 0 + 76)%nat) with true
      by (symmetry; apply andb_true_iff; split;
          [apply Nat.leb_le|apply Nat.ltb_lt]; lia).
    cbn [fmap option_fmap option_map].
    eexists. split; [reflexivity|].
    unfold f. rewrite Hsample. destruct x as [q|]; [|contradiction].
    cbn [jmul jmax isNum] in *.
    apply Qmax_scaled; [reflexivity|exact Hval].
  - replace (76 <=? i)%nat with true by (symmetry; apply Nat.leb_le; lia).
    replace ((0 <=? i)%nat && (i <? 0 + 76)%nat) with false
      by (symmetry; apply andb_false_iff; right; apply Nat.ltb_ge; lia).
    cbn [fmap option_fmap option_map].
    eexists. split; [reflexivity|]. cbn [isNum]. reflexivity.
Qed.

Lemma clearedNoise_profile (s : t) :
  fitsAnalyser s ->
  length (clearedNoise s) = 128%nat
  /\ forall i, (i < 128)%nat -> clearedNoise s !! i = Some (Num 0).
Proof.
  intros [Hbuf Hfit]. unfold clearedNoise.
  destruct (backgroundNoise s) as [noise|].
  - unfold fill0. rewrite Hfit.
    split; [apply length_replicate|]. intros i Hi. apply lookup_replicate_2. exact Hi.
  - rewrite Hbuf. unfold zeros. change (Z.to_nat 128) with 128%nat.
    split; [apply length_replicate|]. intros i Hi. apply lookup_replicate_2. exact Hi.
Qed.

(** The automatic calibration computes, bin by bin, 0.8 times the largest
    byte seen: after [calibrateNoise] and one step per frame, for at most
    30 frames of 128 bytes, the profile holds 0.8 * max over the frames of
    the bin inside the usable range of 76 bins and 0 beyond it, and the
    step count is the number of frames; after 30 frames a further step
    changes nothing. *)
Theorem automatic_profile_is_scaled_maximum (s : t) (frames : list (list Z)) :
  isRunning s = true -> fitsAnalyser s ->
  (length frames <= 30)%nat -> Forall (isByteArray 128) frames ->
  let s' := fold_left calibrateStep frames (calibrateNoise s) in
  noiseCalibrationCount s' = Z.of_nat (length frames)
  /\ (exists noise, backgroundNoise s' = Some noise
                    /\ profileIs (8 # 10) frames noise)
  /\ (length frames = 30%nat -> forall frame, calibrateStep s' frame = s').
Proof.
  intros Hrun Hfit Hlen Hframes s'.
  assert (Hinv : isRunning s' = true
                 /\ noiseCalibrationCount s' = Z.of_nat (length frames)
                 /\ exists noise, backgroundNoise s' = Some noise
                                  /\ profileIs (8 # 10) frames noise).
  { unfold s'. clear s'. revert Hlen Hframes.
    induction frames as [|frame frames IH] using rev_ind; intros Hlen Hframes.
    - cbn [fold_left]. split; [exact Hrun|]. split; [reflexivity|].
      destruct (clearedNoise_profile s Hfit) as [Hl Hz].
      exists (clearedNoise s). split; [reflexivity|].
      split; [exact Hl|]. intros i Hi. exists (Num 0). split; [apply Hz; exact Hi|].
      unfold scaledMaximum, maxByteOf. cbn [fold_left isNum].
      destruct (i <? 76)%nat; reflexivity.
    - rewrite length_app in Hlen. cbn [length] in Hlen.
      apply Forall_app in Hframes as [Hframes Hframe].
      inversion Hframe as [|? ? Hbytes _]; subst.
      destruct (IH ltac:(lia) Hframes) as (Hrun' & Hcount & noise & Hnoise & Hprof).
      rewrite fold_left_app. cbn [fold_left].
      set (s1 := fold_left calibrateStep frames (calibrateNoise s)) in *.
      destruct (calibrateStep_profile s1 frames frame noise Hrun' ltac:(lia)
                  Hnoise Hprof Hbytes) as (noise' & -> & Hprof').
      cbn [isRunning noiseCalibrationCount backgroundNoise].
      split; [exact Hrun'|].
      split; [rewrite Hcount, length_app; cbn [length]; lia|].
      exists noise'. split; [reflexivity|exact Hprof']. }
  destruct Hinv as (Hrun' & Hcount & Hnoise).
  split; [exact Hcount|]. split; [exact Hnoise|].
  intros Hfull frame. unfold calibrateStep. rewrite Hcount, Hfull. reflexivity.
Qed.

Lemma maxValueOf_frames (samples : list (list Z)) (i : nat) :
  Forall (isByteArray 128) samples -> (i < 128)%nat ->
  exists q, maxValueOf samples i = Num q /\ q == inject_Z (maxByteOf samples i).
Proof.
  intros Hsamples Hi. unfold maxValueOf, maxByteOf.
  assert (Hgen : forall (m : Z) (q : Q), q == inject_Z m ->
            exists q',
              fold_left (fun maxValue sample => jmax maxValue (sampleAt sample i))
                        samples (Num q) = Num q'
              /\ q' == inject_Z (fold_left
                          (fun m frame => Z.max m (default 0%Z (frame !! i)))
                          samples m)).
  { induction Hsamples as [|sample rest Hsample _ IH]; intros m q Hq.
    - exists q. split; [reflexivity|exact Hq].
    - destruct (sampleAt_frame sample i Hsample Hi) as (b & Hb & _ & Hat).
      cbn [fold_left]. rewrite Hat, Hb. simpl (from_option _ _ _). cbn [jmax].
      apply IH.
      pose proof (Qmax_scaled m b q 1 ltac:(reflexivity) ltac:(lra)) as Hmax.
      rewrite !Qmult_1_r in Hmax. exact Hmax. }
  apply (Hgen 0%Z 0). reflexivity.
Qed.

(** The manual calibration computes, bin by bin, 0.9 times the largest
    byte of the recorded samples. *)
Lemma processCalibrationSamples_profile (s : t) :
  fitsAnalyser s -> Forall (isByteArray 128) (calibrationSamples s) ->
  exists noise,
    processCalibrationSamples s = withNoise s (Some noise)
    /\ profileIs (9 # 10) (calibrationSamples s) noise.
Proof.
  intros Hfit Hsamples.
  destruct (clearedNoise_profile s Hfit) as [Hl Hz].
  unfold processCalibrationSamples.
  replace (bufferLength s) with 128%Z by (symmetry; apply Hfit).
  change (usableRangeOf 128) with 76%nat.
  eexists. split; [reflexivity|].
  set (f := fun (i : nat) (_ : jsnum) =>
              jmul (maxValueOf (calibrationSamples s) i) (Num (9 # 10))).
  destruct (fold_update_range f 76 0 (clearedNoise s) ltac:(lia)) as [Hlen1 Hlook1].
  cbn zeta in Hlen1, Hlook1.
  set (noise1 := fold_left _ (seq 0 76) (clearedNoise s)) in *.
  destruct (zeroFrom_spec 76 noise1) as [Hlen2 Hlook2].
  split; [lia|].
  intros i Hi. rewrite Hlook2, Hlook1, (Hz i Hi).
  unfold scaledMaximum.
  destruct (Nat.ltb_spec i 76) as [Hin|Hout].
  - replace (76 <=? i)%nat with false by (symmetry; apply Nat.leb_gt; lia).
    replace ((0 <=? i)%nat && (i <? 0 + 76)%nat) with true
      by (symmetry; apply andb_true_iff; split;
          [apply Nat.leb_le|apply Nat.ltb_lt]; lia).
    cbn [fmap option_fmap option_map].
    eexists. split; [reflexivity|]. unfold f.
    destruct (maxValueOf_frames (calibrationSamples s) i Hsamples Hi) as (q & -> & Hq).
    cbn [jmul isNum]. rewrite Hq. reflexivity.
  - replace (76 <=? i)%nat with true by (symmetry; apply Nat.leb_le; lia).
    replace ((0 <=? i)%nat && (i <? 0 + 76)%nat) with false
      by (symmetry; apply andb_false_iff; right; apply Nat.ltb_ge; lia).
    cbn [fmap option_fmap option_map].
    eexists. split; [reflexivity|]. cbn [isNum]. reflexivity.
Qed.

Lemma finiteProfile_numbers (noise : list jsnum) :
  Forall (fun x => x <> NaN) noise ->
  exists numbers, finiteProfile noise = Some numbers /\ noise = map Num numbers.
Proof.
  induction 1 as [|x noise Hx _ (numbers & Hfin & Hmap)].
  - exists []. split; reflexivity.
  - destruct x as [q|]; [|congruence].
    exists (q :: numbers). cbn [finiteProfile map]. rewrite Hfin, Hmap.
    split; reflexivity.
Qed.

Lemma profileIs_finite (factor : Q) (frames : list (list Z)) (noise : list jsnum) :
  profileIs factor frames noise -> Forall (fun x => x <> NaN) noise.
Proof.
  intros [Hlen Hprof]. apply Forall_lookup. intros i x Hx.
  destruct (Hprof i ltac:(rewrite <- Hlen; exact (lookup_lt_Some _ _ _ Hx)))
    as (y & Hy & Hval).
  assert (y = x) by congruence. subst y.
  destruct x; [discriminate|contradiction].
Qed.

(** A manual calibration ends in the storage: with samples of 128 bytes
    recorded, [stopManualCalibration] leaves calibration mode, puts into
    memory the profile of 0.9 times the largest byte of each bin (0 beyond
    the 76 usable bins), and a load within seven days on a writable
    storage brings back exactly the numbers in memory. *)
Theorem manual_calibration_is_stored (s : t) (now later : Z)
    (store : NoiseVisualizer.localStorage) (fresh : NoiseVisualizer.t) :
  fitsAnalyser s -> (0 < length (calibrationSamples s))%nat ->
  Forall (isByteArray 128) (calibrationSamples s) ->
  (later - now < NoiseVisualizer.maxAge)%Z ->
  exists s' store' numbers,
    stopManualCalibration s now true store = Some (s', store')
    /\ manualCalibrationActive s' = false
    /\ backgroundNoise s' = Some (map Num numbers)
    /\ profileIs (9 # 10) (calibrationSamples s) (map Num numbers)
    /\ NoiseVisualizer.loadStoredNoiseProfile fresh later true store' =
         ({| NoiseVisualizer.backgroundNoise := Some numbers;
             NoiseVisualizer.noiseMargin := NoiseVisualizer.noiseMargin fresh |},
          true).
Proof.
  intros Hfit Hsome Hsamples Hage.
  unfold stopManualCalibration.
  set (s0 := {| initialised := initialised s; bufferLength := bufferLength s;
                isRunning := isRunning s; backgroundNoise := backgroundNoise s;
                noiseCalibrationCount := noiseCalibrationCount s;
                noiseMargin := noiseMargin s; manualCalibrationActive := false;
                calibrationSamples := calibrationSamples s |}).
  change (calibrationSamples s0) with (calibrationSamples s).
  replace (0 <? length (calibrationSamples s))%nat with true
    by (symmetry; apply Nat.ltb_lt; exact Hsome).
  destruct (processCalibrationSamples_profile s0 Hfit Hsamples)
    as (noise & -> & Hprof).
  change (calibrationSamples s0) with (calibrationSamples s) in Hprof.
  destruct (finiteProfile_numbers noise (profileIs_finite _ _ _ Hprof))
    as (numbers & Hfin & ->).
  unfold saveNoiseProfile, persisted.
  cbn [withNoise backgroundNoise noiseMargin]. rewrite Hfin.
  cbn [option_map].
  eexists _, _, numbers. split; [reflexivity|].
  split; [reflexivity|]. split; [reflexivity|]. split; [exact Hprof|].
  unfold NoiseVisualizer.loadStoredNoiseProfile.
  erewrite saveNoiseProfile_stored by reflexivity. rewrite JSON_roundtrip.
  cbn [timestamp noiseProfile].
  apply Z.ltb_lt in Hage. rewrite Hage. reflexivity.
Qed.

Lemma animate_recording (s : t) (dataArray : list Z) (now : Z) (writable : bool)
    (store : NoiseVisualizer.localStorage) (s' : t)
    (store' : NoiseVisualizer.localStorage) :
  animate s dataArray now writable store = Some (s', store') ->
  recordingBounded s -> recordingBounded s'.
Proof.
  intros Hstep (Hlen & Hactive & Hcount). unfold animate in Hstep.
  destruct (isRunning s); cbn [negb] in Hstep;
    [|injection Hstep as <- _; split; [|split]; assumption].
  destruct (manualCalibrationActive s) eqn:Hact;
    [|injection Hstep as <- _; split; [|split]; [exact Hlen| |exact Hcount];
      intros Habs; rewrite Hact in Habs; discriminate].
  specialize (Hactive eq_refl).
  unfold recordCalibrationSample in Hstep.
  cbn [calibrationSamples] in Hstep.
  destruct (Nat.leb_spec 100 (length (calibrationSamples s ++ [dataArray])))
    as [Hfull|Hroom].
  - unfold stopManualCalibration in Hstep.
    cbn [calibrationSamples initialised bufferLength isRunning backgroundNoise
         noiseCalibrationCount noiseMargin] in Hstep.
    rewrite length_app in Hfull. cbn [length] in Hfull.
    destruct (0 <? length (calibrationSamples s ++ [dataArray]))%nat.
    + destruct (saveNoiseProfile _ now writable store) as [st|];
        [|discriminate].
      cbn [option_map] in Hstep. injection Hstep as <- _.
      unfold recordingBounded, processCalibrationSamples.
      cbn [withNoise calibrationSamples manualCalibrationActive noiseCalibrationCount].
      rewrite length_app. cbn [length].
      split; [lia|]. split; [discriminate|exact Hcount].
    + injection Hstep as <- _.
      unfold recordingBounded.
      cbn [calibrationSamples manualCalibrationActive noiseCalibrationCount].
      rewrite length_app. cbn [length].
      split; [lia|]. split; [discriminate|exact Hcount].
  - injection Hstep as <- _.
    unfold recordingBounded.
    cbn [calibrationSamples manualCalibrationActive noiseCalibrationCount].
    split; [lia|]. split; [intros _; exact Hroom|exact Hcount].
Qed.

(** In every state the element reaches, a manual calibration holds at
    most 100 samples, fewer than 100 while it is still recording, and the
    automatic calibration has taken at most 30 steps. *)
Theorem recording_stays_bounded (s : t) : reachable s -> recordingBounded s.
Proof.
  induction 1 as [now readable store|s _ IH
                 |s dataArray now writable store s' store' _ IH Hstep
                 |s dataArray now writable store s' store' _ IH Hstep
                 |s dataArray _ IH
                 |s dataArray now writable store s' store' _ IH Hstep
                 |s now writable store s' store' _ IH Hstep
                 |s _ IH|s _ IH].
  - split; [simpl; lia|]. split; [discriminate|simpl; lia].
  - unfold initAudio. destruct (backgroundNoise s); exact IH.
  - unfold start in Hstep. destruct (initialised s); [|discriminate].
    cbn [backgroundNoise] in Hstep.
    apply (animate_recording _ _ _ _ _ _ _ Hstep).
    destruct IH as (Hlen & Hactive & Hcount).
    destruct (backgroundNoise s) as [noise|];
      [destruct (forallb isZero noise)|];
      (split; [exact Hlen|]; split; [exact Hactive|]; simpl; lia).
  - exact (animate_recording _ _ _ _ _ _ _ Hstep IH).
  - destruct IH as (Hlen & Hactive & Hcount). unfold calibrateStep.
    destruct (Z.ltb_spec (noiseCalibrationCount s) 30) as [Hlt|_]; cbn [andb];
      [|split; [|split]; assumption].
    destruct (isRunning s); [|split; [|split]; assumption].
    destruct (backgroundNoise s); [|split; [|split]; assumption].
    split; [exact Hlen|]. split; [exact Hactive|]. simpl. lia.
  - unfold startManualCalibration in Hstep.
    apply (animate_recording _ _ _ _ _ _ _ Hstep).
    destruct IH as (Hlen & Hactive & Hcount).
    split; [simpl; lia|]. split; [intros _; simpl; lia|].
    destruct (initialised s); [exact Hcount|].
    unfold initAudio. destruct (backgroundNoise s); exact Hcount.
  - destruct IH as (Hlen & Hactive & Hcount).
    unfold stopManualCalibration in Hstep.
    cbn [calibrationSamples] in Hstep.
    destruct (0 <? length (calibrationSamples s))%nat.
    + destruct (saveNoiseProfile _ now writable store) as [st|]; [|discriminate].
      cbn [option_map] in Hstep. injection Hstep as <- _.
      split; [exact Hlen|]. split; [discriminate|exact Hcount].
    + injection Hstep as <- _.
      split; [exact Hlen|]. split; [discriminate|exact Hcount].
  - exact IH.
  - exact IH.
Qed.

End NoiseCalibration.


Lemma automatic_profile_is_scaled_maximum_witness :
  let s := {| Calibration.initialised := true; Calibration.bufferLength := 128;
              Calibration.isRunning := true; Calibration.backgroundNoise := None;
              Calibration.noiseCalibrationCount := 7;
              Calibration.noiseMargin := 5;
              Calibration.manualCalibrationActive := false;
              Calibration.calibrationSamples := [] |} in
  let frames := [replicate 128 40%Z; replicate 128 90%Z; replicate 128 60%Z] in
  let s' := fold_left Calibration.calibrateStep frames (Calibration.calibrateNoise s) in
  Calibration.fitsAnalyser s
  /\ Forall (isByteArray 128) frames
  /\ Calibration.noiseCalibrationCount s' = 3%Z
  /\ exists noise, Calibration.backgroundNoise s' = Some noise
                   /\ Calibration.profileIs (8 # 10) frames noise.
Proof.
  intros s frames s'.
  assert (Hfit : Calibration.fitsAnalyser s) by (split; [reflexivity|exact Logic.I]).
  assert (Hframes : Forall (isByteArray 128) frames).
  { repeat (constructor; [apply replicate_isByteArray; lia|]). constructor. }
  split; [exact Hfit|]. split; [exact Hframes|].
  destruct (automatic_profile_is_scaled_maximum s frames eq_refl Hfit
              ltac:(simpl; lia) Hframes) as (Hcount & Hnoise & _).
  split; [exact Hcount|exact Hnoise].
Defined.

Lemma manual_calibration_is_stored_witness :
  let s := {| Calibration.initialised := true; Calibration.bufferLength := 128;
              Calibration.isRunning := true; Calibration.backgroundNoise := None;
              Calibration.noiseCalibrationCount := 0;
              Calibration.noiseMargin := 5;
              Calibration.manualCalibrationActive := true;
              Calibration.calibrationSamples :=
                [replicate 128 30%Z; replicate 128 50%Z] |} in
  let fresh := {| NoiseVisualizer.backgroundNoise := None;
                  NoiseVisualizer.noiseMargin := 5 |} in
  Calibration.fitsAnalyser s
  /\ (86400000 - 1000 < NoiseVisualizer.maxAge)%Z
  /\ exists s' store' numbers,
       @Calibration.stopManualCalibration plainJSON s 1000 true ∅ = Some (s', store')
       /\ Calibration.manualCalibrationActive s' = false
       /\ Calibration.backgroundNoise s' = Some (map Num numbers)
       /\ Calibration.profileIs (9 # 10) (Calibration.calibrationSamples s)
            (map Num numbers)
       /\ @NoiseVisualizer.loadStoredNoiseProfile plainJSON fresh 86400000 true store' =
            ({| NoiseVisualizer.backgroundNoise := Some numbers;
                NoiseVisualizer.noiseMargin := 5 |}, true).
Proof.
  intros s fresh.
  assert (Hfit : Calibration.fitsAnalyser s) by (split; [reflexivity|exact Logic.I]).
  assert (Hage : (86400000 - 1000 < NoiseVisualizer.maxAge)%Z) by reflexivity.
  split; [exact Hfit|]. split; [exact Hage|].
  apply (@manual_calibration_is_stored plainJSON s 1000 86400000 ∅ fresh Hfit);
    [simpl; lia| |exact Hage].
  repeat (constructor; [apply replicate_isByteArray; lia|]). constructor.
Defined.

Lemma recording_stays_bounded_witness :
  let s := Calibration.initAudio (@Calibration.new plainJSON 0 true ∅) in
  exists s' store',
    @Calibration.startManualCalibration plainJSON s (replicate 128 30%Z) 1000 true ∅
      = Some (s', store')
    /\ @Calibration.reachable plainJSON s'
    /\ Calibration.recordingBounded s'.
Proof.
  intros s.
  destruct (@Calibration.startManualCalibration plainJSON s (replicate 128 30%Z)
              1000 true ∅) as [[s' store']|] eqn:Hstart; [|vm_compute in Hstart; discriminate].
  assert (Hreach : @Calibration.reachable plainJSON s').
  { apply (@Calibration.reach_startManualCalibration plainJSON s
             (replicate 128 30%Z) 1000 true ∅ s' store'); [|exact Hstart].
    apply Calibration.reach_initAudio, Calibration.reach_new. }
  exists s', store'. split; [reflexivity|]. split; [exact Hreach|].
  exact (@recording_stays_bounded plainJSON s' Hreach).
Defined.


(** ** The noise profile at work *)

Section NoiseLevels.
Context `{HostJSON}.
Import NoiseVisualizer.

(** The level curve with noise subtraction, on finite inputs. *)
Lemma processAudioLevel_finite (s : t) (raw noise : Q) :
  processAudioLevel s (Num raw) (Num noise) =
    Num (Qmax 1 (Qmin 100 (Qmax 0 (raw - noise - noiseMargin s)
                           / inject_Z 255 * 100))).
Proof. reflexivity. Qed.

(** Noise subtraction is monotone: a louder bin never shows a lower bar, a
    larger noise estimate never a higher one, and a bin that is not above
    its noise estimate by more than the margin shows the floor 1. *)
Theorem noise_subtraction_is_monotone (s : t) (raw raw' noise noise' : Q) :
  raw <= raw' -> noise' <= noise ->
  exists h h',
    processAudioLevel s (Num raw) (Num noise) = Num h
    /\ processAudioLevel s (Num raw') (Num noise') = Num h'
    /\ h <= h'
    /\ (raw <= noise + noiseMargin s -> h == 1).
Proof.
  intros Hraw Hnoise. rewrite !processAudioLevel_finite.
  eexists _, _. split; [reflexivity|]. split; [reflexivity|].
  set (m := noiseMargin s).
  set (c := Qmax 0 (raw - noise - m)). set (c' := Qmax 0 (raw' - noise' - m)).
  assert (Hc : c <= c' /\ 0 <= c /\ (raw <= noise + m -> c == 0)).
  { unfold c, c'.
    destruct (Q.max_spec 0 (raw - noise - m)) as [[H1 E1]|[H1 E1]];
      destruct (Q.max_spec 0 (raw' - noise' - m)) as [[H2 E2]|[H2 E2]];
      rewrite E1, E2; repeat split; try lra; intros; lra. }
  destruct Hc as (Hcc & Hc0 & Hfloor).
  unfold Qdiv. change (/ inject_Z 255) with (1 # 255).
  clearbody c c'.
  set (b := c * (1 # 255) * 100). set (b' := c' * (1 # 255) * 100).
  assert (Hb : b <= b' /\ (c == 0 -> b == 0)) by (unfold b, b'; split; [lra|intros ->; ring]).
  destruct Hb as [Hbb Hb0]. clearbody b b'.
  split.
  - apply Q.max_le_compat_l. apply Q.min_le_compat_l. exact Hbb.
  - intros Hquiet. specialize (Hb0 (Hfloor Hquiet)).
    destruct (Q.min_spec 100 b) as [[H1 E1]|[H1 E1]];
      destruct (Q.max_spec 1 (Qmin 100 b)) as [[H2 E2]|[H2 E2]];
      rewrite E2; try reflexivity; lra.
Qed.

(** The storage holds the latest profile only: after two saves a load
    within seven days of the second brings back the second profile; once
    the profile is cleared, or when the storage cannot be read, a load
    answers false and leaves the profile in memory null. *)
Theorem storage_holds_latest_profile (s1 s2 fresh : t) (noise1 noise2 : list Q)
    (saved1 saved2 now : Z) (store : localStorage) :
  backgroundNoise s1 = Some noise1 -> backgroundNoise s2 = Some noise2 ->
  (now - saved2 < maxAge)%Z ->
  let store' :=
    saveNoiseProfile s2 saved2 true (saveNoiseProfile s1 saved1 true store) in
  let nothing := ({| backgroundNoise := None; noiseMargin := noiseMargin fresh |},
                  false) in
  loadStoredNoiseProfile fresh now true store' =
    ({| backgroundNoise := Some noise2; noiseMargin := noiseMargin fresh |}, true)
  /\ loadStoredNoiseProfile fresh now true
       (snd (clearStoredNoiseProfile s2 true store')) = nothing
  /\ loadStoredNoiseProfile fresh now false store' = nothing.
Proof.
  intros Hnoise1 Hnoise2 Hage store' nothing.
  split; [|split].
  - unfold loadStoredNoiseProfile, store'.
    rewrite (saveNoiseProfile_stored s2 noise2 saved2 _ Hnoise2), JSON_roundtrip.
    cbn [timestamp noiseProfile].
    apply Z.ltb_lt in Hage. rewrite Hage. reflexivity.
  - unfold loadStoredNoiseProfile, clearStoredNoiseProfile. cbn [snd].
    rewrite lookup_delete_eq. reflexivity.
  - reflexivity.
Qed.

End NoiseLevels.

Lemma noise_subtraction_is_monotone_witness :
  let s := {| NoiseVisualizer.backgroundNoise := None; NoiseVisualizer.noiseMargin := 5 |} in
  20 <= 120 /\ 30 <= 40
  /\ exists h h',
       NoiseVisualizer.processAudioLevel s (Num 20) (Num 40) = Num h
       /\ NoiseVisualizer.processAudioLevel s (Num 120) (Num 30) = Num h'
       /\ h <= h' /\ h == 1.
Proof.
  intros s.
  assert (Hraw : 20 <= 120) by discriminate.
  assert (Hnoise : 30 <= 40) by discriminate.
  split; [exact Hraw|]. split; [exact Hnoise|].
  destruct (noise_subtraction_is_monotone s 20 120 40 30 Hraw Hnoise)
    as (h & h' & Hh & Hh' & Hle & Hfloor).
  exists h, h'. split; [exact Hh|]. split; [exact Hh'|]. split; [exact Hle|].
  apply Hfloor. vm_compute. discriminate.
Defined.

Lemma storage_holds_latest_profile_witness :
  let s1 := {| NoiseVisualizer.backgroundNoise := Some [12; 7 # 2; 0];
               NoiseVisualizer.noiseMargin := 5 |} in
  let s2 := {| NoiseVisualizer.backgroundNoise := Some [9; 1; 0];
               NoiseVisualizer.noiseMargin := 5 |} in
  let fresh := {| NoiseVisualizer.backgroundNoise := None;
                  NoiseVisualizer.noiseMargin := 5 |} in
  let store' :=
    @NoiseVisualizer.saveNoiseProfile plainJSON s2 2000 true
      (@NoiseVisualizer.saveNoiseProfile plainJSON s1 1000 true ∅) in
  (86400000 - 2000 < NoiseVisualizer.maxAge)%Z
  /\ @NoiseVisualizer.loadStoredNoiseProfile plainJSON fresh 86400000 true store' =
       ({| NoiseVisualizer.backgroundNoise := Some [9; 1; 0];
           NoiseVisualizer.noiseMargin := 5 |}, true).
Proof.
  intros s1 s2 fresh store'.
  assert (Hage : (86400000 - 2000 < NoiseVisualizer.maxAge)%Z) by reflexivity.
  split; [exact Hage|].
  exact (proj1 (@storage_holds_latest_profile plainJSON s1 s2 fresh [12; 7 # 2; 0]
                  [9; 1; 0] 1000 2000 86400000 ∅ eq_refl eq_refl Hage)).
Defined.


(** ** The page with the start button *)

Section PageRuns.
Context `{HostMath}.
Import StartStopApp.

Lemma visualizer_animate_running (s : AudioVisualizer.t) (dataArray : list Z)
    (currentTime : Z) :
  AudioVisualizer.configured s ->
  AudioVisualizer.barsInRange s ->
  isByteArray 128 dataArray ->
  AudioVisualizer.isRunning (AudioVisualizer.animate s dataArray currentTime)
    = AudioVisualizer.isRunning s.
Proof.
  intros Hcfg Hin Hdata.
  destruct (AudioVisualizer.isRunning s) eqn:Hrun.
  - apply (animate_tick s dataArray currentTime Hcfg Hrun Hdata
             (barsInRange_finite s Hin)).
  - unfold AudioVisualizer.animate. rewrite Hrun. exact Hrun.
Qed.

Lemma visualizer_start_running (s s' : AudioVisualizer.t) (dataArray : list Z)
    (currentTime : Z) :
  AudioVisualizer.reachable s -> isByteArray 128 dataArray ->
  AudioVisualizer.start s dataArray currentTime = Some s' ->
  AudioVisualizer.isRunning s' = true.
Proof.
  intros Hreach Hdata Hstart.
  destruct (reachable_invariant s Hreach) as [Hcfg Hin].
  unfold AudioVisualizer.start in Hstart.
  destruct (AudioVisualizer.initialised s) eqn:Hinit; [|discriminate].
  injection Hstart as <-.
  rewrite visualizer_animate_running; [reflexivity| |exact Hin|exact Hdata].
  destruct Hcfg as (Hbars & Hfactor & Hls & Hlp & Hlt & Hri & Hbuf).
  unfold AudioVisualizer.configured. simpl.
  repeat split; try assumption. intros _. exact Hinit.
Qed.

Lemma meters_frame_running (m : ChannelMeters.t) (dataArray : list Z)
    (channel : string) :
  ChannelMeters.isRunning (snd (ChannelMeters.calculateFilteredRMS m dataArray channel))
    = ChannelMeters.isRunning m.
Proof.
  destruct (calculateFilteredRMS_state m dataArray channel) as [->|[pct ->]];
    [reflexivity|].
  unfold ChannelMeters.setHistory. destruct (ChannelMeters.is_left channel); reflexivity.
Qed.

Lemma meters_animate_running (m : ChannelMeters.t) (leftData rightData : list Z) :
  ChannelMeters.isRunning (snd (ChannelMeters.animate m leftData rightData))
    = ChannelMeters.isRunning m.
Proof.
  unfold ChannelMeters.animate.
  destruct (negb (ChannelMeters.isRunning m)); [reflexivity|].
  pose proof (meters_frame_running m leftData "left") as H1.
  destruct (ChannelMeters.calculateFilteredRMS m leftData "left") as [leftLevel m1].
  pose proof (meters_frame_running m1 rightData "right") as H2.
  destruct (ChannelMeters.calculateFilteredRMS m1 rightData "right") as [rightLevel m2].
  cbn [snd] in *. congruence.
Qed.

Lemma meters_calibrate_running (m m' : ChannelMeters.t) (leftData rightData : list Z) :
  ChannelMeters.calibrate m leftData rightData = Some m' ->
  ChannelMeters.isRunning m' = ChannelMeters.isRunning m.
Proof.
  unfold ChannelMeters.calibrate.
  destruct ((ChannelMeters.calibrationSamples m <? 20)%Z && ChannelMeters.isRunning m);
    [|intros Heq; injection Heq as <-; reflexivity].
  destruct ((length leftData =? 0)%nat || (length rightData <? length leftData)%nat);
    [discriminate|].
  intros Heq. injection Heq as <-. reflexivity.
Qed.

Lemma startVisualizer_inStep (p : t) (answer : microphone) :
  inStep p -> bytes answer -> inStep (startVisualizer p answer).
Proof.
  intros (Hsame & Himp & Hv & Hm) Hbytes.
  destruct answer as [dataArray currentTime leftData rightData|];
    [|split; [|split; [|split]]; assumption].
  destruct Hbytes as (Hdata & Hleft & Hright).
  unfold startVisualizer.
  destruct (AudioVisualizer.start (AudioVisualizer.initAudio (visualizer p))
              dataArray currentTime) as [v'|] eqn:Hstart.
  - pose proof (AudioVisualizer.reach_initAudio _ Hv) as Hinit.
    unfold inStep. cbn [visualizer channelMeters isRunning].
    split; [|split; [reflexivity|split]].
    + rewrite (visualizer_start_running _ v' dataArray currentTime Hinit Hdata Hstart).
      unfold ChannelMeters.start. rewrite meters_animate_running. reflexivity.
    + exact (AudioVisualizer.reach_start _ dataArray currentTime v' Hinit Hdata Hstart).
    + apply ChannelMeters.reach_start; assumption.
  - unfold AudioVisualizer.start in Hstart. discriminate.
Qed.

Lemma stopVisualizer_inStep (p : t) : inStep p -> inStep (stopVisualizer p).
Proof.
  intros (Hsame & Himp & Hv & Hm).
  split; [reflexivity|]. split; [discriminate|].
  split; [apply AudioVisualizer.reach_stop; exact Hv
         |apply ChannelMeters.reach_stop; exact Hm].
Qed.

Lemma page_inStep (p : t) : reachable p -> inStep p.
Proof.
  induction 1 as [|p answer _ IH Hbytes|p answer _ IH Hbytes|p hidden _ IH|p _ IH
                 |p dataArray currentTime _ IH Hdata
                 |p leftData rightData _ IH Hleft Hright
                 |p leftData rightData _ IH Hleft Hright].
  - split; [reflexivity|]. split; [discriminate|].
    split; [apply AudioVisualizer.reach_new|apply ChannelMeters.reach_new].
  - unfold toggleVisualizer. destruct (negb (isRunning p));
      [apply startVisualizer_inStep; assumption|apply stopVisualizer_inStep; exact IH].
  - apply startVisualizer_inStep; assumption.
  - unfold visibilitychange, pauseVisualizer.
    destruct (isRunning p) eqn:Hrun; destruct hidden; cbn [andb]; try exact IH.
    destruct IH as (Hsame & Himp & Hv & Hm).
    split; [reflexivity|]. split; [discriminate|].
    split; [apply AudioVisualizer.reach_stop; exact Hv
           |apply ChannelMeters.reach_stop; exact Hm].
  - unfold beforeunload. destruct (isRunning p);
      [apply stopVisualizer_inStep; exact IH|exact IH].
  - destruct IH as (Hsame & Himp & Hv & Hm).
    destruct (reachable_invariant _ Hv) as [Hcfg Hin].
    unfold inStep, tickVisualizer. cbn [visualizer channelMeters isRunning].
    rewrite (visualizer_animate_running _ dataArray currentTime Hcfg Hin Hdata).
    split; [exact Hsame|]. split; [exact Himp|].
    split; [apply AudioVisualizer.reach_animate; assumption|exact Hm].
  - destruct IH as (Hsame & Himp & Hv & Hm).
    unfold inStep, tickMeters. cbn [visualizer channelMeters isRunning].
    rewrite meters_animate_running.
    split; [exact Hsame|]. split; [exact Himp|].
    split; [exact Hv|apply ChannelMeters.reach_animate; assumption].
  - destruct IH as (Hsame & Himp & Hv & Hm).
    unfold calibrateMeters.
    destruct (ChannelMeters.calibrate (channelMeters p) leftData rightData)
      as [m|] eqn:Hcal; [|split; [|split; [|split]]; assumption].
    unfold inStep. cbn [visualizer channelMeters isRunning].
    rewrite (meters_calibrate_running _ m leftData rightData Hcal).
    split; [exact Hsame|]. split; [exact Himp|].
    split; [exact Hv|].
    exact (ChannelMeters.reach_calibrate _ leftData rightData m Hm Hleft Hright Hcal).
Qed.

(** On the page with the start button, through any sequence of clicks,
    automatic starts, refusals of the microphone, hidden tabs, unloads,
    ticks and calibration steps, the visualizer and the meters run or
    rest together, they run only while the page's own flag is set, and
    each is in a state its element reaches by itself, so what holds of
    the reachable states of the elements holds on the page. *)
Theorem page_elements_run_together (p : t) :
  reachable p ->
  AudioVisualizer.isRunning (visualizer p) = ChannelMeters.isRunning (channelMeters p)
  /\ (AudioVisualizer.isRunning (visualizer p) = true -> isRunning p = true)
  /\ AudioVisualizer.reachable (visualizer p)
  /\ ChannelMeters.reachable (channelMeters p).
Proof.
  intros Hreach. destruct (page_inStep p Hreach) as (Hsame & Himp & Hv & Hm).
  split; [exact Hsame|]. split; [exact Himp|]. split; [exact Hv|exact Hm].
Qed.

(** Hiding the tab of a running page stops both elements but leaves the
    page's flag and the button as they were; showing the tab again
    restarts nothing; the next click then only stops the page, and it
    takes a second click, with the microphone granted, to run again. *)
Theorem hidden_tab_needs_two_clicks (p : t) (dataArray : list Z) (currentTime : Z)
    (leftData rightData : list Z) :
  reachable p -> isRunning p = true ->
  bytes (Granted dataArray currentTime leftData rightData) ->
  let answer := Granted dataArray currentTime leftData rightData in
  let hidden := visibilitychange p true in
  let shown := visibilitychange hidden false in
  let click1 := toggleVisualizer shown answer in
  let click2 := toggleVisualizer click1 answer in
  (idle hidden /\ isRunning hidden = true
   /\ startBtnActive hidden = startBtnActive p)
  /\ shown = hidden
  /\ (idle click1 /\ isRunning click1 = false)
  /\ (isRunning click2 = true
      /\ AudioVisualizer.isRunning (visualizer click2) = true
      /\ ChannelMeters.isRunning (channelMeters click2) = true).
Proof.
  intros Hreach Hrun Hbytes answer hidden shown click1 click2.
  assert (Hhidden : hidden =
            {| isRunning := true;
               visualizer := AudioVisualizer.stop (visualizer p);
               channelMeters := ChannelMeters.stop (channelMeters p);
               startBtnActive := startBtnActive p |}).
  { unfold hidden, visibilitychange, pauseVisualizer. rewrite Hrun. reflexivity. }
  assert (Hshown : shown = hidden) by reflexivity.
  assert (Hclick1 : click1 = stopVisualizer hidden).
  { unfold click1. rewrite Hshown, Hhidden. reflexivity. }
  split; [rewrite Hhidden; repeat split|].
  split; [exact Hshown|].
  split; [rewrite Hclick1; repeat split|].
  assert (Hreach1 : reachable click1).
  { unfold click1, shown, hidden.
    apply reach_toggleVisualizer; [|exact Hbytes].
    apply reach_visibilitychange, reach_visibilitychange. exact Hreach. }
  destruct (page_inStep click1 Hreach1) as (_ & _ & Hv & _).
  destruct Hbytes as (Hdata & Hleft & Hright).
  assert (Hclick2 : click2 = startVisualizer click1 answer).
  { unfold click2, toggleVisualizer. rewrite Hclick1. reflexivity. }
  rewrite Hclick2. unfold startVisualizer, answer.
  destruct (AudioVisualizer.start (AudioVisualizer.initAudio (visualizer click1))
              dataArray currentTime) as [v'|] eqn:Hstart;
    [|unfold AudioVisualizer.start in Hstart; discriminate].
  cbn [isRunning visualizer channelMeters].
  split; [reflexivity|]. split.
  - exact (visualizer_start_running _ v' dataArray currentTime
             (AudioVisualizer.reach_initAudio _ Hv) Hdata Hstart).
  - unfold ChannelMeters.start. rewrite meters_animate_running. reflexivity.
Qed.

End PageRuns.


Lemma page_elements_run_together_witness :
  let loud := replicate 128 200%Z in
  let p := @StartStopApp.toggleVisualizer approxMath StartStopApp.new
             (StartStopApp.Granted loud 0 loud loud) in
  @StartStopApp.reachable approxMath p
  /\ AudioVisualizer.isRunning (StartStopApp.visualizer p)
     = ChannelMeters.isRunning (StartStopApp.channelMeters p)
  /\ AudioVisualizer.reachable (StartStopApp.visualizer p)
  /\ @ChannelMeters.reachable approxMath (StartStopApp.channelMeters p).
Proof.
  intros loud p.
  assert (Hloud : isByteArray 128 loud) by (apply replicate_isByteArray; lia).
  assert (Hreach : @StartStopApp.reachable approxMath p).
  { apply StartStopApp.reach_toggleVisualizer; [apply StartStopApp.reach_new|].
    split; [exact Hloud|]. split; exact Hloud. }
  split; [exact Hreach|].
  destruct (@page_elements_run_together approxMath p Hreach) as (Hsame & _ & Hv & Hm).
  split; [exact Hsame|]. split; [exact Hv|exact Hm].
Defined.

Lemma hidden_tab_needs_two_clicks_witness :
  let loud := replicate 128 200%Z in
  let answer := StartStopApp.Granted loud 0 loud loud in
  let p := @StartStopApp.toggleVisualizer approxMath StartStopApp.new answer in
  let hidden := StartStopApp.visibilitychange p true in
  let click1 := @StartStopApp.toggleVisualizer approxMath
                  (StartStopApp.visibilitychange hidden false) answer in
  @StartStopApp.reachable approxMath p
  /\ StartStopApp.isRunning p = true
  /\ StartStopApp.bytes answer
  /\ StartStopApp.idle hidden /\ StartStopApp.isRunning hidden = true
  /\ StartStopApp.idle click1 /\ StartStopApp.isRunning click1 = false.
Proof.
  intros loud answer p hidden click1.
  assert (Hloud : isByteArray 128 loud) by (apply replicate_isByteArray; lia).
  assert (Hbytes : StartStopApp.bytes answer).
  { split; [exact Hloud|]. split; exact Hloud. }
  assert (Hreach : @StartStopApp.reachable approxMath p).
  { apply StartStopApp.reach_toggleVisualizer; [apply StartStopApp.reach_new|exact Hbytes]. }
  assert (Hrun : StartStopApp.isRunning p = true) by reflexivity.
  split; [exact Hreach|]. split; [exact Hrun|]. split; [exact Hbytes|].
  destruct (@hidden_tab_needs_two_clicks approxMath p loud 0 loud loud Hreach Hrun Hbytes)
    as ((Hidle & Hflag & _) & _ & (Hidle1 & Hflag1) & _).
  split; [exact Hidle|]. split; [exact Hflag|]. split; [exact Hidle1|exact Hflag1].
Defined.


(** ** The published page *)

Section PublishedPage.
Context `{HostMath}.
Import PublishedApp.

Lemma docs_animate_running (s : DocsVisualizer.t) (dataArray : list Z)
    (currentTime : Z) (fullscreen : bool) (rnd : nat -> Q * Q * Q) :
  (length (DocsVisualizer.particles s) <= DocsVisualizer.maxParticles s)%nat ->
  let s' := DocsVisualizer.animate s dataArray currentTime fullscreen rnd in
  DocsVisualizer.isRunning s' = DocsVisualizer.isRunning s
  /\ DocsVisualizer.initialised s' = DocsVisualizer.initialised s.
Proof.
  intros Hcap s'.
  destruct (DocsVisualizer.isRunning s) eqn:Hrun.
  - destruct (animate_step s dataArray currentTime fullscreen rnd Hrun Hcap)
      as ((Hinit & _ & Hrun' & _) & _).
    fold s' in Hinit, Hrun'. split; [congruence|exact Hinit].
  - unfold s', DocsVisualizer.animate. rewrite Hrun. split; [exact Hrun|reflexivity].
Qed.

Lemma startElement_running (v v' : DocsVisualizer.t) (input : firstTick) :
  DocsVisualizer.reachable v -> bytes input ->
  startElement v input = Some v' ->
  DocsVisualizer.isRunning v' = true
  /\ DocsVisualizer.initialised v' = true
  /\ DocsVisualizer.reachable v'.
Proof.
  intros Hreach Hbytes Hstart.
  pose proof (DocsVisualizer.reach_start v _ _ _ _ v' Hreach Hbytes Hstart) as Hreach'.
  unfold startElement, DocsVisualizer.start in Hstart.
  destruct (DocsVisualizer.initialised v) eqn:Hinit; [|discriminate].
  injection Hstart as <-.
  destruct (reachable_particles v Hreach) as [Hmax Hlen].
  destruct (docs_animate_running (DocsVisualizer.withRunning v true)
              (DocsVisualizer.dataArray input) (DocsVisualizer.currentTime input)
              (DocsVisualizer.fullscreen input) (DocsVisualizer.random input))
    as [Hrun' Hinit'].
  { change (length (DocsVisualizer.particles v) <= DocsVisualizer.maxParticles v)%nat.
    lia. }
  split; [exact Hrun'|]. split; [rewrite Hinit'; exact Hinit|exact Hreach'].
Qed.

Lemma published_stop_inStep (p : t) : inStep p -> inStep (stopVisualizer p).
Proof.
  intros (Hsame & Himp & Hinit & Hv).
  split; [reflexivity|]. split; [discriminate|].
  split; [discriminate|apply DocsVisualizer.reach_stop; exact Hv].
Qed.

Lemma published_pause_inStep (p : t) : inStep p -> inStep (pauseVisualizer p).
Proof.
  intros Hstep. unfold pauseVisualizer.
  destruct (isRunning p) eqn:Hrun; [|exact Hstep].
  destruct Hstep as (Hsame & Himp & Hinit & Hv).
  split; [reflexivity|]. split; [discriminate|].
  split; [intros _; exact (Hinit Hrun)|apply DocsVisualizer.reach_stop; exact Hv].
Qed.

Lemma published_start_inStep (p : t) (answer : outcome) :
  inStep p -> answered answer -> inStep (startVisualizer p answer).
Proof.
  intros (Hsame & Himp & Hinit & Hv) Hanswer.
  destruct answer as [input| |]; cbn [startVisualizer].
  - pose proof (DocsVisualizer.reach_initAudio _ Hv) as Hv1.
    destruct (startElement (DocsVisualizer.initAudio (visualizer p)) input)
      as [v'|] eqn:Hstart.
    + destruct (startElement_running _ v' input Hv1 Hanswer Hstart)
        as (Hrun' & Hinit' & Hreach').
      split; [exact Hrun'|]. split; [reflexivity|].
      split; [intros _; exact Hinit'|exact Hreach'].
    + unfold startElement, DocsVisualizer.start in Hstart. discriminate.
  - split; [exact Hsame|]. split; [exact Himp|].
    split; [reflexivity|apply DocsVisualizer.reach_initAudio; exact Hv].
  - split; [|split; [|split]]; assumption.
Qed.

Lemma published_resume_inStep (p : t) (input : firstTick) :
  inStep p -> bytes input -> inStep (resumeVisualizer p input).
Proof.
  intros Hstep Hbytes. unfold resumeVisualizer.
  destruct (isRunning p) eqn:Hrun; [|exact Hstep].
  destruct (startElement (visualizer p) input) as [v'|] eqn:Hstart; [|exact Hstep].
  destruct Hstep as (Hsame & Himp & Hinit & Hv).
  destruct (startElement_running _ v' input Hv Hbytes Hstart)
    as (Hrun' & Hinit' & Hreach').
  split; [exact Hrun'|]. split; [reflexivity|].
  split; [intros _; exact Hinit'|exact Hreach'].
Qed.

Lemma published_inStep (p : t) : reachable p -> inStep p.
Proof.
  induction 1 as [|p w h _ IH|p answer _ IH Hanswer|p answer _ IH Hanswer
                 |p hidden input _ IH Hbytes|p _ IH|p input _ IH Hbytes].
  - split; [reflexivity|]. split; [discriminate|].
    split; [discriminate|apply DocsVisualizer.reach_new].
  - destruct IH as (Hsame & Himp & Hinit & Hv).
    split; [exact Hsame|]. split; [exact Himp|].
    split; [exact Hinit|apply DocsVisualizer.reach_setupCanvas; exact Hv].
  - apply published_start_inStep; assumption.
  - unfold click. destruct (negb (isRunning p));
      [apply published_start_inStep; assumption|exact IH].
  - unfold visibilitychange.
    destruct (hidden && isRunning p); [apply published_pause_inStep; exact IH|].
    destruct (negb hidden && isRunning p);
      [apply published_resume_inStep; assumption|exact IH].
  - unfold beforeunload. destruct (isRunning p);
      [apply published_stop_inStep; exact IH|exact IH].
  - destruct IH as (Hsame & Himp & Hinit & Hv).
    destruct (reachable_particles _ Hv) as [Hmax Hlen].
    destruct (docs_animate_running (visualizer p) (DocsVisualizer.dataArray input)
                (DocsVisualizer.currentTime input) (DocsVisualizer.fullscreen input)
                (DocsVisualizer.random input) ltac:(lia)) as [Hrun' Hinit'].
    unfold inStep, tick. cbn [visualizer metersRunning isRunning].
    unfold DocsVisualizer.tick. rewrite Hrun', Hinit'.
    split; [exact Hsame|]. split; [exact Himp|]. split; [exact Hinit|].
    apply DocsVisualizer.reach_animate; assumption.
Qed.

(** On the published page, through any sequence of starts, failures,
    clicks, hidden and shown tabs, unloads, resizes and ticks, the
    visualizer runs exactly when the meters were last started, neither
    runs unless the page's own flag is set, a page whose flag is set has
    its audio, and the visualizer is in a state the element reaches by
    itself. *)
Theorem published_page_runs_together (p : t) :
  reachable p ->
  DocsVisualizer.isRunning (visualizer p) = metersRunning p
  /\ (metersRunning p = true -> isRunning p = true)
  /\ (isRunning p = true -> DocsVisualizer.initialised (visualizer p) = true)
  /\ DocsVisualizer.reachable (visualizer p).
Proof.
  intros Hreach. destruct (published_inStep p Hreach) as (Hsame & Himp & Hinit & Hv).
  split; [exact Hsame|]. split; [exact Himp|]. split; [exact Hinit|exact Hv].
Qed.

(** The published page resumes by itself: hiding the tab of a running
    page stops the visualizer and the meters and empties the history and
    the particle list, and showing the tab again starts both, with the
    page's flag set throughout. *)
Theorem published_page_resumes (p : t) (input : firstTick) :
  reachable p -> isRunning p = true -> bytes input ->
  let hidden := visibilitychange p true input in
  let shown := visibilitychange hidden false input in
  (isRunning hidden = true
   /\ DocsVisualizer.isRunning (visualizer hidden) = false
   /\ metersRunning hidden = false
   /\ DocsVisualizer.spectrumHistory (visualizer hidden) = []
   /\ DocsVisualizer.particles (visualizer hidden) = [])
  /\ (isRunning shown = true
      /\ DocsVisualizer.isRunning (visualizer shown) = true
      /\ metersRunning shown = true).
Proof.
  intros Hreach Hrun Hbytes hidden shown.
  assert (Hhidden : hidden =
            {| isRunning := true;
               visualizer := DocsVisualizer.stop (visualizer p);
               metersRunning := false |}).
  { unfold hidden, visibilitychange, pauseVisualizer. rewrite Hrun. reflexivity. }
  split; [rewrite Hhidden; repeat split|].
  assert (Hreach1 : reachable hidden)
    by (apply reach_visibilitychange; assumption).
  destruct (published_inStep hidden Hreach1) as (_ & _ & Hinit & Hv).
  assert (Hrun1 : isRunning hidden = true) by (rewrite Hhidden; reflexivity).
  specialize (Hinit Hrun1).
  assert (Hshown : shown = resumeVisualizer hidden input).
  { unfold shown, visibilitychange. rewrite Hrun1. reflexivity. }
  rewrite Hshown. unfold resumeVisualizer. rewrite Hrun1.
  destruct (startElement (visualizer hidden) input) as [v'|] eqn:Hstart.
  - destruct (startElement_running _ v' input Hv Hbytes Hstart) as (Hrun' & _ & _).
    split; [reflexivity|]. split; [exact Hrun'|reflexivity].
  - unfold startElement, DocsVisualizer.start in Hstart.
    rewrite Hinit in Hstart. discriminate.
Qed.

End PublishedPage.

Lemma published_page_runs_together_witness :
  let input := {| DocsVisualizer.dataArray := replicate 128 200%Z;
                  DocsVisualizer.currentTime := 0;
                  DocsVisualizer.fullscreen := false;
                  DocsVisualizer.random := fun _ => (1 # 2, 1 # 2, 1 # 2) |} in
  let p := @PublishedApp.click approxMath PublishedApp.new (PublishedApp.Granted input) in
  @PublishedApp.reachable approxMath p
  /\ DocsVisualizer.isRunning (PublishedApp.visualizer p) = PublishedApp.metersRunning p
  /\ @DocsVisualizer.reachable approxMath (PublishedApp.visualizer p).
Proof.
  intros input p.
  assert (Hbytes : PublishedApp.bytes input) by (apply replicate_isByteArray; lia).
  assert (Hreach : @PublishedApp.reachable approxMath p)
    by (apply PublishedApp.reach_click; [apply PublishedApp.reach_new|exact Hbytes]).
  split; [exact Hreach|].
  destruct (@published_page_runs_together approxMath p Hreach) as (Hsame & _ & _ & Hv).
  split; [exact Hsame|exact Hv].
Defined.

Lemma published_page_resumes_witness :
  let input := {| DocsVisualizer.dataArray := replicate 128 200%Z;
                  DocsVisualizer.currentTime := 0;
                  DocsVisualizer.fullscreen := false;
                  DocsVisualizer.random := fun _ => (1 # 2, 1 # 2, 1 # 2) |} in
  let p := @PublishedApp.click approxMath PublishedApp.new (PublishedApp.Granted input) in
  let hidden := @PublishedApp.visibilitychange approxMath p true input in
  let shown := @PublishedApp.visibilitychange approxMath hidden false input in
  @PublishedApp.reachable approxMath p
  /\ PublishedApp.isRunning p = true
  /\ PublishedApp.bytes input
  /\ DocsVisualizer.isRunning (PublishedApp.visualizer hidden) = false
  /\ DocsVisualizer.isRunning (PublishedApp.visualizer shown) = true
  /\ PublishedApp.metersRunning shown = true.
Proof.
  intros input p hidden shown.
  assert (Hbytes : PublishedApp.bytes input) by (apply replicate_isByteArray; lia).
  assert (Hreach : @PublishedApp.reachable approxMath p)
    by (apply PublishedApp.reach_click; [apply PublishedApp.reach_new|exact Hbytes]).
  assert (Hrun : PublishedApp.isRunning p = true) by reflexivity.
  split; [exact Hreach|]. split; [exact Hrun|]. split; [exact Hbytes|].
  destruct (@published_page_resumes approxMath p input Hreach Hrun Hbytes)
    as ((_ & Hstopped & _) & (_ & Hrunning & Hmeters)).
  split; [exact Hstopped|]. split; [exact Hrunning|exact Hmeters].
Defined.


(** ** The remembered permission *)

Section RememberedPermission.
Import Permission.

Lemma getPermissionGranted_set (readable granted writable : bool)
    (store : localStorage) :
  getPermissionGranted readable (setPermissionGranted granted writable store)
  = readable && (if writable then granted else getPermissionGranted true store).
Proof.
  unfold getPermissionGranted, setPermissionGranted.
  destruct readable, writable; try reflexivity.
  rewrite lookup_insert_eq. destruct granted; reflexivity.
Qed.

Lemma getPermissionGranted_readable (readable : bool) (store : localStorage) :
  getPermissionGranted readable store = readable && getPermissionGranted true store.
Proof. destruct readable; reflexivity. Qed.

(** The page starts by itself on a load exactly when the storage can be
    read, the browser reports the permission as granted and the stored
    flag is true.  The flag after a start is what the start wrote (true
    only when it succeeded) if the storage took the write, and what was
    stored before if it did not.  A load that reads the flag and finds the
    permission denied or to be asked for clears the flag if the storage
    takes the write, and then no later load starts by itself; if that
    write fails, or the load could not read the storage, the flag stays
    and a later load that finds the permission granted starts by itself. *)
Theorem auto_start_follows_stored_flag
    (succeeded startWrites readable loadWrites laterReadable laterWrites : bool)
    (state later : option permissionState) (store : localStorage) :
  let flag :=
    if startWrites then succeeded else getPermissionGranted true store in
  let store' := afterStart succeeded startWrites store in
  getPermissionGranted true store' = flag
  /\ (fst (checkAutoStart readable loadWrites state store') = true <->
      readable = true /\ state = Some granted /\ flag = true)
  /\ (state <> Some granted -> state <> None ->
      (fst (checkAutoStart laterReadable laterWrites later
              (snd (checkAutoStart readable loadWrites state store'))) = true
       <-> laterReadable = true /\ later = Some granted /\ flag = true
           /\ readable && loadWrites = false)).
Proof.
  intros flag store'.
  assert (Hflag : getPermissionGranted true store' = flag).
  { unfold store', afterStart. rewrite getPermissionGranted_set. reflexivity. }
  split; [exact Hflag|].
  assert (Hload : forall (r w : bool) (st : option permissionState) (sto : localStorage),
            fst (checkAutoStart r w st sto) = true <->
            r = true /\ st = Some granted /\ getPermissionGranted true sto = true).
  { intros r w st sto. unfold checkAutoStart.
    rewrite (getPermissionGranted_readable r).
    destruct r, (getPermissionGranted true sto), st as [[| |]|]; cbn [andb negb fst];
      (split; [intros Heq; try discriminate Heq; repeat split
              |intros (H1 & H2 & H3); try discriminate H1; try discriminate H2;
               try discriminate H3; reflexivity]). }
  split.
  - rewrite Hload, Hflag. reflexivity.
  - intros Hstate Hsome. rewrite Hload.
    assert (Hleft : getPermissionGranted true
                      (snd (checkAutoStart readable loadWrites state store'))
                    = flag && negb (readable && loadWrites)).
    { unfold checkAutoStart. rewrite (getPermissionGranted_readable readable), Hflag.
      destruct readable, flag; cbn [andb negb snd]; try (exact Hflag).
      destruct state as [[| |]|]; try congruence; cbn [snd];
        rewrite getPermissionGranted_set, Hflag;
        destruct loadWrites; reflexivity. }
    rewrite Hleft.
    destruct flag, (readable && loadWrites); cbn [andb negb];
      (split; [intros (H1 & H2 & H3); try discriminate H3; repeat split; assumption
              |intros (H1 & H2 & H3 & H4); try discriminate H3; try discriminate H4;
               repeat split; assumption]).
Qed.

End RememberedPermission.

Lemma auto_start_follows_stored_flag_witness :
  let store' := Permission.afterStart true true ∅ in
  Some Permission.denied <> Some Permission.granted
  /\ Some Permission.denied <> None
  /\ fst (Permission.checkAutoStart true true (Some Permission.granted) store') = true
  /\ fst (Permission.checkAutoStart true true (Some Permission.granted)
            (snd (Permission.checkAutoStart true true (Some Permission.denied) store')))
     = false
  /\ fst (Permission.checkAutoStart true true (Some Permission.granted)
            (snd (Permission.checkAutoStart true false (Some Permission.denied) store')))
     = true.
Proof.
  intros store'.
  assert (H1 : Some Permission.denied <> Some Permission.granted) by discriminate.
  assert (H2 : Some Permission.denied <> @None Permission.permissionState) by discriminate.
  split; [exact H1|]. split; [exact H2|]. split; [reflexivity|].
  split.
  - destruct (fst (Permission.checkAutoStart true true (Some Permission.granted)
                     (snd (Permission.checkAutoStart true true (Some Permission.denied)
                             store')))) eqn:Hlater; [|reflexivity].
    apply (proj2 (proj2 (auto_start_follows_stored_flag true true true true true true
                           (Some Permission.denied) (Some Permission.granted) ∅)) H1 H2)
      in Hlater.
    destruct Hlater as (_ & _ & _ & Hwrite). discriminate Hwrite.
  - apply (proj2 (proj2 (auto_start_follows_stored_flag true true true false true true
                           (Some Permission.denied) (Some Permission.granted) ∅)) H1 H2).
    repeat split.
Defined.
